(** * YouTube Shorts automation pipeline: a shallow embedding

    The development follows [youtube_content_machine.py] class by class.
    Python code that threads effects (log file, local files, HTTP session,
    random generator, platform API) is written in a state-and-exception
    monad over an explicit [World]; every call into an external library
    (requests, moviepy, PIL, googleapiclient) is an oracle of [Env], so
    statements hold for every behaviour of those collaborators.  What
    Python itself computes is written out: [float] arithmetic rounds to
    the nearest double, [pathlib] joins paths as PurePosixPath does, and
    [random] draws 32-bit words and redraws as [_randbelow] does. *)

From Stdlib Require Import ZArith NArith QArith Qround Qpower String Ascii.
From Stdlib Require Import List Lia Lqa.
From stdpp Require Import gmap strings list pretty.

Open Scope string_scope.
Open Scope list_scope.
Open Scope Z_scope.

(** ** Python strings

    A [str] is kept as the UTF-8 bytes of the source literal. *)

Module PyStr.

Definition nl : string := String "010"%char "".

(** [sep.join(parts)] *)
Definition join (sep : string) (parts : list string) : string :=
  String.concat sep parts.

Definition is_lower (c : ascii) : bool :=
  ((97 <=? nat_of_ascii c) && (nat_of_ascii c <=? 122))%nat.

Definition is_upper (c : ascii) : bool :=
  ((65 <=? nat_of_ascii c) && (nat_of_ascii c <=? 90))%nat.

Definition upper_char (c : ascii) : ascii :=
  if is_lower c then ascii_of_nat (nat_of_ascii c - 32) else c.

Definition lower_char (c : ascii) : ascii :=
  if is_upper c then ascii_of_nat (nat_of_ascii c + 32) else c.

Fixpoint lower (s : string) : string :=
  match s with
  | EmptyString => EmptyString
  | String c rest => String (lower_char c) (lower rest)
  end.

Fixpoint is_ascii (s : string) : bool :=
  match s with
  | EmptyString => true
  | String c rest => (nat_of_ascii c <? 128)%nat && is_ascii rest
  end.

(** [s.capitalize()]: first character title-cased, the rest lower-cased.
    On an ASCII string this is the mapping of the letters a-z and A-Z;
    on any other string the result comes from the Unicode tables of the
    interpreter, here [tables]. *)
Definition capitalize (tables : string -> string) (s : string) : string :=
  if is_ascii s
  then match s with
       | EmptyString => EmptyString
       | String c rest => String (upper_char c) (lower rest)
       end
  else tables s.

(** [s.replace(old, new)] for a one-character [old]. *)
Fixpoint replace_char (old : ascii) (new : string) (s : string) : string :=
  match s with
  | EmptyString => EmptyString
  | String c rest =>
      if Ascii.eqb c old then new +:+ replace_char old new rest
      else String c (replace_char old new rest)
  end.

Fixpoint ends_with (suffix s : string) : bool :=
  String.eqb suffix s ||
  match s with
  | EmptyString => false
  | String _ rest => ends_with suffix rest
  end.

Fixpoint contains_char (c : ascii) (s : string) : bool :=
  match s with
  | EmptyString => false
  | String c' rest => Ascii.eqb c c' || contains_char c rest
  end.

(** The characters of a [str]: each is a lead byte with the
    continuation bytes (10xxxxxx) that follow it. *)
Definition is_continuation (c : ascii) : bool :=
  ((128 <=? nat_of_ascii c) && (nat_of_ascii c <? 192))%nat.

Fixpoint chars (s : string) : list string :=
  match s with
  | EmptyString => []
  | String c rest =>
      match chars rest with
      | next :: others =>
          match next with
          | String c' _ =>
              if is_continuation c'
              then String c next :: others
              else String c EmptyString :: next :: others
          | EmptyString => String c EmptyString :: others
          end
      | [] => [String c EmptyString]
      end
  end.

(** [Some rest] when [s = p ++ rest]. *)
Fixpoint strip_prefix (p s : string) : option string :=
  match p, s with
  | EmptyString, _ => Some s
  | String a p', String b s' =>
      if Ascii.eqb a b then strip_prefix p' s' else None
  | String _ _, EmptyString => None
  end.

End PyStr.

(** ** Python values (the JSON fragment and the request bodies) *)

#[local] Unset Elimination Schemes.
Inductive pyval : Type :=
| PNone
| PBool (b : bool)
| PInt (z : Z)
| PStr (s : string)
| PList (items : list pyval)
| PDict (items : list (string * pyval)).
#[local] Set Elimination Schemes.

(** Exceptions: the class that an [except] clause tests, and [str(e)]. *)
Inductive exn_class : Type :=
| ConnectionError          (* the builtin, raised by the downloader *)
| ValueError
| IndexError
| KeyError
| TypeError
| AttributeError
| OSError                  (* also raised under its alias EnvironmentError *)
| RequestException         (* requests.exceptions.RequestException and subclasses *)
| LibraryError.            (* any other Exception of a collaborator *)

Record exn : Type := Exn { exn_kind : exn_class; exn_str : string }.

Definition is_RequestException (e : exn) : bool :=
  match exn_kind e with RequestException => true | _ => false end.

(** [except IOError]: OSError under its other alias, with its
    subclasses. *)
Definition is_OSError (e : exn) : bool :=
  match exn_kind e with
  | OSError | ConnectionError | RequestException => true
  | _ => false
  end.

Module Py.

(** [bool(v)] *)
Definition truthy (v : pyval) : bool :=
  match v with
  | PNone => false
  | PBool b => b
  | PInt z => negb (z =? 0)
  | PStr s => negb (String.eqb s "")
  | PList l => match l with [] => false | _ => true end
  | PDict d => match d with [] => false | _ => true end
  end.

Definition type_name (v : pyval) : string :=
  match v with
  | PNone => "NoneType"
  | PBool _ => "bool"
  | PInt _ => "int"
  | PStr _ => "str"
  | PList _ => "list"
  | PDict _ => "dict"
  end.

(** Lookup in a dict with [str] keys (keys of a dict are unique). *)
Fixpoint assoc (k : string) (d : list (string * pyval)) : option pyval :=
  match d with
  | [] => None
  | (k', v) :: rest => if String.eqb k k' then Some v else assoc k rest
  end.

Definition keys (d : list (string * pyval)) : list string := map fst d.

(** [seq[i]] for a list, with Python's negative indices. *)
Definition index {A} (l : list A) (i : Z) : option A :=
  let n := Z.of_nat (length l) in
  if (0 <=? i) && (i <? n) then nth_error l (Z.to_nat i)
  else if (- n <=? i) && (i <? 0) then nth_error l (Z.to_nat (i + n))
  else None.

End Py.

(** ** Python floats

    A [float] is a double, kept as the rational it denotes.  Every
    operation gives the double nearest to the exact result, ties going
    to the even significand (53 bits, subnormals from 2^-1074 on).
    Magnitudes beyond the largest double are not modelled. *)

Module Float.

(** The nearest integer, ties to even *)
Definition rne (q : Q) : Z :=
  let f := Qfloor q in
  match (q - inject_Z f ?= 1 # 2)%Q with
  | Lt => f
  | Gt => f + 1
  | Eq => if Z.even f then f else f + 1
  end.

(** [floor (log2 x)] for [0 < x] *)
Definition ilog2 (x : Q) : Z :=
  let e := Z.log2 (Qnum x) - Z.log2 (Z.pos (Qden x)) in
  if Qle_bool (2 ^ e) x then e else e - 1.

(** The exponent of the unit in the last place of the doubles around
    [x] *)
Definition cexp (x : Q) : Z := Z.max (ilog2 x - 52) (-1074).

(** The double nearest to a positive [x] *)
Definition nearest (x : Q) : Q :=
  let c := cexp x in (inject_Z (rne (x / 2 ^ c)) * 2 ^ c)%Q.

Definition round (x : Q) : Q :=
  let x := Qred x in
  Qred match (x ?= 0)%Q with
       | Eq => 0
       | Gt => nearest x
       | Lt => - nearest (- x)
       end.

Definition add (x y : Q) : Q := round (x + y).
Definition sub (x y : Q) : Q := round (x - y).
Definition mul (x y : Q) : Q := round (x * y).

(** [x] is a double *)
Definition is_double (x : Q) : Prop := (round x == x)%Q.

(** [int(x)]: truncation towards zero *)
Definition int (x : Q) : Z := Z.quot (Qnum x) (Z.pos (Qden x)).

End Float.

(** ** pathlib

    A [Path] is its root ("", "/" or "//") and its components; joining
    and [str()] are those of PurePosixPath. *)

Module Pathlib.

(** [s.split("/")] *)
Fixpoint split (s : string) : list string :=
  match s with
  | EmptyString => [EmptyString]
  | String c rest =>
      if Ascii.eqb c "/"
      then EmptyString :: split rest
      else match split rest with
           | first :: others => String c first :: others
           | [] => [String c EmptyString]
           end
  end.

(** Exactly two leading slashes are kept, any other number is one. *)
Definition root (s : string) : string :=
  match s with
  | String "/" (String "/" (String "/" _)) => "/"
  | String "/" (String "/" _) => "//"
  | String "/" _ => "/"
  | _ => ""
  end.

Definition component (c : string) : bool :=
  negb (String.eqb c "" || String.eqb c ".").

(** [Path(s)] *)
Definition parse (s : string) : string * list string :=
  (root s, List.filter component (split s)).

(** [p / name]: an absolute [name] replaces [p]. *)
Definition joinpath (p : string * list string) (name : string)
    : string * list string :=
  let (r, cs) := parse name in
  if String.eqb r "" then (fst p, snd p ++ cs) else (r, cs).

(** [str(p)] *)
Definition to_str (p : string * list string) : string :=
  match p with
  | (EmptyString, []) => "."
  | (r, cs) => r +:+ String.concat "/" cs
  end.

(** [p.parent] *)
Definition parent (p : string * list string) : string * list string :=
  (fst p, removelast (snd p)).

End Pathlib.

(** ** Media objects of the collaborating libraries *)

Record TextOverlay : Type := {
  overlay_text : string;
  overlay_fontsize : Z;
  overlay_color : string;
  overlay_font : string;
  overlay_stroke_color : string;
  overlay_stroke_width : Z;
  overlay_position : string;
  overlay_duration : Q
}.

Record AudioTrack : Type := {
  audio_source : string;
  audio_volume : Q
}.

Record Clip : Type := {
  clip_w : Q;
  clip_h : Q;
  clip_duration : Q;
  clip_overlays : list TextOverlay;
  clip_audio : option AudioTrack
}.

Record EncodeProfile : Type := {
  codec : string;
  audio_codec : string;
  threads : Z;
  preset : string
}.

Definition rgb : Type := (Z * Z * Z)%type.

(** One [draw.text(xy, text, font, fill)] call. *)
Record DrawText : Type := {
  draw_xy : Z * Z;
  draw_string : string;
  draw_fill : rgb
}.

Record Frame : Type := { frame_width : Z; frame_height : Z }.

Record Image : Type := {
  img_frame : Frame;
  img_timestamp : Q;
  img_painted : list DrawText     (* in painting order *)
}.

Inductive blob : Type :=
| RawBytes (content : string)
| EncodedVideo (c : Clip) (p : EncodeProfile)
| SavedImage (i : Image).

(** ** The world the pipeline acts on *)

Inductive level : Type := INFO | WARNING | ERROR.

(** A GET through the session: the arguments of the call (the session
    adds its constant User-Agent header to each). *)
Record request : Type := {
  req_url : pyval;
  req_headers : list (string * option string);
  req_params : list (string * pyval);
  req_timeout : option Z
}.

Record response : Type := {
  status_code : Z;
  http_error : string;            (* str() of the HTTPError of raise_for_status *)
  content : string;
  json_body : exn + pyval         (* what response.json() does *)
}.

Inductive api_call : Type :=
| VideosInsert (part : string) (body : pyval) (media : string)
| ThumbnailsSet (videoId : pyval) (media : string).

Record World : Type := {
  files : gmap string blob;       (* regular files, by path *)
  dirs : gset string;             (* directories *)
  log : list (level * string);    (* youtube_machine.log, oldest first *)
  requests : list request;        (* GETs issued through the session *)
  draws : nat;                    (* words drawn from the random generator *)
  api_calls : list api_call;      (* calls issued to the platform API *)
  chunks : nat                    (* next_chunk() calls made *)
}.

(** Field updates *)
Module W.

Definition set_files (f : gmap string blob) (w : World) : World :=
  {| files := f; dirs := dirs w; log := log w; requests := requests w;
     draws := draws w; api_calls := api_calls w; chunks := chunks w |}.

Definition add_log (entry : level * string) (w : World) : World :=
  {| files := files w; dirs := dirs w; log := log w ++ [entry];
     requests := requests w; draws := draws w;
     api_calls := api_calls w; chunks := chunks w |}.

Definition add_request (r : request) (w : World) : World :=
  {| files := files w; dirs := dirs w; log := log w;
     requests := requests w ++ [r]; draws := draws w;
     api_calls := api_calls w; chunks := chunks w |}.

Definition tick_draws (w : World) : World :=
  {| files := files w; dirs := dirs w; log := log w;
     requests := requests w; draws := S (draws w);
     api_calls := api_calls w; chunks := chunks w |}.

Definition draw_words (words : nat) (w : World) : World :=
  {| files := files w; dirs := dirs w; log := log w;
     requests := requests w; draws := (words + draws w)%nat;
     api_calls := api_calls w; chunks := chunks w |}.

Definition add_logs (entries : list (level * string)) (w : World) : World :=
  {| files := files w; dirs := dirs w; log := log w ++ entries;
     requests := requests w; draws := draws w;
     api_calls := api_calls w; chunks := chunks w |}.

Definition add_api_call (c : api_call) (w : World) : World :=
  {| files := files w; dirs := dirs w; log := log w;
     requests := requests w; draws := draws w;
     api_calls := api_calls w ++ [c]; chunks := chunks w |}.

Definition tick_chunks (w : World) : World :=
  {| files := files w; dirs := dirs w; log := log w;
     requests := requests w; draws := draws w;
     api_calls := api_calls w; chunks := S (chunks w) |}.

End W.

Inductive outcome (A : Type) : Type :=
| Return (a : A)
| Raise (e : exn)
| OutOfFuel.
Arguments Return {A} a.
Arguments Raise {A} e.
Arguments OutOfFuel {A}.

Inductive http_outcome : Type :=
| HttpRaise (e : exn)
| HttpResponse (r : response).

(** The collaborators.  Oracles that can be asked several times take the
    number of earlier calls, so that a transport may fail twice and then
    succeed.

    The generator yields 32-bit words.  [entropy p] packs, least
    significant first, the words it yields from position [p] on; as a
    number has finitely many non-zero words, a loop that draws until a
    value is accepted comes to an end.

    [capitalize_tables] is [str.capitalize] on a string with characters
    outside ASCII.

    [writer_error] is the text that the video writer gives its IOError
    when ffmpeg could not write the file.

    [open_io] is the text of an OSError of [open] that the directories
    of the world do not explain (permissions, a name too long);
    [write_io] that of an OSError while the content is written, with
    what the file then holds. *)
Record Env : Type := {
  BASE_DIR : string;
  environ : gmap string string;
  transport : nat -> request -> http_outcome;       (* Session.get *)
  entropy : nat -> N;                               (* the generator's words *)
  container_repr : pyval -> string;                 (* str() of a list or dict *)
  capitalize_tables : string -> string;             (* Unicode case mapping *)
  open_io : string -> option string;                (* open(path, "wb") *)
  write_io : string -> blob -> option (string * blob);  (* write and close *)
  decode_video : string -> option blob -> exn + Clip;   (* VideoFileClip(path) *)
  render_text : TextOverlay -> option exn;          (* TextClip(...) *)
  decode_audio : string -> option exn;              (* AudioFileClip(path) *)
  encode_video : Clip -> EncodeProfile -> option exn;   (* write_videofile *)
  writer_error : string -> exn -> string;
  get_frame : Clip -> Q -> exn + Frame;
  textbbox : string -> Z * Z * Z * Z;
  save_image : string -> Image -> option exn;
  open_media : string -> option blob -> option exn;     (* MediaFileUpload(path) *)
  next_chunk : nat -> api_call -> exn + (option Q * pyval);
  thumbnails_set : api_call -> option exn
}.

(** ** Objects of start-up: credentials, scheduler, library calls *)

Record Credentials : Type := {
  token : option string;
  refresh_token : option string;
  token_uri : string;
  client_id : option string;
  client_secret : option string
}.

(** A job as handed to [add_job]: the trigger name, the keyword
    arguments unpacked from the schedule, and [args]. *)
Record Job : Type := {
  job_trigger : string;
  job_fields : list (string * pyval);
  job_args : list pyval
}.

Record Scheduler : Type := { jobs : list Job; running : bool }.

(** The library calls made while the objects are built and the jobs
    registered; each may raise.  The client library and the scheduler
    also log through the root logger, which [basicConfig] (lines 32-36)
    has put on the log file at level INFO: [build_log], [add_job_log]
    and [start_log] are the records they write during the call, the
    last two given the scheduler as it is when the call is made. *)
Record Libs : Type := {
  truetype : string -> Z -> option exn;          (* ImageFont.truetype *)
  build_service : string -> string -> Credentials -> option exn;
                                                 (* googleapiclient build *)
  add_job : Job -> option exn;                   (* scheduler.add_job(...) *)
  build_log : string -> string -> Credentials -> list (level * string);
  add_job_log : Scheduler -> Job -> list (level * string);
  start_log : Scheduler -> list (level * string)
}.

(** ** The monad *)

Definition M (A : Type) : Type := World -> outcome A * World.

Definition ret {A} (a : A) : M A := fun w => (Return a, w).

Definition bind {A B} (m : M A) (k : A -> M B) : M B :=
  fun w =>
    match m w with
    | (Return a, w') => k a w'
    | (Raise e, w') => (Raise e, w')
    | (OutOfFuel, w') => (OutOfFuel, w')
    end.

Definition raise {A} (e : exn) : M A := fun w => (Raise e, w).

Definition out_of_fuel {A} : M A := fun w => (OutOfFuel, w).

(** [try: m  except <handles> as e: handler e] *)
Definition try_except {A} (m : M A) (handles : exn -> bool)
    (handler : exn -> M A) : M A :=
  fun w =>
    match m w with
    | (Raise e, w') => if handles e then handler e w' else (Raise e, w')
    | r => r
    end.

Notation "'let*' x ':=' m 'in' k" := (bind m (fun x => k))
  (at level 10, x pattern, m at level 100, k at level 200).

Definition lift {A} (r : exn + A) : M A :=
  match r with inl e => raise e | inr a => ret a end.

Definition check (r : option exn) : M unit :=
  match r with Some e => raise e | None => ret tt end.

Module logging.

Definition emit (lv : level) (msg : string) : M unit :=
  fun w => (Return tt, W.add_log (lv, msg) w).

(** The number of records of level WARNING in a log *)
Definition warnings (l : list (level * string)) : nat :=
  length (List.filter (fun entry =>
                    match fst entry with WARNING => true | _ => false end) l).

Definition info := emit INFO.
Definition warning := emit WARNING.
Definition error := emit ERROR.

(** Records that a library hands to the root logger *)
Fixpoint records (entries : list (level * string)) : M unit :=
  match entries with
  | [] => ret tt
  | (lv, msg) :: rest =>
      let* _ := emit lv msg in
      records rest
  end.

End logging.

(** [try: m  except Exception as e: logging.error(f"<label>: {str(e)}"); raise] *)
Definition logged {A} (label : string) (m : M A) : M A :=
  try_except m (fun _ => true)
    (fun e =>
       let* _ := logging.error (label +:+ ": " +:+ exn_str e) in
       raise e).

(** [w'] is a later state of [w] in which nothing was deleted: files were
    only added or overwritten, and the log, the GETs and the API calls were
    only appended to. *)
Record grows (w w' : World) : Prop := {
  grows_files : dom (files w) ⊆ dom (files w');
  grows_dirs : dirs w = dirs w';
  grows_log : log w `prefix_of` log w';
  grows_requests : requests w `prefix_of` requests w';
  grows_api_calls : api_calls w `prefix_of` api_calls w'
}.

(** A relation between a state and a later one that every step which
    only logs respects. *)
Class FrameRel (R : World -> World -> Prop) : Prop := {
  frame_refl : forall w, R w w;
  frame_trans : forall w1 w2 w3, R w1 w2 -> R w2 w3 -> R w1 w3;
  frame_log : forall entry w, R w (W.add_log entry w)
}.

(** [m] takes every state to one related to it by [R], however it ends. *)
Definition keeps (R : World -> World -> Prop) {A} (m : M A) : Prop :=
  forall w, R w (snd (m w)).

Abbreviation monotone := (keeps grows).

(** No call to the platform API was issued between [w] and [w']. *)
Definition same_api_calls (w w' : World) : Prop :=
  api_calls w' = api_calls w.

(** Between [w] and [w'] only thumbnail calls were issued. *)
Definition thumbnails_only (w w' : World) : Prop :=
  exists tail,
    api_calls w' = api_calls w ++ tail
    /\ Forall (fun c => exists videoId media, c = ThumbnailsSet videoId media)
         tail.

(** [m] needs no fuel. *)
Definition total {A} (m : M A) : Prop :=
  forall w, fst (m w) <> OutOfFuel.

(** [Q] holds of the value and the state whenever [m] returns. *)
Definition ensures {A} (m : M A) (Q : A -> World -> Prop) : Prop :=
  forall w a w', m w = (Return a, w') -> Q a w'.

(** The path that a stage returns names a file that exists. *)
Definition delivered (p : string) (w : World) : Prop :=
  is_Some (files w !! p).

(** ** Builtins with effects or errors *)

Module Builtins.

Section WithEnv.
Context (E : Env).

(** [str(v)], as used by f-strings. *)
Definition str (v : pyval) : string :=
  match v with
  | PNone => "None"
  | PBool true => "True"
  | PBool false => "False"
  | PInt z => pretty z
  | PStr s => s
  | PList _ | PDict _ => container_repr E v
  end.

(** [obj[key]] with a [str] key *)
Definition getitem (obj : pyval) (key : string) : M pyval :=
  match obj with
  | PDict d =>
      match Py.assoc key d with
      | Some v => ret v
      | None => raise (Exn KeyError ("'" +:+ key +:+ "'"))
      end
  | PList _ =>
      raise (Exn TypeError "list indices must be integers or slices, not str")
  | PStr _ =>
      raise (Exn TypeError "string indices must be integers, not 'str'")
  | _ =>
      raise (Exn TypeError
               ("'" +:+ Py.type_name obj +:+ "' object is not subscriptable"))
  end.

(** [obj[i]] with an [int] index *)
Definition getitem_int (obj : pyval) (i : Z) : M pyval :=
  match obj with
  | PList l =>
      match Py.index l i with
      | Some v => ret v
      | None => raise (Exn IndexError "list index out of range")
      end
  | PStr s =>
      match Py.index (PyStr.chars s) i with
      | Some c => ret (PStr c)
      | None => raise (Exn IndexError "string index out of range")
      end
  | PDict _ => raise (Exn KeyError (pretty i))
  | _ =>
      raise (Exn TypeError
               ("'" +:+ Py.type_name obj +:+ "' object is not subscriptable"))
  end.

(** [obj.get(key, default)] *)
Definition get (obj : pyval) (key : string) (default : pyval) : M pyval :=
  match obj with
  | PDict d =>
      match Py.assoc key d with
      | Some v => ret v
      | None => ret default
      end
  | _ =>
      raise (Exn AttributeError
               ("'" +:+ Py.type_name obj +:+ "' object has no attribute 'get'"))
  end.

End WithEnv.

End Builtins.

(** ** Primitive effects *)

Module Sys.

(** [str(Path(d) / name)] *)
Definition path_join (d name : string) : string :=
  Pathlib.to_str (Pathlib.joinpath (Pathlib.parse d) name).

(** *** The random module *)

(** The first word of the generator's output, and the output after it *)
Definition word (raw : N) : N := (raw mod 2 ^ 32)%N.
Definition after (words : nat) (raw : N) : N :=
  N.shiftr raw (32 * N.of_nat words).

(** The number of words that [getrandbits(k)] draws *)
Definition words_for (k : N) : nat := S (N.to_nat ((k - 1) / 32)).

(** [getrandbits(k)] for [0 < k]: full words, least significant first,
    and the top bits of the last one *)
Fixpoint getrandbits_words (words : nat) (k raw : N) : N :=
  match words with
  | O => 0%N
  | S more =>
      if (k <=? 32)%N then N.shiftr (word raw) (32 - k)
      else (word raw
            + 2 ^ 32 * getrandbits_words more (k - 32) (after 1 raw))%N
  end.

Definition getrandbits (k raw : N) : N :=
  getrandbits_words (words_for k) k raw.

(** One round of [_randbelow(n)]: the value drawn is kept when it is
    below [n]. *)
Definition kept (n v : N) : option N :=
  if (v <? n)%N then Some v else None.

(** [r = getrandbits(k); while r >= n: r = getrandbits(k)] on the
    output [raw]: the value returned and the number of words drawn.
    [rounds] is the number of rounds after which [raw] is used up. *)
Fixpoint redraw (rounds : nat) (n k raw : N) (drawn : nat) : N * nat :=
  let r := getrandbits k raw in
  let drawn := (drawn + words_for k)%nat in
  match kept n r, rounds with
  | Some r, _ => (r, drawn)
  | None, S rounds' => redraw rounds' n k (after (words_for k) raw) drawn
  | None, O => (r, drawn)
  end.

(** [_randbelow(n)] for [0 < n], with [k = n.bit_length()] *)
Definition below (n raw : N) : N * nat :=
  redraw (N.to_nat (N.size raw)) n (N.size n) raw 0.

Section WithEnv.
Context (E : Env).

Definition CONTENT_DIR : string := path_join (BASE_DIR E) "content".
Definition TEMP_DIR : string := path_join (BASE_DIR E) "temp".
Definition LOG_DIR : string := path_join (BASE_DIR E) "logs".

(** *** Files

    The world lists its directories by paths without [..] steps, and a
    file under the path by which the program reaches it. *)

(** The directory with these components, innermost first, exists: the
    root and the working directory do, what is above the working
    directory does, and a directory of the world does. *)
Definition dir_exists (w : World) (root : string) (stack : list string)
    : bool :=
  match stack with
  | [] => true
  | c :: _ =>
      String.eqb c ".."
      || bool_decide (Pathlib.to_str (root, rev stack) ∈ dirs w)
  end.

(** One step up; the root is its own parent. *)
Definition above (root : string) (stack : list string) : list string :=
  match stack with
  | [] => if String.eqb root "" then [".."] else []
  | c :: outer => if String.eqb c ".." then ".." :: stack else outer
  end.

(** Where the steps [components] lead from [stack]: a [..] step needs
    a directory to start from, and arrives at one.  [found] says that
    [stack] is such an arrival, or the start. *)
Fixpoint resolve (w : World) (root : string) (stack : list string)
    (found : bool) (components : list string)
    : option (list string * bool) :=
  match components with
  | [] => Some (stack, found)
  | c :: rest =>
      if String.eqb c ".."
      then if found || dir_exists w root stack
           then resolve w root (above root stack) true rest
           else None
      else resolve w root (c :: stack) false rest
  end.

(** The path with this root and these components names a directory. *)
Definition is_dir (w : World) (root : string) (components : list string)
    : bool :=
  match resolve w root [] true components with
  | Some (stack, found) => found || dir_exists w root stack
  | None => false
  end.

(** It names a regular file, as it is spelled or once its [..] steps
    are made. *)
Definition is_file (w : World) (root : string) (components : list string)
    : bool :=
  bool_decide (is_Some (files w !! Pathlib.to_str (root, components)))
  || match resolve w root [] true components with
     | Some (stack, _) =>
         bool_decide (is_Some (files w !! Pathlib.to_str (root, rev stack)))
     | None => false
     end.

(** A regular file is on the way to the last component. *)
Definition through_file (w : World) (root : string)
    (components : list string) : bool :=
  existsb (fun n => is_file w root (firstn n components))
    (seq 1 (length components - 1)).

(** Why [open(path, "wb")] fails in the world as it is, if it does *)
Definition open_error (path : string) (w : World) : option exn :=
  let (root, components) := Pathlib.parse path in
  let quoted := "'" +:+ path +:+ "'" in
  if PyStr.contains_char "000" path
  then Some (Exn ValueError "embedded null byte")
  else if is_dir w root components
  then Some (Exn OSError ("[Errno 21] Is a directory: " +:+ quoted))
  else if is_dir w root (removelast components)
  then None
  else if through_file w root components
  then Some (Exn OSError ("[Errno 20] Not a directory: " +:+ quoted))
  else Some (Exn OSError
               ("[Errno 2] No such file or directory: " +:+ quoted)).

(** What writing [b] to [path] does: the error raised, if any, and the
    files afterwards. *)
Definition write_effect (path : string) (b : blob) (w : World)
    : option exn * gmap string blob :=
  match open_error path w with
  | Some e => (Some e, files w)
  | None =>
      match open_io E path with
      | Some msg => (Some (Exn OSError msg), files w)
      | None =>
          match write_io E path b with
          | Some (msg, partial) =>
              (Some (Exn OSError msg), <[path := partial]> (files w))
          | None => (None, <[path := b]> (files w))
          end
      end
  end.

(** [open(path, "wb")] followed by [write], or a library saving a file *)
Definition write_file (path : string) (b : blob) : M unit :=
  fun w =>
    let (error, after_write) := write_effect path b w in
    (match error with Some e => Raise e | None => Return tt end,
     W.set_files after_write w).

(** [Path.exists()] *)
Definition exists_ (path : string) : M bool :=
  fun w => (Return (bool_decide (is_Some (files w !! path))
                    || bool_decide (path ∈ dirs w)), w).

(** [Path.unlink(missing_ok)], for a path that names a regular file or
    nothing *)
Definition unlink (path : string) (missing_ok : bool) : M unit :=
  fun w =>
    match files w !! path with
    | Some _ => (Return tt, W.set_files (delete path (files w)) w)
    | None =>
        if missing_ok then (Return tt, w)
        else (Raise (Exn OSError ("No such file or directory: '" +:+ path +:+ "'")), w)
    end.

(** The entry name of [path] when it lies directly in directory [d]. *)
Definition entry_of (d path : string) : option string :=
  match PyStr.strip_prefix (d +:+ "/") path with
  | Some name =>
      if String.eqb name "" || PyStr.contains_char "/"%char name
      then None else Some name
  | None => None
  end.

(** [list(d.glob("*" + suffix))]: the entries of directory [d] whose
    name ends with [suffix]; nothing when [d] is not a directory. *)
Definition glob_suffix (d suffix : string) : M (list string) :=
  fun w =>
    let entries := map fst (map_to_list (files w)) ++ elements (dirs w) in
    let hit path :=
      match entry_of d path with
      | Some name => PyStr.ends_with suffix name
      | None => false
      end in
    (Return (if bool_decide (d ∈ dirs w) then List.filter hit entries else []),
     w).

(** *** The session *)

(** [Session.get(url, headers, params, timeout)] *)
Definition session_get (r : request) : M response :=
  fun w =>
    match transport E (length (requests w)) r with
    | HttpRaise e => (Raise e, W.add_request r w)
    | HttpResponse resp => (Return resp, W.add_request r w)
    end.

(** [response.raise_for_status()] *)
Definition raise_for_status (r : response) : M unit :=
  if (400 <=? status_code r) && (status_code r <? 600)
  then raise (Exn RequestException (http_error r))
  else ret tt.

(** *** Drawing *)

(** The generator's output from the current position on; its first
    word is drawn. *)
Definition next_draw : M N :=
  fun w => (Return (entropy E (draws w)), W.tick_draws w).

(** Further words are drawn. *)
Fixpoint skip (words : nat) : M unit :=
  match words with
  | O => ret tt
  | S more =>
      let* _ := next_draw in
      skip more
  end.

(** [random.random()]: 27 bits of one word and 26 of the next make a
    multiple of 2^-53 in [0, 1) *)
Definition random : M Q :=
  let* raw := next_draw in
  let* _ := skip 1 in
  let a := N.shiftr (word raw) 5 in
  let b := N.shiftr (word (after 1 raw)) 6 in
  ret (Z.of_N (a * 67108864 + b) # 2 ^ 53).

(** [random.uniform(a, b)] is [a + (b - a) * random()] *)
Definition uniform (a b : Q) : M Q :=
  let* u := random in
  ret (Float.add a (Float.mul (Float.sub b a) u)).

(** [_randbelow(n)] *)
Definition randbelow (n : N) : M N :=
  let* raw := next_draw in
  let (r, drawn) := below n raw in
  let* _ := skip (drawn - 1) in
  ret r.

(** [random.choice(seq)] on a list of objects *)
Definition choice {A} (seq : list A) : M A :=
  match seq with
  | [] => raise (Exn IndexError "Cannot choose from an empty sequence")
  | x :: _ =>
      let* r := randbelow (N.of_nat (length seq)) in
      ret (nth (N.to_nat r) seq x)
  end.

(** [random.choice(v)] on a Python value: [v[_randbelow(len(v))]] *)
Definition choice_value (v : pyval) : M pyval :=
  match v with
  | PList l => choice l
  | PStr s =>
      let* c := choice (PyStr.chars s) in
      ret (PStr c)
  | PDict d =>
      match d with
      | [] => raise (Exn IndexError "Cannot choose from an empty sequence")
      | _ :: _ =>
          let* r := randbelow (N.of_nat (length d)) in
          raise (Exn KeyError (pretty r))
      end
  | _ =>
      raise (Exn TypeError
               ("object of type '" +:+ Py.type_name v +:+ "' has no len()"))
  end.

End WithEnv.

End Sys.

(** ** class Config *)

Record Config : Type := {
  pexels_api_key : option string;
  youtube_client_secret : option string;
  youtube_client_id : option string;
  youtube_refresh_token : option string;
  default_hashtags : list string
}.

Module Config_.

Definition set (o : option string) : bool :=
  match o with
  | Some s => negb (String.eqb s "")
  | None => false
  end.

(** [Config._validate] *)
Definition _validate (self : Config) : M unit :=
  if forallb set [pexels_api_key self; youtube_client_id self;
                  youtube_client_secret self; youtube_refresh_token self]
  then ret tt
  else raise (Exn OSError "Missing required environment variables").

(** [Config.__init__] *)
Definition __init__ (E : Env) : M Config :=
  let self :=
    {| pexels_api_key := environ E !! "PEXELS_API_KEY";
       youtube_client_secret := environ E !! "YOUTUBE_CLIENT_SECRET";
       youtube_client_id := environ E !! "YOUTUBE_CLIENT_ID";
       youtube_refresh_token := environ E !! "YOUTUBE_REFRESH_TOKEN";
       default_hashtags := ["#Shorts"; "#Viral"; "#Trending"] |} in
  let* _ := _validate self in
  ret self.

End Config_.

(** ** class ContentDownloader *)

Module ContentDownloader.

Section WithEnv.
Context (E : Env) (config : Config).

(** [self.session.get(url, timeout=10)] *)
Definition download_request (url : pyval) : request :=
  {| req_url := url; req_headers := []; req_params := [];
     req_timeout := Some 10 |}.

(** The body of [for attempt in range(3)], over the attempts that
    remain, and the [raise] that follows the loop. *)
Fixpoint attempts (range : list Z) (url : pyval) (path : string)
    : M string :=
  match range with
  | [] =>
      raise (Exn ConnectionError
               ("Failed to download " +:+ Builtins.str E url
                +:+ " after 3 attempts"))
  | attempt :: rest =>
      try_except
        (let* response := Sys.session_get E (download_request url) in
         let* _ := Sys.raise_for_status response in
         let* _ := Sys.write_file E path (RawBytes (content response)) in
         ret path)
        is_RequestException
        (fun e =>
           let* _ :=
             logging.warning
               ("Download attempt " +:+ pretty (attempt + 1)
                +:+ " failed: " +:+ exn_str e) in
           attempts rest url path)
  end.

(** How the pass that has received [r] ends: the write decides. *)
Definition delivery (url : pyval) (path : string) (r : response)
    (w : World) : outcome string * World :=
  let (error, after_write) :=
    Sys.write_effect E path (RawBytes (content r)) w in
  (match error with Some e => Raise e | None => Return path end,
   W.set_files after_write (W.add_request (download_request url) w)).

(** What one pass through the [try] block makes of the transport's
    answer: the RequestException it catches, or the response it keeps. *)
Definition bad_status (r : response) : bool :=
  (400 <=? status_code r) && (status_code r <? 600).

Definition attempt_error (o : http_outcome) : option exn :=
  match o with
  | HttpRaise e => if is_RequestException e then Some e else None
  | HttpResponse r =>
      if bad_status r then Some (Exn RequestException (http_error r))
      else None
  end.

Definition attempt_success (o : http_outcome) : option response :=
  match o with
  | HttpRaise _ => None
  | HttpResponse r => if bad_status r then None else Some r
  end.

(** The warnings of the failed attempts [range], the first of which is
    the [n]-th GET of the session. *)
Fixpoint warning_lines (url : pyval) (n : nat) (range : list Z)
    : list (level * string) :=
  match range with
  | [] => []
  | attempt :: rest =>
      (WARNING,
       "Download attempt " +:+ pretty (attempt + 1) +:+ " failed: "
       +:+ match attempt_error (transport E n (download_request url)) with
           | Some e => exn_str e
           | None => ""
           end)
      :: warning_lines url (S n) rest
  end.

Definition _download_file (url : pyval) (filename : string) : M string :=
  let path := Sys.path_join (Sys.CONTENT_DIR E) filename in
  attempts [0; 1; 2] url path.

Definition search_params (query : string) (duration : Z)
    : list (string * pyval) :=
  [("query", PStr query);
   ("orientation", PStr "portrait");
   ("per_page", PInt 20);
   ("min_duration", PInt (duration - 2));
   ("max_duration", PInt (duration + 2))].

Definition search_request (query : string) (duration : Z) : request :=
  {| req_url := PStr "https://api.pexels.com/videos/search";
     req_headers := [("Authorization", pexels_api_key config)];
     req_params := search_params query duration;
     req_timeout := None |}.

(** Lines 98-99, for the candidate that was chosen *)
Definition fetch_candidate (video : pyval) : M string :=
  let* video_files := Builtins.getitem video "video_files" in
  let* first := Builtins.getitem_int video_files 0 in
  let* video_file := Builtins.getitem first "link" in
  let* id := Builtins.getitem video "id" in
  _download_file video_file ("pexels_" +:+ Builtins.str E id +:+ ".mp4").

Definition get_pexels_video (query : string) (duration : Z) : M string :=
  logged "Pexels video fetch failed"
    (let* response := Sys.session_get E (search_request query duration) in
     let* _ := Sys.raise_for_status response in
     let* body := lift (json_body response) in
     let* videos := Builtins.get body "videos" (PList []) in
     if negb (Py.truthy videos)
     then raise (Exn ValueError "No videos found matching criteria")
     else
       let* video := Sys.choice_value E videos in
       fetch_candidate video).

End WithEnv.

Record Downloader : Type := {
  downloader_config : Config;
  user_agent : string              (* the session's User-Agent header *)
}.

(** [ContentDownloader.__init__] *)
Definition __init__ (E : Env) : M Downloader :=
  let* config := Config_.__init__ E in
  ret {| downloader_config := config;
         user_agent := "Youtube Automation Machine/1.0" |}.

End ContentDownloader.

(** ** class VideoEditor *)

Module VideoEditor.

Section WithEnv.
Context (E : Env).

(** [self.font] *)
Definition font : string :=
  Sys.path_join (Sys.path_join (BASE_DIR E) "assets") "Roboto-Bold.ttf".

Definition VideoFileClip (path : string) : M Clip :=
  fun w => lift (decode_video E path (files w !! path)) w.

(** [clip.resize(height=h)] keeps the aspect ratio. *)
Definition resize_height (clip : Clip) (h : Q) : Clip :=
  {| clip_w := (clip_w clip * h / clip_h clip)%Q;
     clip_h := h;
     clip_duration := clip_duration clip;
     clip_overlays := clip_overlays clip;
     clip_audio := clip_audio clip |}.

Definition crop (clip : Clip) (x1 y1 x2 y2 : Q) : Clip :=
  {| clip_w := (x2 - x1)%Q;
     clip_h := (y2 - y1)%Q;
     clip_duration := clip_duration clip;
     clip_overlays := clip_overlays clip;
     clip_audio := clip_audio clip |}.

(** [CompositeVideoClip([clip, text_clip])] *)
Definition composite (clip : Clip) (t : TextOverlay) : Clip :=
  {| clip_w := clip_w clip;
     clip_h := clip_h clip;
     clip_duration := clip_duration clip;
     clip_overlays := clip_overlays clip ++ [t];
     clip_audio := clip_audio clip |}.

Definition set_audio (clip : Clip) (a : AudioTrack) : Clip :=
  {| clip_w := clip_w clip;
     clip_h := clip_h clip;
     clip_duration := clip_duration clip;
     clip_overlays := clip_overlays clip;
     clip_audio := Some a |}.

Definition profile : EncodeProfile :=
  {| codec := "libx264"; audio_codec := "aac"; threads := 4;
     preset := "fast" |}.

(** [final_clip.write_videofile(...)]: ffmpeg writes the file; when it
    cannot, the writer answers the IOError of its pipe with an IOError
    of its own wording. *)
Definition write_videofile (clip : Clip) (output : string) : M unit :=
  let* _ := check (encode_video E clip profile) in
  try_except (Sys.write_file E output (EncodedVideo clip profile))
    is_OSError
    (fun e => raise (Exn OSError (writer_error E output e))).

(** Lines 131-134: the background music step. *)
Definition add_music (final_clip : Clip) : M Clip :=
  let music_dir := Sys.path_join (Sys.CONTENT_DIR E) "music" in
  let* present := Sys.exists_ music_dir in
  if present then
    let* tracks := Sys.glob_suffix music_dir ".mp3" in
    let* music := Sys.choice E tracks in
    let* _ := check (decode_audio E music) in
    let audio_clip :=
      {| audio_source := music; audio_volume := 3 # 10 |} in
    ret (set_audio final_clip audio_clip)
  else ret final_clip.

Definition process_video (input_path output_path text : string)
    : M string :=
  logged "Video processing failed"
    (let* clip := VideoFileClip input_path in
     let clip := resize_height clip 1920 in
     let clip :=
       crop clip (clip_w clip / 2 - 540) 0 (clip_w clip / 2 + 540) 1920 in
     let text_clip :=
       {| overlay_text := text; overlay_fontsize := 60;
          overlay_color := "white"; overlay_font := font;
          overlay_stroke_color := "black"; overlay_stroke_width := 2;
          overlay_position := "center";
          overlay_duration := clip_duration clip |} in
     let* _ := check (render_text E text_clip) in
     let final_clip := composite clip text_clip in
     let* final_clip := add_music final_clip in
     let* _ := write_videofile final_clip output_path in
     ret output_path).

End WithEnv.

Record Editor : Type := { editor_config : Config; editor_font : string }.

(** [VideoEditor.__init__] *)
Definition __init__ (E : Env) : M Editor :=
  let* config := Config_.__init__ E in
  ret {| editor_config := config; editor_font := font E |}.

End VideoEditor.

(** ** class ThumbnailGenerator *)

Module ThumbnailGenerator.

Section WithEnv.
Context (E : Env).

Definition text_color : rgb := (255, 255, 255).
Definition stroke_color : rgb := (0, 0, 0).

(** [draw.text(xy, text, font=self.font, fill=fill)] *)
Definition draw_text (img : Image) (xy : Z * Z) (text : string)
    (fill : rgb) : Image :=
  {| img_frame := img_frame img;
     img_timestamp := img_timestamp img;
     img_painted :=
       img_painted img
       ++ [{| draw_xy := xy; draw_string := text; draw_fill := fill |}] |}.

(** The stroke loop, lines 175-181 *)
Fixpoint draw_stroke (img : Image) (position : Z * Z) (text : string)
    (offsets : list (Z * Z)) : Image :=
  match offsets with
  | [] => img
  | offset :: rest =>
      draw_stroke
        (draw_text img
           (fst position + fst offset, snd position + snd offset)
           text stroke_color)
        position text rest
  end.

(** Line 161 *)
Definition sample_timestamp (clip : Clip) : M Q :=
  Sys.uniform E 1 (Float.sub (clip_duration clip) 1).

Definition generate (video_path output_path text : string) : M string :=
  logged "Thumbnail generation failed"
    (let* clip := VideoEditor.VideoFileClip E video_path in
     let* timestamp := sample_timestamp clip in
     let* frame := lift (get_frame E clip timestamp) in
     let img :=
       {| img_frame := frame; img_timestamp := timestamp;
          img_painted := [] |} in
     let '(x0, y0, x1, y1) := textbbox E text in
     let text_width := x1 - x0 in
     let text_height := y1 - y0 in
     let position :=
       ((frame_width frame - text_width) / 2,
        (frame_height frame - text_height) / 2) in
     let img :=
       draw_stroke img position text [(-2, -2); (-2, 2); (2, -2); (2, 2)] in
     let img := draw_text img position text text_color in
     let* _ := check (save_image E output_path img) in
     let* _ := Sys.write_file E output_path (SavedImage img) in
     ret output_path).

End WithEnv.

Record Thumbnailer : Type := {
  self_font : string * Z;
  self_text_color : rgb;
  self_stroke_color : rgb
}.

(** [ThumbnailGenerator.__init__] *)
Definition __init__ (L : Libs) (E : Env) : M Thumbnailer :=
  let path := VideoEditor.font E in
  let* _ := check (truetype L path 100) in
  ret {| self_font := (path, 100);
         self_text_color := text_color;
         self_stroke_color := stroke_color |}.

End ThumbnailGenerator.

(** ** class YouTubeUploader *)

Module YouTubeUploader.

Section WithEnv.
Context (E : Env) (config : Config).

(** [niche.replace(" ", "")] *)
Definition replace_spaces (v : pyval) : M string :=
  match v with
  | PStr s => ret (PyStr.replace_char " "%char "" s)
  | _ =>
      raise (Exn AttributeError
               ("'" +:+ Py.type_name v
                +:+ "' object has no attribute 'replace'"))
  end.

(** [sep.join(parts)] on Python values: every part must be a [str]. *)
Fixpoint join_values (n : nat) (parts : list pyval) : M (list string) :=
  match parts with
  | [] => ret []
  | PStr s :: rest =>
      let* tail := join_values (S n) rest in
      ret (s :: tail)
  | v :: _ =>
      raise (Exn TypeError
               ("sequence item " +:+ pretty n
                +:+ ": expected str instance, " +:+ Py.type_name v
                +:+ " found"))
  end.

Definition _build_description (metadata : pyval) : M string :=
  let* description := Builtins.get metadata "description" (PStr "") in
  let hashtags := PyStr.join " " (default_hashtags config) in
  let* niche := Builtins.get metadata "niche" (PStr "content") in
  let* stripped := replace_spaces niche in
  let* parts :=
    join_values 0
      [description; PStr ""; PStr hashtags; PStr ("#" +:+ stripped)] in
  ret (PyStr.join PyStr.nl parts).

(** The request body of lines 212-223 *)
Definition build_body (metadata : pyval)
    : M (list (string * pyval)) :=
  let* title := Builtins.getitem metadata "title" in
  let* description := _build_description metadata in
  let* tags := Builtins.get metadata "tags" (PList []) in
  ret [("snippet",
        PDict [("title", title);
               ("description", PStr description);
               ("categoryId", PStr "24");
               ("tags", tags)]);
       ("status",
        PDict [("privacyStatus", PStr "public");
               ("selfDeclaredMadeForKids", PBool false)])].

Definition MediaFileUpload (path : string) : M string :=
  fun w =>
    (let* _ := check (open_media E path (files w !! path)) in
     ret path) w.

Definition issue (c : api_call) : M unit :=
  fun w => (Return tt, W.add_api_call c w).

(** [request.next_chunk()] *)
Definition request_next_chunk (request : api_call)
    : M (option Q * pyval) :=
  fun w => lift (next_chunk E (chunks w) request) (W.tick_chunks w).

(** [int(status.progress() * 100)]: the product of two doubles,
    truncated.  The progress is the share of the file that has been
    sent, between 0 and 1, as the double nearest to what the provider
    reports. *)
Definition percent (progress : Q) : Z :=
  Float.int (Float.mul (Float.round progress) 100).

(** An answer of [next_chunk] that ends the loop of [_execute_upload]:
    an exception, or a truthy response. *)
Definition terminal (answer : exn + (option Q * pyval)) : bool :=
  match answer with
  | inl _ => true
  | inr (_, response) => Py.truthy response
  end.

(** [while not response], with [fuel] bounding the iterations *)
Fixpoint _execute_upload (fuel : nat) (request : api_call) : M pyval :=
  match fuel with
  | O => out_of_fuel
  | S fuel' =>
      let* (status, response) := request_next_chunk request in
      let* _ :=
        match status with
        | Some progress =>
            logging.info
              ("Upload progress: " +:+ pretty (percent progress) +:+ "%")
        | None => ret tt
        end in
      if Py.truthy response then ret response
      else _execute_upload fuel' request
  end.

Definition upload_video (fuel : nat) (video_path : string)
    (metadata : pyval) (thumbnail_path : option string) : M pyval :=
  logged "Upload failed"
    (let* body := build_body metadata in
     let* media := MediaFileUpload video_path in
     let request :=
       VideosInsert (PyStr.join "," (Py.keys body)) (PDict body) media in
     let* _ := issue request in
     let* response := _execute_upload fuel request in
     let* _ :=
       match thumbnail_path with
       | Some thumbnail =>
           let* videoId := Builtins.getitem response "id" in
           let* media_body := MediaFileUpload thumbnail in
           let call := ThumbnailsSet videoId media_body in
           let* _ := issue call in
           check (thumbnails_set E call)
       | None => ret tt
       end in
     Builtins.getitem response "id").

End WithEnv.

Record Uploader : Type := {
  uploader_config : Config;
  service : Credentials            (* the client built on these credentials *)
}.

(** [YouTubeUploader._authenticate] *)
Definition _authenticate (L : Libs) (config : Config) : M Credentials :=
  let credentials :=
    {| token := None;
       refresh_token := youtube_refresh_token config;
       token_uri := "https://oauth2.googleapis.com/token";
       client_id := youtube_client_id config;
       client_secret := youtube_client_secret config |} in
  let* _ := logging.records (build_log L "youtube" "v3" credentials) in
  let* _ := check (build_service L "youtube" "v3" credentials) in
  ret credentials.

(** [YouTubeUploader.__init__] *)
Definition __init__ (L : Libs) (E : Env) : M Uploader :=
  let* config := Config_.__init__ E in
  let* service := _authenticate L config in
  ret {| uploader_config := config; service := service |}.

End YouTubeUploader.

(** ** class ContentScheduler

    The four components each build their own [Config] from the same
    environment; [config] stands for it.  [fuel] bounds the iterations of
    the upload loop. *)

Module ContentScheduler.

Section WithEnv.
Context (E : Env) (config : Config).

(** Lines 300-301: [for f in paths: f.unlink(missing_ok=True)] *)
Fixpoint cleanup (paths : list string) : M unit :=
  match paths with
  | [] => ret tt
  | f :: rest =>
      let* _ := Sys.unlink f true in
      cleanup rest
  end.

(** Lines 288-293 *)
Definition build_metadata (niche : string) : pyval :=
  PDict
    [("title", PStr ("5 Second "
                     +:+ PyStr.capitalize (capitalize_tables E) niche
                     +:+ " Hacks! ðŸš€"));
     ("description", PStr ("Amazing " +:+ niche
                           +:+ " tips you need to try!"));
     ("tags", PList [PStr niche; PStr "shorts"; PStr "viral"]);
     ("niche", PStr niche)].

Definition run_pipeline (fuel : nat) (niche query : string) : M pyval :=
  logged "Pipeline failed"
    (let* video_path :=
       ContentDownloader.get_pexels_video E config query 15 in
     let* edited_path :=
       VideoEditor.process_video E video_path
         (Sys.path_join (Sys.TEMP_DIR E) "processed.mp4")
         "5 SECONDS HACKS! ðŸš€" in
     let* thumbnail_path :=
       ThumbnailGenerator.generate E edited_path
         (Sys.path_join (Sys.TEMP_DIR E) "thumbnail.jpg")
         "WATCH NOW!" in
     let metadata := build_metadata niche in
     let* video_id :=
       YouTubeUploader.upload_video E config fuel edited_path metadata
         (Some thumbnail_path) in
     let* _ :=
       logging.info
         ("Successfully uploaded video ID: " +:+ Builtins.str E video_id) in
     let* _ := cleanup [video_path; edited_path; thumbnail_path] in
     ret video_id).

End WithEnv.

Record Components : Type := {
  downloader : ContentDownloader.Downloader;
  editor : VideoEditor.Editor;
  thumbnailer : ThumbnailGenerator.Thumbnailer;
  uploader : YouTubeUploader.Uploader;
  scheduler : Scheduler
}.

(** [ContentScheduler.__init__] *)
Definition __init__ (L : Libs) (E : Env) : M Components :=
  let* downloader := ContentDownloader.__init__ E in
  let* editor := VideoEditor.__init__ E in
  let* thumbnailer := ThumbnailGenerator.__init__ L E in
  let* uploader := YouTubeUploader.__init__ L E in
  ret {| downloader := downloader; editor := editor;
         thumbnailer := thumbnailer; uploader := uploader;
         scheduler := {| jobs := []; running := false |} |}.

(** [obj[key]] without the monad *)
Definition subscript (obj : pyval) (key : string) : exn + pyval :=
  match obj with
  | PDict d =>
      match Py.assoc key d with
      | Some v => inr v
      | None => inl (Exn KeyError ("'" +:+ key +:+ "'"))
      end
  | PList _ =>
      inl (Exn TypeError "list indices must be integers or slices, not str")
  | PStr _ =>
      inl (Exn TypeError "string indices must be integers, not 'str'")
  | _ =>
      inl (Exn TypeError
             ("'" +:+ Py.type_name obj +:+ "' object is not subscriptable"))
  end.

(** The arguments of the [add_job] call of lines 311-316, evaluated in
    source order: the schedule, which [**] requires to be a mapping,
    then the niche and the query. *)
Definition job_of (niche_config : pyval) : exn + Job :=
  match subscript niche_config "schedule" with
  | inl e => inl e
  | inr (PDict fields) =>
      match subscript niche_config "niche" with
      | inl e => inl e
      | inr niche =>
          match subscript niche_config "query" with
          | inl e => inl e
          | inr query =>
              inr {| job_trigger := "cron"; job_fields := fields;
                     job_args := [niche; query] |}
          end
      end
  | inr schedule =>
      inl (Exn TypeError
             ("apscheduler.schedulers.base.BaseScheduler.add_job() "
              +:+ "argument after ** must be a mapping, not "
              +:+ Py.type_name schedule))
  end.

(** The loop of lines 310-316 *)
Fixpoint add_jobs (L : Libs) (niches : list pyval) (s : Scheduler)
    : option exn * Scheduler :=
  match niches with
  | [] => (None, s)
  | niche_config :: rest =>
      match job_of niche_config with
      | inl e => (Some e, s)
      | inr job =>
          match add_job L job with
          | Some e => (Some e, s)
          | None =>
              add_jobs L rest
                {| jobs := jobs s ++ [job]; running := running s |}
          end
      end
  end.

(** [scheduler.start()] *)
Definition start (s : Scheduler) : option exn * Scheduler :=
  if running s
  then (Some (Exn LibraryError "Scheduler is already running"), s)
  else (None, {| jobs := jobs s; running := true |}).

(** [scheduler.shutdown()] *)
Definition shutdown (s : Scheduler) : option exn * Scheduler :=
  if running s
  then (None, {| jobs := jobs s; running := false |})
  else (Some (Exn LibraryError "Scheduler is not running"), s).

Definition schedule_daily_uploads (L : Libs) (niches : list pyval)
    (s : Scheduler) : option exn * Scheduler :=
  match add_jobs L niches s with
  | (Some e, s') => (Some e, s')
  | (None, s') => start s'
  end.

(** The records that the scheduler library writes meanwhile: those of
    each [add_job] call that is reached, and those of [start] when the
    loop has come to its end and the scheduler can be started. *)
Fixpoint add_jobs_log (L : Libs) (niches : list pyval) (s : Scheduler)
    : list (level * string) :=
  match niches with
  | [] => []
  | niche_config :: rest =>
      match job_of niche_config with
      | inl _ => []
      | inr job =>
          add_job_log L s job
          ++ match add_job L job with
             | Some _ => []
             | None =>
                 add_jobs_log L rest
                   {| jobs := jobs s ++ [job]; running := running s |}
             end
      end
  end.

Definition schedule_log (L : Libs) (niches : list pyval) (s : Scheduler)
    : list (level * string) :=
  add_jobs_log L niches s
  ++ match add_jobs L niches s with
     | (Some _, _) => []
     | (None, s') => if running s' then [] else start_log L s'
     end.

End ContentScheduler.

(** ** The script (lines 320-341) *)

Module Script.

Definition niches : list pyval :=
  [PDict [("niche", PStr "fitness");
          ("query", PStr "exercise motivation");
          ("schedule", PDict [("hour", PInt 17); ("minute", PInt 0)])];
   PDict [("niche", PStr "cooking");
          ("query", PStr "kitchen hacks");
          ("schedule", PDict [("hour", PInt 9); ("minute", PInt 30)])]].

(** The names bound in the module when the loop is reached: the imports
    of lines 6-19, the assignments and the classes.  (No builtin is
    called [time].) *)
Definition module_names : list string :=
  ["os"; "random"; "logging"; "datetime"; "timedelta"; "Path"; "Optional";
   "Dict"; "List"; "requests"; "VideoFileClip"; "TextClip";
   "CompositeVideoClip"; "AudioFileClip"; "Image"; "ImageDraw"; "ImageFont";
   "build"; "MediaFileUpload"; "Credentials"; "load_dotenv";
   "BackgroundScheduler"; "BASE_DIR"; "CONTENT_DIR"; "TEMP_DIR"; "LOG_DIR";
   "d"; "Config"; "ContentDownloader"; "VideoEditor"; "ThumbnailGenerator";
   "YouTubeUploader"; "ContentScheduler"; "niches"; "scheduler"].

Definition bound (name : string) : bool :=
  existsb (String.eqb name) module_names.

(** How the script ends. *)
Inductive exit : Type :=
| StartupFailed (e : exn)          (* ContentScheduler() raised *)
| SchedulingFailed (e : exn)       (* schedule_daily_uploads raised *)
| NameError (name : string)        (* a name of the loop is not bound *)
| ShutDown (e : option exn).       (* KeyboardInterrupt, then shutdown() *)

Definition main (L : Libs) (E : Env) (w : World)
    : exit * World * Scheduler :=
  match ContentScheduler.__init__ L E w with
  | (Return self, w0) =>
      let s0 := ContentScheduler.scheduler self in
      let w' := W.add_logs (ContentScheduler.schedule_log L niches s0) w0 in
      match ContentScheduler.schedule_daily_uploads L niches s0 with
      | (Some e, s) => (SchedulingFailed e, w', s)
      | (None, s) =>
          if bound "time"
          then let (e, s') := ContentScheduler.shutdown s in
               (ShutDown e, w', s')
          else (NameError "time", w', s)
      end
  | (Raise e, w') => (StartupFailed e, w', {| jobs := []; running := false |})
  | (OutOfFuel, w') =>
      (StartupFailed (Exn LibraryError "unreachable"), w',
       {| jobs := []; running := false |})
  end.

End Script.

(** ** The runs of the pipeline, stage by stage *)

Section Runs.
Context (E : Env) (config : Config) (fuel : nat) (niche query : string).

#[local] Abbreviation processed :=
  (Sys.path_join (Sys.TEMP_DIR E) "processed.mp4").
#[local] Abbreviation thumbnail :=
  (Sys.path_join (Sys.TEMP_DIR E) "thumbnail.jpg").
#[local] Abbreviation failure e :=
  (ERROR, "Pipeline failed: " +:+ exn_str e).

Inductive PipelineRun (w : World) : outcome pyval -> World -> Prop :=
| DownloadFailed e w1 :
    ContentDownloader.get_pexels_video E config query 15 w = (Raise e, w1) ->
    PipelineRun w (Raise e) (W.add_log (failure e) w1)
| ProcessingFailed video_path w1 e w2 :
    ContentDownloader.get_pexels_video E config query 15 w
      = (Return video_path, w1) ->
    VideoEditor.process_video E video_path processed "5 SECONDS HACKS! ðŸš€" w1
      = (Raise e, w2) ->
    PipelineRun w (Raise e) (W.add_log (failure e) w2)
| ThumbnailFailed video_path w1 edited_path w2 e w3 :
    ContentDownloader.get_pexels_video E config query 15 w
      = (Return video_path, w1) ->
    VideoEditor.process_video E video_path processed "5 SECONDS HACKS! ðŸš€" w1
      = (Return edited_path, w2) ->
    ThumbnailGenerator.generate E edited_path thumbnail "WATCH NOW!" w2
      = (Raise e, w3) ->
    PipelineRun w (Raise e) (W.add_log (failure e) w3)
| UploadFailed video_path w1 edited_path w2 thumbnail_path w3 e w4 :
    ContentDownloader.get_pexels_video E config query 15 w
      = (Return video_path, w1) ->
    VideoEditor.process_video E video_path processed "5 SECONDS HACKS! ðŸš€" w1
      = (Return edited_path, w2) ->
    ThumbnailGenerator.generate E edited_path thumbnail "WATCH NOW!" w2
      = (Return thumbnail_path, w3) ->
    YouTubeUploader.upload_video E config fuel edited_path
      (ContentScheduler.build_metadata E niche) (Some thumbnail_path) w3
      = (Raise e, w4) ->
    PipelineRun w (Raise e) (W.add_log (failure e) w4)
| UploadUnfinished video_path w1 edited_path w2 thumbnail_path w3 w4 :
    ContentDownloader.get_pexels_video E config query 15 w
      = (Return video_path, w1) ->
    VideoEditor.process_video E video_path processed "5 SECONDS HACKS! ðŸš€" w1
      = (Return edited_path, w2) ->
    ThumbnailGenerator.generate E edited_path thumbnail "WATCH NOW!" w2
      = (Return thumbnail_path, w3) ->
    YouTubeUploader.upload_video E config fuel edited_path
      (ContentScheduler.build_metadata E niche) (Some thumbnail_path) w3
      = (OutOfFuel, w4) ->
    PipelineRun w OutOfFuel w4
| Completed video_path w1 edited_path w2 thumbnail_path w3 video_id w4 w5 :
    ContentDownloader.get_pexels_video E config query 15 w
      = (Return video_path, w1) ->
    VideoEditor.process_video E video_path processed "5 SECONDS HACKS! ðŸš€" w1
      = (Return edited_path, w2) ->
    ThumbnailGenerator.generate E edited_path thumbnail "WATCH NOW!" w2
      = (Return thumbnail_path, w3) ->
    YouTubeUploader.upload_video E config fuel edited_path
      (ContentScheduler.build_metadata E niche) (Some thumbnail_path) w3
      = (Return video_id, w4) ->
    ContentScheduler.cleanup [video_path; edited_path; thumbnail_path]
      (W.add_log
         (INFO,
          "Successfully uploaded video ID: " +:+ Builtins.str E video_id) w4)
      = (Return tt, w5) ->
    PipelineRun w (Return video_id) w5.

End Runs.

(** ** Readings of candidates and of upload answers *)

(** The link and the id that lines 98-99 read from a candidate: present
    exactly when the four subscripts succeed. *)
Definition candidate_parts (video : pyval) : option (pyval * pyval) :=
  match video with
  | PDict v =>
      match Py.assoc "video_files" v with
      | Some (PList (PDict f :: _)) =>
          match Py.assoc "link" f, Py.assoc "id" v with
          | Some link, Some id => Some (link, id)
          | _, _ => None
          end
      | _ => None
      end
  | _ => None
  end.

(** The box that [draw.text(position, text)] paints: the box that the
    text has at the origin, moved to [position]. *)
Definition painted_box (position : Z * Z) (bbox : Z * Z * Z * Z)
    : Z * Z * Z * Z :=
  let '(x0, y0, x1, y1) := bbox in
  (fst position + x0, snd position + y0,
   fst position + x1, snd position + y1).

(** No GET was issued between [w] and [w']. *)
Definition same_requests (w w' : World) : Prop :=
  requests w' = requests w.

(** Between [w] and [w'] at most three GETs were issued, all of them the
    download of one url. *)
Definition download_budget (w w' : World) : Prop :=
  exists url k,
    (k <= 3)%nat
    /\ requests w' =
         requests w ++ repeat (ContentDownloader.download_request url) k.

Definition within_budget {A} (m : M A) : Prop :=
  forall w, download_budget w (snd (m w)).


(** The job that a well-formed niche description stands for: a dict
    whose "schedule" is a dict and which has a "niche" and a "query". *)
Definition describes (niche_config : pyval) (job : Job) : Prop :=
  exists d fields niche query,
    niche_config = PDict d
    /\ Py.assoc "schedule" d = Some (PDict fields)
    /\ Py.assoc "niche" d = Some niche
    /\ Py.assoc "query" d = Some query
    /\ job = {| job_trigger := "cron"; job_fields := fields;
                job_args := [niche; query] |}.

(** The library registers the job of this description. *)
Definition accepted (L : Libs) (niche_config : pyval) (job : Job) : Prop :=
  describes niche_config job /\ add_job L job = None.

(** The four settings that [Config._validate] tests. *)
Definition configured (E : Env) : bool :=
  forallb Config_.set
    [environ E !! "PEXELS_API_KEY"; environ E !! "YOUTUBE_CLIENT_ID";
     environ E !! "YOUTUBE_CLIENT_SECRET";
     environ E !! "YOUTUBE_REFRESH_TOKEN"].

Definition config_of (E : Env) : Config :=
  {| pexels_api_key := environ E !! "PEXELS_API_KEY";
     youtube_client_secret := environ E !! "YOUTUBE_CLIENT_SECRET";
     youtube_client_id := environ E !! "YOUTUBE_CLIENT_ID";
     youtube_refresh_token := environ E !! "YOUTUBE_REFRESH_TOKEN";
     default_hashtags := ["#Shorts"; "#Viral"; "#Trending"] |}.

Definition credentials_of (E : Env) : Credentials :=
  {| token := None;
     refresh_token := environ E !! "YOUTUBE_REFRESH_TOKEN";
     token_uri := "https://oauth2.googleapis.com/token";
     client_id := environ E !! "YOUTUBE_CLIENT_ID";
     client_secret := environ E !! "YOUTUBE_CLIENT_SECRET" |}.

(** What [ContentScheduler()] builds when nothing fails. *)
Definition components_of (E : Env) : ContentScheduler.Components :=
  {| ContentScheduler.downloader :=
       {| ContentDownloader.downloader_config := config_of E;
          ContentDownloader.user_agent := "Youtube Automation Machine/1.0" |};
     ContentScheduler.editor :=
       {| VideoEditor.editor_config := config_of E;
          VideoEditor.editor_font := VideoEditor.font E |};
     ContentScheduler.thumbnailer :=
       {| ThumbnailGenerator.self_font := (VideoEditor.font E, 100);
          ThumbnailGenerator.self_text_color := ThumbnailGenerator.text_color;
          ThumbnailGenerator.self_stroke_color :=
            ThumbnailGenerator.stroke_color |};
     ContentScheduler.uploader :=
       {| YouTubeUploader.uploader_config := config_of E;
          YouTubeUploader.service := credentials_of E |};
     ContentScheduler.scheduler := {| jobs := []; running := false |} |}.

Definition daily (hour minute : Z) (niche query : string) : Job :=
  {| job_trigger := "cron";
     job_fields := [("hour", PInt hour); ("minute", PInt minute)];
     job_args := [PStr niche; PStr query] |}.

(** ** A concrete installation, for running the model *)

Module Demo.

Definition link : string :=
  "https://videos.pexels.com/video-files/857195/857195-hd.mp4".

Definition candidate (id : Z) (url : string) : pyval :=
  PDict [("id", PInt id);
         ("video_files", PList [PDict [("link", PStr url)]])].

Definition ok (body : string) (json : exn + pyval) : http_outcome :=
  HttpResponse
    {| status_code := 200; http_error := ""; content := body;
       json_body := json |}.

Definition not_json : exn + pyval :=
  inl (Exn ValueError "Expecting value: line 1 column 1 (char 0)").

Definition found (videos : list pyval) : http_outcome :=
  ok "" (inr (PDict [("videos", PList videos)])).

Definition timeout : http_outcome :=
  HttpRaise (Exn RequestException "Read timed out. (read timeout=10)").

Definition unavailable : http_outcome :=
  HttpResponse
    {| status_code := 503;
       http_error := "503 Server Error: Service Unavailable";
       content := ""; json_body := not_json |}.

(** A transport that answers the n-th GET with the n-th scripted outcome. *)
Definition scripted (answers : list http_outcome) (n : nat) (_ : request)
    : http_outcome :=
  nth n answers timeout.

Definition source (duration : Q) : Clip :=
  {| clip_w := 1080; clip_h := 1920; clip_duration := duration;
     clip_overlays := []; clip_audio := None |}.

Definition env (answers : list http_outcome) (raw : N) (duration : Q)
    (chunk : nat -> exn + (option Q * pyval)) : Env :=
  {| BASE_DIR := "/srv/machine";
     environ :=
       <["PEXELS_API_KEY" := "px-key"]>
         (<["YOUTUBE_CLIENT_ID" := "client"]>
            (<["YOUTUBE_CLIENT_SECRET" := "secret"]>
               (<["YOUTUBE_REFRESH_TOKEN" := "refresh"]> ∅)));
     transport := scripted answers;
     entropy := fun _ => raw;
     container_repr := fun _ => "[...]";
     capitalize_tables := fun s => s;
     open_io := fun _ => None;
     write_io := fun _ _ => None;
     decode_video := fun path b =>
       match b with
       | Some _ => inr (source duration)
       | None => inl (Exn OSError ("MoviePy error: the file " +:+ path
                                   +:+ " could not be found!"))
       end;
     render_text := fun _ => None;
     decode_audio := fun _ => None;
     encode_video := fun _ _ => None;
     writer_error := fun path e =>
       exn_str e
       +:+ " MoviePy error: FFMPEG encountered the following error "
       +:+ "while writing file " +:+ path;
     get_frame := fun _ _ => inr {| frame_width := 1080; frame_height := 1920 |};
     textbbox := fun _ => (0, 20, 600, 120);
     save_image := fun _ _ => None;
     open_media := fun path b =>
       match b with
       | Some _ => None
       | None => Some (Exn OSError ("No such file or directory: '" +:+ path
                                    +:+ "'"))
       end;
     next_chunk := fun n _ => chunk n;
     thumbnails_set := fun _ => None |}.

Definition config : Config :=
  {| pexels_api_key := Some "px-key";
     youtube_client_secret := Some "secret";
     youtube_client_id := Some "client";
     youtube_refresh_token := Some "refresh";
     default_hashtags := ["#Shorts"; "#Viral"; "#Trending"] |}.

(** The installation directory with the directories made at import
    time, no file yet, an empty log. *)
Definition world : World :=
  {| files := ∅;
     dirs := {["/srv"; "/srv/machine"; "/srv/machine/content";
               "/srv/machine/temp"; "/srv/machine/logs"]};
     log := []; requests := []; draws := 0%nat; api_calls := [];
     chunks := 0%nat |}.

(** The same with a [music] directory holding the given entries. *)
Definition with_music (tracks : list string) : World :=
  {| files :=
       list_to_map
         (map (fun name =>
                 ("/srv/machine/content/music/" +:+ name, RawBytes ""))
            tracks);
     dirs := {["/srv/machine/content/music"]} ∪ dirs world;
     log := []; requests := []; draws := 0%nat; api_calls := [];
     chunks := 0%nat |}.

(** A provider that finishes the upload in one chunk with [answer]. *)
Definition one_chunk (answer : pyval) (_ : nat)
    : exn + (option Q * pyval) :=
  inr (None, answer).

Definition created (id : string) : pyval :=
  PDict [("kind", PStr "youtube#video"); ("id", PStr id)].

(** Libraries that load the font, build the client and take every job,
    logging as they do. *)
Definition libs : Libs :=
  {| truetype := fun _ _ => None;
     build_service := fun _ _ _ => None;
     add_job := fun _ => None;
     build_log := fun _ _ _ =>
       [(INFO, "file_cache is only supported with oauth2client<4.0.0")];
     add_job_log := fun s _ =>
       if running s
       then [(INFO, "Added job run_pipeline to job store default")]
       else [(INFO, "Adding job tentatively")];
     start_log := fun s =>
       map (fun _ => (INFO, "Added job run_pipeline to job store default"))
         (jobs s)
       ++ [(INFO, "Scheduler started")] |}.

(** The same without the font file. *)
Definition no_font : Libs :=
  {| truetype := fun _ _ => Some (Exn OSError "cannot open resource");
     build_service := build_service libs;
     add_job := add_job libs;
     build_log := build_log libs;
     add_job_log := add_job_log libs;
     start_log := start_log libs |}.

(** The same with a client that cannot be built. *)
Definition no_client : Libs :=
  {| truetype := truetype libs;
     build_service := fun _ _ _ =>
       Some (Exn LibraryError "name: youtube  version: v3");
     add_job := add_job libs;
     build_log := build_log libs;
     add_job_log := add_job_log libs;
     start_log := start_log libs |}.

(** An installation whose environment sets nothing. *)
Definition bare : Env :=
  {| BASE_DIR := "/srv/machine";
     environ := ∅;
     transport := scripted [];
     entropy := fun _ => 0%N;
     container_repr := fun _ => "[...]";
     capitalize_tables := fun s => s;
     open_io := fun _ => None;
     write_io := fun _ _ => None;
     decode_video := fun _ _ => inr (source 10);
     render_text := fun _ => None;
     decode_audio := fun _ => None;
     encode_video := fun _ _ => None;
     writer_error := fun path e =>
       exn_str e
       +:+ " MoviePy error: FFMPEG encountered the following error "
       +:+ "while writing file " +:+ path;
     get_frame := fun _ _ => inr {| frame_width := 1080; frame_height := 1920 |};
     textbbox := fun _ => (0, 20, 600, 120);
     save_image := fun _ _ => None;
     open_media := fun _ _ => None;
     next_chunk := fun _ _ => inr (None, PNone);
     thumbnails_set := fun _ => None |}.

End Demo.


(** * Properties *)

(** ** Doubles *)

Section Doubles.
#[local] Open Scope Q_scope.

Lemma rne_floor (q : Q) : (Qfloor q <= Float.rne q <= Qfloor q + 1)%Z.
Proof.
  unfold Float.rne. destruct (q - inject_Z (Qfloor q) ?= 1 # 2);
    [destruct (Z.even _) | |]; lia.
Qed.

Lemma rne_le (q : Q) (n : Z) : q <= inject_Z n -> (Float.rne q <= n)%Z.
Proof.
  intros Hq. unfold Float.rne.
  assert (Hf : (Qfloor q <= n)%Z).
  { rewrite <- (Qfloor_Z n). apply Qfloor_resp_le, Hq. }
  assert (Hstep : inject_Z (Qfloor q) < q -> (Qfloor q + 1 <= n)%Z).
  { intros Hlt. assert (Hz : inject_Z (Qfloor q) < inject_Z n)
      by (eapply Qlt_le_trans; eassumption).
    rewrite <- Zlt_Qlt in Hz. lia. }
  destruct (q - inject_Z (Qfloor q) ?= 1 # 2) eqn:Hc.
  - destruct (Z.even _); [exact Hf |]. apply Hstep.
    apply Qeq_alt in Hc. lra.
  - exact Hf.
  - apply Hstep. apply Qgt_alt in Hc. lra.
Qed.

Lemma rne_ge (q : Q) (n : Z) : inject_Z n <= q -> (n <= Float.rne q)%Z.
Proof.
  intros Hq. pose proof (rne_floor q) as [Hlo _].
  assert (Hf : (n <= Qfloor q)%Z).
  { rewrite <- (Qfloor_Z n). apply Qfloor_resp_le, Hq. }
  lia.
Qed.

Lemma rne_Z (q : Q) (n : Z) : q == inject_Z n -> Float.rne q = n.
Proof.
  intros Hq. apply Z.le_antisymm.
  - apply rne_le. rewrite Hq. apply Qle_refl.
  - apply rne_ge. rewrite Hq. apply Qle_refl.
Qed.

Lemma pow2_pos (e : Z) : 0 < 2 ^ e.
Proof. apply Qpower_0_lt. reflexivity. Qed.

Lemma pow2_add (a b : Z) : 2 ^ (a + b) == 2 ^ a * 2 ^ b.
Proof. apply Qpower_plus. discriminate. Qed.

Lemma pow2_Z (a : Z) : (0 <= a)%Z -> 2 ^ a == inject_Z (2 ^ a).
Proof. intros Ha. rewrite Zpower_Qpower by exact Ha. reflexivity. Qed.

Lemma pow2_lt (a b : Z) : (a < b)%Z <-> 2 ^ a < 2 ^ b.
Proof.
  split.
  - intros H. apply Qpower_lt_compat_l; [exact H | reflexivity].
  - intros H. apply (Qpower_lt_compat_l_inv 2); [exact H | reflexivity].
Qed.

Lemma pow2_le (a b : Z) : (a <= b)%Z <-> 2 ^ a <= 2 ^ b.
Proof.
  split.
  - intros H. apply Qpower_le_compat_l; [exact H | discriminate].
  - intros H. apply (Qpower_le_compat_l_inv 2); [exact H | reflexivity].
Qed.

Lemma ilog2_spec (x : Q) :
  0 < x -> 2 ^ Float.ilog2 x <= x /\ x < 2 ^ (Float.ilog2 x + 1).
Proof.
  intros Hx. unfold Float.ilog2.
  destruct x as [n d]. cbn [Qnum Qden].
  assert (Hn : (0 < n)%Z) by (unfold Qlt in Hx; cbn in Hx; lia).
  pose proof (Z.log2_spec n Hn) as [Hn1 Hn2].
  pose proof (Z.log2_spec (Z.pos d) ltac:(lia)) as [Hd1 Hd2].
  pose proof (Z.log2_nonneg n) as Ha.
  pose proof (Z.log2_nonneg (Z.pos d)) as Hb.
  set (a := Z.log2 n) in *. set (b := Z.log2 (Z.pos d)) in *.
  assert (Hup : n # d < 2 ^ (a - b + 1)).
  { replace (a - b + 1)%Z with ((a + 1) + - b)%Z by lia.
    rewrite pow2_add, Qpower_opp.
    apply Qlt_shift_div_l; [apply pow2_pos |].
    rewrite (pow2_Z b), (pow2_Z (a + 1)) by lia.
    replace (Z.succ a) with (a + 1)%Z in Hn2 by lia.
    remember (2 ^ (a + 1))%Z as A eqn:HA. remember (2 ^ b)%Z as B eqn:HB.
    clear HA HB.
    unfold Qlt, Qmult, inject_Z. cbn [Qnum Qden].
    rewrite Pos.mul_1_r. nia. }
  assert (Hdown : 2 ^ (a - b - 1) <= n # d).
  { replace (a - b - 1)%Z with (a + - (b + 1))%Z by lia.
    rewrite pow2_add, Qpower_opp.
    apply Qle_shift_div_r; [apply pow2_pos |].
    rewrite (pow2_Z a), (pow2_Z (b + 1)) by lia.
    replace (Z.succ b) with (b + 1)%Z in Hd2 by lia.
    remember (2 ^ (b + 1))%Z as B eqn:HB. remember (2 ^ a)%Z as A eqn:HA.
    clear HA HB.
    unfold Qle, Qmult, inject_Z. cbn [Qnum Qden].
    rewrite Pos.mul_1_r. nia. }
  destruct (Qle_bool (2 ^ (a - b)) (n # d)) eqn:Htest.
  - apply Qle_bool_iff in Htest. split; assumption.
  - split; [exact Hdown |].
    replace (a - b - 1 + 1)%Z with (a - b)%Z by lia.
    apply Qnot_le_lt. intros Hle. apply Qle_bool_iff in Hle. congruence.
Qed.

Lemma ilog2_unique (x : Q) (e : Z) :
  2 ^ e <= x -> x < 2 ^ (e + 1) -> Float.ilog2 x = e.
Proof.
  intros Hlo Hhi.
  assert (Hx : 0 < x) by (eapply Qlt_le_trans; [apply (pow2_pos e) | exact Hlo]).
  destruct (ilog2_spec x Hx) as [Hlo' Hhi'].
  assert (H1 : (e < Float.ilog2 x + 1)%Z).
  { apply pow2_lt. eapply Qle_lt_trans; eassumption. }
  assert (H2 : (Float.ilog2 x < e + 1)%Z).
  { apply pow2_lt. eapply Qle_lt_trans; eassumption. }
  lia.
Qed.

Lemma ilog2_mono (x y : Q) :
  0 < x -> x <= y -> (Float.ilog2 x <= Float.ilog2 y)%Z.
Proof.
  intros Hx Hxy.
  assert (Hy : 0 < y) by (eapply Qlt_le_trans; eassumption).
  destruct (ilog2_spec x Hx) as [Hlo _].
  destruct (ilog2_spec y Hy) as [_ Hhi].
  assert (H : (Float.ilog2 x < Float.ilog2 y + 1)%Z).
  { apply pow2_lt. eapply Qle_lt_trans; [exact Hlo |].
    eapply Qle_lt_trans; eassumption. }
  lia.
Qed.

Lemma cexp_mono (x y : Q) :
  0 < x -> x <= y -> (Float.cexp x <= Float.cexp y)%Z.
Proof.
  intros Hx Hxy. unfold Float.cexp.
  pose proof (ilog2_mono x y Hx Hxy). lia.
Qed.

(** [round] on positive, zero and negative arguments *)
Lemma round_pos (x : Q) : 0 < x -> Float.round x == Float.nearest (Qred x).
Proof.
  intros Hx. unfold Float.round.
  assert (Hc : (Qred x ?= 0) = Gt).
  { apply Qgt_alt. rewrite Qred_correct. exact Hx. }
  rewrite Hc. apply Qred_correct.
Qed.

Lemma round_zero (x : Q) : x == 0 -> Float.round x == 0.
Proof.
  intros Hx. unfold Float.round.
  assert (Hc : (Qred x ?= 0) = Eq).
  { apply Qeq_alt. rewrite Qred_correct. exact Hx. }
  rewrite Hc. reflexivity.
Qed.

Lemma round_eq (x y : Q) : x == y -> Float.round x = Float.round y.
Proof.
  intros Hxy. unfold Float.round. rewrite (Qred_complete x y Hxy).
  reflexivity.
Qed.

Lemma nearest_nonneg (x : Q) : 0 < x -> 0 <= Float.nearest x.
Proof.
  intros Hx. unfold Float.nearest.
  apply Qmult_le_0_compat; [| apply Qlt_le_weak, pow2_pos].
  change 0 with (inject_Z 0). rewrite <- Zle_Qle. apply rne_ge.
  apply Qlt_le_weak, Qlt_shift_div_l; [apply pow2_pos |]. 
  change (inject_Z 0) with 0. lra.
Qed.

(** L1 *)
Lemma round_nonneg (x : Q) : 0 <= x -> 0 <= Float.round x.
Proof.
  intros Hx. destruct (Qlt_le_dec 0 x) as [Hpos | Hle].
  - rewrite (round_pos x Hpos). apply nearest_nonneg.
    rewrite Qred_correct. exact Hpos.
  - rewrite (round_zero x); [apply Qle_refl | lra].
Qed.

(** A positive double is a multiple of the unit of its last place. *)
Lemma nearest_le (x : Q) (m c : Z) :
  0 < x -> x <= inject_Z m * 2 ^ c -> (Float.cexp x <= c)%Z ->
  Float.nearest x <= inject_Z m * 2 ^ c.
Proof.
  intros Hx Hle Hc. unfold Float.nearest.
  set (cx := Float.cexp x) in *.
  assert (Hsplit : 2 ^ c == inject_Z (2 ^ (c - cx)) * 2 ^ cx).
  { rewrite <- pow2_Z by lia. rewrite <- pow2_add.
    replace (c - cx + cx)%Z with c by lia. reflexivity. }
  rewrite Hsplit, Qmult_assoc.
  apply Qmult_le_compat_r; [| apply Qlt_le_weak, pow2_pos].
  rewrite <- inject_Z_mult, <- Zle_Qle. apply rne_le.
  apply Qle_shift_div_r; [apply pow2_pos |].
  rewrite inject_Z_mult, <- Qmult_assoc, <- Hsplit. exact Hle.
Qed.

(** L2 *)
Lemma round_le_double (x y : Q) :
  0 <= x -> x <= y -> Float.is_double y -> Float.round x <= y.
Proof.
  intros Hx Hxy Hy. destruct (Qlt_le_dec 0 x) as [Hpos | Hle].
  - assert (Hypos : 0 < y) by lra.
    rewrite (round_pos x Hpos).
    unfold Float.is_double in Hy. rewrite (round_pos y Hypos) in Hy.
    apply Qle_trans with (Float.nearest (Qred y));
      [| rewrite Hy; apply Qle_refl].
    unfold Float.nearest at 2.
    apply nearest_le.
    + rewrite Qred_correct. exact Hpos.
    + fold (Float.nearest (Qred y)). rewrite Hy, Qred_correct. exact Hxy.
    + apply cexp_mono; rewrite !Qred_correct; assumption.
  - rewrite (round_zero x) by lra. lra.
Qed.

Lemma nearest_ge_pow2 (x : Q) (e : Z) :
  (-1022 <= e)%Z -> 2 ^ e <= x -> 2 ^ e <= Float.nearest x.
Proof.
  intros He Hx.
  assert (Hpos : 0 < x) by (eapply Qlt_le_trans; [apply (pow2_pos e) | exact Hx]).
  unfold Float.nearest. set (cx := Float.cexp x).
  destruct (ilog2_spec x Hpos) as [Hlo Hhi].
  assert (Hex : (e <= Float.ilog2 x)%Z).
  { assert (e < Float.ilog2 x + 1)%Z; [| lia].
    apply pow2_lt. eapply Qle_lt_trans; eassumption. }
  assert (Hcx : cx = (Float.ilog2 x - 52)%Z) by (unfold cx, Float.cexp; lia).
  assert (Hm : (2 ^ 52 <= Float.rne (x / 2 ^ cx))%Z).
  { apply rne_ge. apply Qle_shift_div_l; [apply pow2_pos |].
    rewrite <- (pow2_Z 52) by lia. rewrite <- pow2_add.
    replace (52 + cx)%Z with (Float.ilog2 x) by lia. exact Hlo. }
  apply Qle_trans with (inject_Z (2 ^ 52) * 2 ^ cx).
  - rewrite <- (pow2_Z 52) by lia. rewrite <- pow2_add.
    apply (proj1 (pow2_le _ _)). lia.
  - apply Qmult_le_compat_r; [| apply Qlt_le_weak, pow2_pos].
    rewrite <- Zle_Qle. exact Hm.
Qed.

(** L3 *)
Lemma round_ge_1 (x : Q) : 1 <= x -> 1 <= Float.round x.
Proof.
  intros Hx. rewrite (round_pos x) by lra.
  change 1 with (2 ^ 0) at 1. apply nearest_ge_pow2; [lia |].
  rewrite Qred_correct. exact Hx.
Qed.

(** L5 *)
Lemma double_of_mantissa (x : Q) (m c : Z) :
  (0 < m < 2 ^ 53)%Z -> (-1074 <= c)%Z -> x == inject_Z m * 2 ^ c ->
  Float.is_double x.
Proof.
  intros Hm Hc Hx. unfold Float.is_double.
  assert (Hpos : 0 < x).
  { rewrite Hx. apply Qmult_lt_0_compat; [| apply pow2_pos].
    change 0 with (inject_Z 0). rewrite <- Zlt_Qlt. lia. }
  rewrite (round_pos x Hpos). unfold Float.nearest.
  set (x' := Qred x). assert (Hx' : x' == x) by apply Qred_correct.
  set (cx := Float.cexp x').
  assert (Hpos' : 0 < x') by (rewrite Hx'; exact Hpos).
  destruct (ilog2_spec x' Hpos') as [Hlo Hhi].
  assert (Hlt : x' < 2 ^ (53 + c)).
  { rewrite Hx', Hx, pow2_add. apply Qmult_lt_compat_r; [apply pow2_pos |].
    rewrite (pow2_Z 53) by lia. rewrite <- Zlt_Qlt. lia. }
  assert (He : (Float.ilog2 x' < 53 + c)%Z).
  { apply pow2_lt. eapply Qle_lt_trans; eassumption. }
  assert (Hcx : (cx <= c)%Z) by (unfold cx, Float.cexp; lia).
  assert (Hsplit : 2 ^ c == inject_Z (2 ^ (c - cx)) * 2 ^ cx).
  { rewrite <- pow2_Z by lia. rewrite <- pow2_add.
    replace (c - cx + cx)%Z with c by lia. reflexivity. }
  rewrite (rne_Z _ (m * 2 ^ (c - cx))).
  - rewrite inject_Z_mult, <- Qmult_assoc, <- Hsplit. rewrite Hx. reflexivity.
  - rewrite Hx', Hx, Hsplit, inject_Z_mult. field.
    pose proof (pow2_pos cx). lra.
Qed.

Lemma double_0 : Float.is_double 0.
Proof. reflexivity. Qed.

(** A positive double is [m * 2^c] with [m < 2^53] and [c] the exponent of
    its last place. *)
Lemma double_mantissa (x : Q) :
  Float.is_double x -> 0 < x ->
  exists m, (0 < m < 2 ^ 53)%Z
    /\ x == inject_Z m * 2 ^ Float.cexp (Qred x).
Proof.
  intros Hd Hpos. unfold Float.is_double in Hd.
  rewrite (round_pos x Hpos) in Hd. unfold Float.nearest in Hd.
  set (x' := Qred x) in *. assert (Hx' : x' == x) by apply Qred_correct.
  set (cx := Float.cexp x') in *.
  exists (Float.rne (x' / 2 ^ cx)). split; [| symmetry; exact Hd].
  assert (Hpos' : 0 < x') by (rewrite Hx'; exact Hpos).
  destruct (ilog2_spec x' Hpos') as [Hlo Hhi].
  split.
  - assert (H : 0 < inject_Z (Float.rne (x' / 2 ^ cx))).
    { apply Qnot_le_lt. intros Hle.
      assert (inject_Z (Float.rne (x' / 2 ^ cx)) * 2 ^ cx <= 0); [| lra].
      pose proof (pow2_pos cx). nra. }
    change 0 with (inject_Z 0) in H. rewrite <- Zlt_Qlt in H. exact H.
  - assert (H : inject_Z (Float.rne (x' / 2 ^ cx)) < inject_Z (2 ^ 53)).
    { apply Qmult_lt_r with (2 ^ cx); [apply pow2_pos |].
      rewrite Hd, <- (pow2_Z 53), <- pow2_add by lia.
      rewrite <- Hx'. eapply Qlt_le_trans; [exact Hhi |].
      apply (proj1 (pow2_le _ _)). unfold cx, Float.cexp. lia. }
    rewrite <- Zlt_Qlt in H. exact H.
Qed.

(** L6 *)
Lemma double_minus (x : Q) (k : Z) :
  Float.is_double x -> (0 < k)%Z -> inject_Z k < x -> x < 2 ^ 53 ->
  Float.is_double (x - inject_Z k).
Proof.
  intros Hd Hk Hlo Hhi.
  assert (Hpos : 0 < x).
  { eapply Qlt_trans; [| exact Hlo]. change 0 with (inject_Z 0).
    rewrite <- Zlt_Qlt. exact Hk. }
  destruct (double_mantissa x Hd Hpos) as (m & Hm & Hx).
  set (x' := Qred x) in *. assert (Hx' : x' == x) by apply Qred_correct.
  assert (Hpos' : 0 < x') by (rewrite Hx'; exact Hpos).
  destruct (ilog2_spec x' Hpos') as [Hlog Hlog'].
  assert (H1 : 1 <= x').
  { rewrite Hx'. apply Qlt_le_weak. eapply Qle_lt_trans; [| exact Hlo].
    change 1 with (inject_Z 1). rewrite <- Zle_Qle. lia. }
  assert (He0 : (0 <= Float.ilog2 x')%Z).
  { assert (0 < Float.ilog2 x' + 1)%Z; [| lia]. apply pow2_lt.
    eapply Qle_lt_trans; [| exact Hlog']. exact H1. }
  assert (He1 : (Float.ilog2 x' < 53)%Z).
  { apply pow2_lt. eapply Qle_lt_trans; [exact Hlog |]. rewrite Hx'. exact Hhi. }
  set (c := Float.cexp x') in *.
  assert (Hc : c = (Float.ilog2 x' - 52)%Z) by (unfold c, Float.cexp; lia).
  assert (Hone : 1 == inject_Z (2 ^ (- c)) * 2 ^ c).
  { rewrite <- pow2_Z by lia. rewrite <- pow2_add.
    replace (- c + c)%Z with 0%Z by lia. reflexivity. }
  apply (double_of_mantissa _ (m - k * 2 ^ (- c)) c).
  - assert (Hgt : inject_Z (k * 2 ^ (- c)) * 2 ^ c < inject_Z m * 2 ^ c).
    { rewrite inject_Z_mult, <- Qmult_assoc, <- Hone, Qmult_1_r, <- Hx.
      exact Hlo. }
    apply Qmult_lt_r in Hgt; [| apply pow2_pos].
    rewrite <- Zlt_Qlt in Hgt.
    assert (0 < 2 ^ (- c))%Z by (apply Z.pow_pos_nonneg; lia).
    nia.
  - lia.
  - unfold Zminus. rewrite inject_Z_plus, inject_Z_opp, inject_Z_mult.
    apply Qeq_trans
      with (inject_Z m * 2 ^ c
            - inject_Z k * (inject_Z (2 ^ (- c)) * 2 ^ c)).
    + rewrite <- Hone, <- Hx. ring.
    + ring.
Qed.

(** [uniform(1, d - 1)] on a double [d] between 2 and 2^53 stays
    between its bounds, which are computed exactly. *)
Lemma uniform_between (d u : Q) :
  Float.is_double d -> 2 < d -> d < 2 ^ 53 -> 0 <= u -> u < 1 ->
  let t := Float.add 1 (Float.mul (Float.sub (Float.sub d 1) 1) u) in
  1 <= t /\ t <= d - 1.
Proof.
  intros Hd Hlo Hhi Hu0 Hu1.
  assert (Hb : Float.is_double (d - 1)).
  { apply (double_minus d 1 Hd); [lia | | exact Hhi].
    change (inject_Z 1) with 1. lra. }
  assert (Hc : Float.is_double (d - 2)).
  { apply (double_minus d 2 Hd); [lia | | exact Hhi].
    change (inject_Z 2) with 2. exact Hlo. }
  unfold Float.is_double in Hb, Hc.
  unfold Float.add, Float.mul, Float.sub.
  set (b := Float.round (d - 1)) in *.
  assert (Hc' : Float.round (b - 1) = Float.round (d - 2)).
  { apply round_eq. rewrite Hb. ring. }
  rewrite Hc'. set (c := Float.round (d - 2)) in *.
  assert (Hdc : Float.is_double c).
  { unfold Float.is_double. rewrite (round_eq c (d - 2) Hc). exact (Qeq_refl c). }
  assert (Hdb : Float.is_double b).
  { unfold Float.is_double. rewrite (round_eq b (d - 1) Hb). exact (Qeq_refl b). }
  assert (Hc0 : 0 <= c) by (rewrite Hc; lra).
  assert (Hcu : 0 <= c * u) by (apply Qmult_le_0_compat; assumption).
  assert (Hcu' : c * u <= c) by nra.
  pose proof (round_nonneg (c * u) Hcu) as Hp0.
  pose proof (round_le_double (c * u) c Hcu Hcu' Hdc) as Hp1.
  set (p := Float.round (c * u)) in *.
  cbv zeta. split.
  - apply round_ge_1. lra.
  - rewrite <- Hb. apply round_le_double; [lra | | exact Hdb].
    rewrite Hb. lra.
Qed.

End Doubles.

(** ** The generator *)

Lemma after_zero words : Sys.after words 0 = 0%N.
Proof. apply N.shiftr_0_l. Qed.

Lemma getrandbits_words_zero words : forall k,
  Sys.getrandbits_words words k 0 = 0%N.
Proof.
  induction words as [| more IH]; intros k; [reflexivity |].
  cbn [Sys.getrandbits_words]. rewrite after_zero, IH.
  destruct (k <=? 32)%N; [apply N.shiftr_0_l | reflexivity].
Qed.

Lemma getrandbits_zero k : Sys.getrandbits k 0 = 0%N.
Proof. apply getrandbits_words_zero. Qed.

Lemma size_after words raw :
  raw <> 0%N -> (N.size (Sys.after (S words) raw) < N.size raw)%N.
Proof.
  intros Hraw. unfold Sys.after.
  set (s := (32 * N.of_nat (S words))%N).
  assert (Hs : (0 < s)%N) by (unfold s; lia).
  destruct (N.eq_dec (N.shiftr raw s) 0%N) as [-> | Hne].
  - rewrite (N.size_log2 raw) by exact Hraw. cbn. lia.
  - rewrite (N.size_log2 raw), (N.size_log2 (N.shiftr raw s)) by assumption.
    rewrite N.log2_shiftr.
    assert (s <= N.log2 raw)%N; [| lia].
    apply N.nlt_ge. intros Hlt. apply Hne.
    apply N.shiftr_eq_0. exact Hlt.
Qed.

Lemma redraw_drawn rounds n k : forall raw drawn,
  Sys.redraw rounds n k raw drawn =
    (fst (Sys.redraw rounds n k raw 0),
     (drawn + snd (Sys.redraw rounds n k raw 0))%nat).
Proof.
  induction rounds as [| rounds IH]; intros raw drawn;
    cbn [Sys.redraw]; destruct (Sys.kept n (Sys.getrandbits k raw));
    cbn [fst snd]; try reflexivity.
  rewrite (IH _ (drawn + _)%nat), (IH _ (0 + _)%nat). cbn [fst snd].
  f_equal. lia.
Qed.

Lemma kept_none n v : (0 < n)%N -> Sys.kept n v = None -> v <> 0%N.
Proof.
  unfold Sys.kept. intros Hn. destruct (N.ltb_spec v n); [discriminate |].
  lia.
Qed.

Lemma redraw_rounds n k : (0 < n)%N -> forall rounds1 rounds2 raw drawn,
  (N.to_nat (N.size raw) <= rounds1)%nat ->
  (N.to_nat (N.size raw) <= rounds2)%nat ->
  Sys.redraw rounds1 n k raw drawn = Sys.redraw rounds2 n k raw drawn.
Proof.
  intros Hn. induction rounds1 as [| rounds1 IH];
    intros rounds2 raw drawn H1 H2.
  - assert (raw = 0%N) as ->.
    { destruct raw; [reflexivity |]. cbn in H1. lia. }
    destruct rounds2; cbn [Sys.redraw]; rewrite getrandbits_zero;
      unfold Sys.kept; destruct (N.ltb_spec 0 n); try lia; reflexivity.
  - cbn [Sys.redraw].
    destruct (Sys.kept n (Sys.getrandbits k raw)) as [r |] eqn:Hkept.
    + destruct rounds2; cbn [Sys.redraw]; rewrite Hkept; reflexivity.
    + assert (Hraw : raw <> 0%N).
      { intros ->. rewrite getrandbits_zero in Hkept.
        apply (kept_none n 0 Hn Hkept). reflexivity. }
      pose proof (size_after (N.to_nat ((k - 1) / 32)) raw Hraw) as Hsize.
      fold (Sys.words_for k) in Hsize.
      destruct rounds2 as [| rounds2].
      * exfalso. destruct raw; [congruence |]. cbn in H2. lia.
      * cbn [Sys.redraw]. rewrite Hkept. apply IH; lia.
Qed.

(** One round of [_randbelow]: the value is returned if it is below
    [n], and the loop goes on with the words that follow if not. *)
Lemma below_round n raw :
  (0 < n)%N ->
  let k := N.size n in
  Sys.below n raw =
    match Sys.kept n (Sys.getrandbits k raw) with
    | Some r => (r, Sys.words_for k)
    | None =>
        let (r, drawn) := Sys.below n (Sys.after (Sys.words_for k) raw) in
        (r, (Sys.words_for k + drawn)%nat)
    end.
Proof.
  intros Hn k. unfold Sys.below. fold k.
  destruct (N.to_nat (N.size raw)) as [| rounds] eqn:Hrounds;
    cbn [Sys.redraw];
    destruct (Sys.kept n (Sys.getrandbits k raw)) as [r |] eqn:Hkept;
    try reflexivity.
  - exfalso. assert (raw = 0%N) as ->.
    { destruct raw; [reflexivity |]. cbn in Hrounds. lia. }
    rewrite getrandbits_zero in Hkept. apply (kept_none n 0 Hn Hkept).
    reflexivity.
  - assert (Hraw : raw <> 0%N).
    { intros ->. rewrite getrandbits_zero in Hkept.
      apply (kept_none n 0 Hn Hkept). reflexivity. }
    pose proof (size_after (N.to_nat ((k - 1) / 32)) raw Hraw) as Hsize.
    fold (Sys.words_for k) in Hsize.
    rewrite redraw_drawn.
    rewrite (redraw_rounds n k Hn rounds
               (N.to_nat (N.size (Sys.after (Sys.words_for k) raw))))
      by lia.
    destruct (Sys.redraw _ n k (Sys.after (Sys.words_for k) raw) 0).
    cbn [fst snd]. f_equal.
Qed.

Lemma words_for_pos k : (1 <= Sys.words_for k)%nat.
Proof. unfold Sys.words_for. apply le_n_S, Nat.le_0_l. Qed.

Lemma redraw_below n k : (0 < n)%N -> forall rounds raw drawn,
  (N.to_nat (N.size raw) <= rounds)%nat ->
  (fst (Sys.redraw rounds n k raw drawn) < n)%N
  /\ (1 <= snd (Sys.redraw rounds n k raw drawn))%nat.
Proof.
  intros Hn. induction rounds as [| rounds IH]; intros raw drawn Hrounds;
    cbn [Sys.redraw];
    destruct (Sys.kept n (Sys.getrandbits k raw)) as [r |] eqn:Hkept.
  - unfold Sys.kept in Hkept.
    destruct (N.ltb_spec (Sys.getrandbits k raw) n); [| discriminate].
    injection Hkept as <-. cbn [fst snd].
    pose proof (words_for_pos k). split; [assumption | lia].
  - exfalso. assert (raw = 0%N) as ->.
    { destruct raw; [reflexivity |]. cbn in Hrounds. lia. }
    rewrite getrandbits_zero in Hkept. apply (kept_none n 0 Hn Hkept).
    reflexivity.
  - unfold Sys.kept in Hkept.
    destruct (N.ltb_spec (Sys.getrandbits k raw) n); [| discriminate].
    injection Hkept as <-. cbn [fst snd].
    pose proof (words_for_pos k). split; [assumption | lia].
  - assert (Hraw : raw <> 0%N).
    { intros ->. rewrite getrandbits_zero in Hkept.
      apply (kept_none n 0 Hn Hkept). reflexivity. }
    pose proof (size_after (N.to_nat ((k - 1) / 32)) raw Hraw) as Hsize.
    fold (Sys.words_for k) in Hsize.
    apply IH. lia.
Qed.

Lemma below_lt n raw : (0 < n)%N -> (fst (Sys.below n raw) < n)%N.
Proof. intros Hn. apply redraw_below; [exact Hn | lia]. Qed.

Lemma below_drawn n raw : (0 < n)%N -> (1 <= snd (Sys.below n raw))%nat.
Proof. intros Hn. apply redraw_below; [exact Hn | lia]. Qed.

Lemma skip_run E words w :
  Sys.skip E words w = (Return tt, W.draw_words words w).
Proof.
  revert w. induction words as [| more IH]; intros w.
  - destruct w. reflexivity.
  - cbn [Sys.skip]. unfold bind, Sys.next_draw. rewrite IH.
    unfold W.draw_words, W.tick_draws. cbn. do 2 f_equal. lia.
Qed.

Lemma randbelow_run E n w :
  (0 < n)%N ->
  Sys.randbelow E n w =
    (Return (fst (Sys.below n (entropy E (draws w)))),
     W.draw_words (snd (Sys.below n (entropy E (draws w)))) w).
Proof.
  intros Hn. unfold Sys.randbelow, bind at 1, Sys.next_draw.
  pose proof (below_drawn n (entropy E (draws w)) Hn) as Hdrawn.
  destruct (Sys.below n (entropy E (draws w))) as [r drawn].
  cbn [fst snd] in *. unfold bind. rewrite skip_run. cbn [ret].
  unfold W.draw_words, W.tick_draws. cbn. do 2 f_equal. lia.
Qed.

Lemma random_run E w :
  let raw := entropy E (draws w) in
  Sys.random E w =
    (Return
       (Z.of_N (N.shiftr (Sys.word raw) 5 * 67108864
                + N.shiftr (Sys.word (Sys.after 1 raw)) 6) # 2 ^ 53),
     W.draw_words 2 w).
Proof. reflexivity. Qed.

Lemma word_lt raw : (Sys.word raw < 2 ^ 32)%N.
Proof. unfold Sys.word. apply N.mod_lt. discriminate. Qed.

Lemma words_for_enough k : (k <= 32 * N.of_nat (Sys.words_for k))%N.
Proof.
  unfold Sys.words_for. rewrite Nat2N.inj_succ, N2Nat.id.
  pose proof (N.mul_succ_div_gt (k - 1) 32 ltac:(discriminate)). lia.
Qed.

(** A round's value has [k] bits, and every number of [k] bits is the
    value of some output. *)
Lemma getrandbits_words_range words : forall k raw,
  (0 < k)%N -> (k <= 32 * N.of_nat words)%N ->
  (Sys.getrandbits_words words k raw < 2 ^ k)%N.
Proof.
  induction words as [| more IH]; intros k raw Hk Hwords; [lia |].
  cbn [Sys.getrandbits_words]. destruct (N.leb_spec k 32) as [Hle | Hgt].
  - rewrite N.shiftr_div_pow2.
    apply N.Div0.div_lt_upper_bound.
    rewrite <- N.pow_add_r. replace (32 - k + k)%N with 32%N by lia.
    apply word_lt.
  - specialize (IH (k - 32)%N (Sys.after 1 raw) ltac:(lia) ltac:(lia)).
    pose proof (word_lt raw) as Hw.
    replace k with (32 + (k - 32))%N at 2 by lia. rewrite N.pow_add_r.
    remember (2 ^ 32)%N as B. remember (2 ^ (k - 32))%N as C.
    clear -IH Hw. nia.
Qed.

Lemma getrandbits_range k raw :
  (0 < k)%N -> (Sys.getrandbits k raw < 2 ^ k)%N.
Proof.
  intros Hk. apply getrandbits_words_range; [exact Hk |].
  apply words_for_enough.
Qed.

Lemma getrandbits_words_onto words : forall k v,
  (0 < k)%N -> (k <= 32 * N.of_nat words)%N -> (v < 2 ^ k)%N ->
  exists raw, Sys.getrandbits_words words k raw = v.
Proof.
  induction words as [| more IH]; intros k v Hk Hwords Hv; [lia |].
  cbn [Sys.getrandbits_words]. destruct (N.leb_spec k 32) as [Hle | Hgt].
  - exists (N.shiftl v (32 - k)).
    assert (Hlt : (N.shiftl v (32 - k) < 2 ^ 32)%N).
    { rewrite N.shiftl_mul_pow2.
      replace 32%N with (k + (32 - k))%N at 2 by lia.
      rewrite N.pow_add_r. apply N.mul_lt_mono_pos_r; [| exact Hv].
      apply N.neq_0_lt_0, N.pow_nonzero. discriminate. }
    unfold Sys.word. rewrite N.mod_small by exact Hlt.
    rewrite N.shiftr_shiftl_l by lia. rewrite N.sub_diag. apply N.shiftl_0_r.
  - assert (Hv1 : (v / 2 ^ 32 < 2 ^ (k - 32))%N).
    { apply N.Div0.div_lt_upper_bound.
      rewrite <- N.pow_add_r. replace (32 + (k - 32))%N with k by lia.
      exact Hv. }
    destruct (IH (k - 32)%N (v / 2 ^ 32)%N ltac:(lia) ltac:(lia) Hv1)
      as (raw1 & Hraw1).
    exists (v mod 2 ^ 32 + 2 ^ 32 * raw1)%N.
    assert (Hword : Sys.word (v mod 2 ^ 32 + 2 ^ 32 * raw1) = (v mod 2 ^ 32)%N).
    { unfold Sys.word. rewrite N.Div0.add_mod, N.Div0.mod_mod.
      rewrite (N.mul_comm (2 ^ 32)), N.Div0.mod_mul, N.add_0_r.
      apply N.Div0.mod_mod. }
    assert (Hafter : Sys.after 1 (v mod 2 ^ 32 + 2 ^ 32 * raw1) = raw1).
    { unfold Sys.after. change (32 * N.of_nat 1)%N with 32%N.
      rewrite N.shiftr_div_pow2, (N.mul_comm (2 ^ 32)).
      rewrite N.div_add by discriminate.
      rewrite N.div_small; [reflexivity |]. apply N.mod_lt. discriminate. }
    rewrite Hword, Hafter, Hraw1.
    rewrite (N.div_mod v (2 ^ 32)) at 3 by discriminate. lia.
Qed.

Lemma getrandbits_onto k v :
  (0 < k)%N -> (v < 2 ^ k)%N -> exists raw, Sys.getrandbits k raw = v.
Proof.
  intros Hk Hv. apply getrandbits_words_onto; [exact Hk | | exact Hv].
  apply words_for_enough.
Qed.

(** With at most 32 bits a round's value is the top of one word: the
    words that give a value are those of one interval, of the same
    length for every value. *)
Lemma getrandbits_word k raw v :
  (0 < k)%N -> (k <= 32)%N ->
  Sys.getrandbits k raw = v <->
  (v * 2 ^ (32 - k) <= Sys.word raw < (v + 1) * 2 ^ (32 - k))%N.
Proof.
  intros Hk Hle. unfold Sys.getrandbits, Sys.words_for.
  rewrite (N.div_small (k - 1) 32) by lia.
  cbn [N.to_nat Sys.getrandbits_words].
  destruct (N.leb_spec k 32) as [_ | Hgt]; [| lia].
  rewrite N.shiftr_div_pow2.
  set (x := Sys.word raw). set (d := (2 ^ (32 - k))%N).
  assert (Hd : (0 < d)%N).
  { unfold d. apply N.neq_0_lt_0, N.pow_nonzero. discriminate. }
  split.
  - intros <-. split.
    + rewrite N.mul_comm. apply N.Div0.mul_div_le.
    + rewrite N.mul_comm, N.add_1_r.
      apply N.mul_succ_div_gt. lia.
  - intros [Hlo Hhi]. symmetry.
    apply (N.div_unique x d v (x - v * d)); lia.
Qed.

Lemma count_index_seq i : forall n,
  length (List.filter (fun r => Nat.eqb r i) (seq 0 n)) =
    if (i <? n)%nat then 1%nat else 0%nat.
Proof.
  induction n as [| n IH]; [reflexivity |].
  rewrite seq_S, List.filter_app, length_app, IH.
  cbn [List.filter Nat.add].
  destruct (Nat.eqb_spec n i), (Nat.ltb_spec i n), (Nat.ltb_spec i (S n));
    cbn [length]; lia.
Qed.

(** Of the [2^k] values of a round, exactly one makes the loop return
    [i], for each [i] below [n]. *)
Lemma kept_once n i :
  (i < n)%N ->
  length
    (List.filter
       (fun v => bool_decide (Sys.kept n (N.of_nat v) = Some i))
       (seq 0 (2 ^ N.to_nat (N.size n)))) = 1%nat.
Proof.
  intros Hi.
  rewrite (List.filter_ext _ (fun v => Nat.eqb v (N.to_nat i))).
  - rewrite count_index_seq.
    destruct (Nat.ltb_spec (N.to_nat i) (2 ^ N.to_nat (N.size n)));
      [reflexivity |].
    exfalso. pose proof (N.size_gt n) as Hsize.
    assert (Hpow : N.of_nat (2 ^ N.to_nat (N.size n)) = (2 ^ N.size n)%N).
    { rewrite Nat2N.inj_pow, N2Nat.id. reflexivity. }
    lia.
  - intros v. unfold Sys.kept.
    destruct (N.ltb_spec (N.of_nat v) n), (Nat.eqb_spec v (N.to_nat i));
      try (apply bool_decide_eq_false; intros [=]; lia);
      try (apply bool_decide_eq_true; f_equal; lia).
Qed.

Lemma choice_run E {A} (x : A) (l : list A) w :
  let n := N.of_nat (length (x :: l)) in
  let drawn := Sys.below n (entropy E (draws w)) in
  Sys.choice E (x :: l) w =
    (Return (nth (N.to_nat (fst drawn)) (x :: l) x),
     W.draw_words (snd drawn) w).
Proof.
  intros n drawn. unfold Sys.choice, bind.
  rewrite randbelow_run by (cbn; lia). reflexivity.
Qed.


(** ** Operations that delete nothing *)

Lemma grows_refl w : grows w w.
Proof. split; reflexivity. Qed.

Lemma grows_trans w1 w2 w3 : grows w1 w2 -> grows w2 w3 -> grows w1 w3.
Proof.
  intros [] []. split; try (etransitivity; eassumption).
Qed.

Lemma grows_add_log entry w : grows w (W.add_log entry w).
Proof.
  split; cbn; try reflexivity. apply prefix_app_r. reflexivity.
Qed.

#[local] Instance grows_frame : FrameRel grows.
Proof.
  split; [apply grows_refl | apply grows_trans | apply grows_add_log].
Qed.

#[local] Instance same_api_calls_frame : FrameRel same_api_calls.
Proof.
  split; unfold same_api_calls; [reflexivity | congruence | reflexivity].
Qed.

#[local] Instance thumbnails_only_frame : FrameRel thumbnails_only.
Proof.
  split; unfold thumbnails_only.
  - intros w. exists []. rewrite app_nil_r. auto.
  - intros w1 w2 w3 (t1 & H1 & F1) (t2 & H2 & F2). exists (t1 ++ t2).
    rewrite H2, H1, <- app_assoc. split; [reflexivity |].
    apply Forall_app. auto.
  - intros entry w. exists []. cbn. rewrite app_nil_r. auto.
Qed.

(** The combinators of the monad keep every frame relation. *)
Section Keeps.
Context (R : World -> World -> Prop) `{!FrameRel R}.

Lemma keeps_ret {A} (a : A) : keeps R (ret a).
Proof. intros w. apply frame_refl. Qed.

Lemma keeps_raise {A} e : keeps R (@raise A e).
Proof. intros w. apply frame_refl. Qed.

Lemma keeps_out_of_fuel {A} : keeps R (@out_of_fuel A).
Proof. intros w. apply frame_refl. Qed.

Lemma keeps_bind {A B} (m : M A) (k : A -> M B) :
  keeps R m -> (forall a, keeps R (k a)) -> keeps R (bind m k).
Proof.
  intros Hm Hk w. unfold bind. specialize (Hm w).
  destruct (m w) as [[a | e |] w1]; cbn in *; try assumption.
  eapply frame_trans; [exact Hm | apply Hk].
Qed.

Lemma keeps_try_except {A} (m : M A) handles handler :
  keeps R m -> (forall e, keeps R (handler e)) ->
  keeps R (try_except m handles handler).
Proof.
  intros Hm Hh w. unfold try_except. specialize (Hm w).
  destruct (m w) as [[a | e |] w1]; cbn in *; try assumption.
  destruct (handles e); cbn; [| assumption].
  eapply frame_trans; [exact Hm | apply Hh].
Qed.

Lemma keeps_emit lv msg : keeps R (logging.emit lv msg).
Proof. intros w. apply frame_log. Qed.

Lemma keeps_info msg : keeps R (logging.info msg).
Proof. apply keeps_emit. Qed.

Lemma keeps_warning msg : keeps R (logging.warning msg).
Proof. apply keeps_emit. Qed.

Lemma keeps_error msg : keeps R (logging.error msg).
Proof. apply keeps_emit. Qed.

Lemma keeps_logged {A} label (m : M A) :
  keeps R m -> keeps R (logged label m).
Proof.
  intros Hm. apply keeps_try_except; [exact Hm |].
  intros e. apply keeps_bind; [apply keeps_error |].
  intros _. apply keeps_raise.
Qed.

Lemma keeps_lift {A} (r : exn + A) : keeps R (lift r).
Proof. destruct r; [apply keeps_raise | apply keeps_ret]. Qed.

Lemma keeps_check r : keeps R (check r).
Proof. destruct r; [apply keeps_raise | apply keeps_ret]. Qed.

Lemma keeps_records entries : keeps R (logging.records entries).
Proof.
  induction entries as [| [lv msg] rest IH]; [apply keeps_ret |].
  cbn [logging.records]. apply keeps_bind; [apply keeps_emit |].
  intros _. exact IH.
Qed.

(** Whatever draws does so one word at a time. *)
Section Draws.
Context (E : Env) (R_draw : keeps R (Sys.next_draw E)).

Lemma keeps_skip words : keeps R (Sys.skip E words).
Proof.
  induction words as [| more IH]; [apply keeps_ret |].
  cbn [Sys.skip]. apply keeps_bind; [exact R_draw |].
  intros _. exact IH.
Qed.

Lemma keeps_randbelow n : keeps R (Sys.randbelow E n).
Proof.
  unfold Sys.randbelow. apply keeps_bind; [exact R_draw |].
  intros raw. destruct (Sys.below n raw) as [r drawn].
  apply keeps_bind; [apply keeps_skip |]. intros _. apply keeps_ret.
Qed.

Lemma keeps_random : keeps R (Sys.random E).
Proof.
  unfold Sys.random. apply keeps_bind; [exact R_draw |].
  intros raw. apply keeps_bind; [apply keeps_skip |].
  intros _. apply keeps_ret.
Qed.

Lemma keeps_uniform a b : keeps R (Sys.uniform E a b).
Proof.
  unfold Sys.uniform. apply keeps_bind; [apply keeps_random |].
  intros u. apply keeps_ret.
Qed.

Lemma keeps_choice {A} (l : list A) : keeps R (Sys.choice E l).
Proof.
  unfold Sys.choice. destruct l; [apply keeps_raise |].
  apply keeps_bind; [apply keeps_randbelow |]. intros r. apply keeps_ret.
Qed.

Lemma keeps_choice_value v : keeps R (Sys.choice_value E v).
Proof.
  unfold Sys.choice_value.
  destruct v as [| | | s | l | [| entry d]];
    try apply keeps_raise; try apply keeps_choice.
  - apply keeps_bind; [apply keeps_choice |]. intros c. apply keeps_ret.
  - apply keeps_bind; [apply keeps_randbelow |].
    intros r. apply keeps_raise.
Qed.

End Draws.

End Keeps.

(** The files after a write: the target may have changed, nothing
    else. *)
Lemma write_effect_files E path b w :
  forall p, p <> path ->
    snd (Sys.write_effect E path b w) !! p = files w !! p.
Proof.
  intros p Hp. unfold Sys.write_effect.
  destruct (Sys.open_error path w); [reflexivity |].
  destruct (open_io E path); [reflexivity |].
  destruct (write_io E path b) as [[e partial] |]; cbn;
    apply lookup_insert_ne; congruence.
Qed.

Lemma write_effect_dom E path b w :
  dom (files w) ⊆ dom (snd (Sys.write_effect E path b w)).
Proof.
  unfold Sys.write_effect.
  destruct (Sys.open_error path w); [reflexivity |].
  destruct (open_io E path); [reflexivity |].
  destruct (write_io E path b) as [[e partial] |]; cbn;
    rewrite dom_insert; set_solver.
Qed.

(** A write that returns has put the content in place. *)
Lemma write_file_returns E path b w w' :
  Sys.write_file E path b w = (Return tt, w') ->
  w' = W.set_files (<[path := b]> (files w)) w
  /\ Sys.write_effect E path b w = (None, <[path := b]> (files w)).
Proof.
  unfold Sys.write_file, Sys.write_effect.
  destruct (Sys.open_error path w); [discriminate |].
  destruct (open_io E path); [discriminate |].
  destruct (write_io E path b) as [[e partial] |]; [discriminate |].
  intros [= <-]. auto.
Qed.

(** A handler that raises leaves the returns of the body as they
    are. *)
Lemma try_reraise_returns {A} (m : M A) handles (f : exn -> exn) w a w' :
  try_except m handles (fun e => raise (f e)) w = (Return a, w') ->
  m w = (Return a, w').
Proof.
  unfold try_except. destruct (m w) as [[a0 | e |] w0]; try discriminate.
  - intros H. exact H.
  - destruct (handles e); discriminate.
Qed.

(** The outcome of a write depends on the files and directories
    alone, and its error is never one of [requests]. *)
Lemma write_effect_same E path b w w' :
  files w' = files w -> dirs w' = dirs w ->
  Sys.write_effect E path b w' = Sys.write_effect E path b w.
Proof.
  intros Hfiles Hdirs.
  unfold Sys.write_effect, Sys.open_error, Sys.through_file.
  rewrite Hfiles.
  assert (Hexists : forall root stack,
             Sys.dir_exists w' root stack = Sys.dir_exists w root stack).
  { intros root [| c outer]; [reflexivity |].
    unfold Sys.dir_exists. rewrite Hdirs. reflexivity. }
  assert (Hres : forall root cs stack found,
             Sys.resolve w' root stack found cs
             = Sys.resolve w root stack found cs).
  { intros root cs. induction cs as [| c rest IH]; intros stack found;
      cbn [Sys.resolve]; [reflexivity |].
    rewrite Hexists, !IH. reflexivity. }
  assert (Hdir : forall root cs, Sys.is_dir w' root cs = Sys.is_dir w root cs).
  { intros root cs. unfold Sys.is_dir. rewrite Hres.
    destruct (Sys.resolve w root [] true cs) as [[stack found] |];
      [rewrite Hexists |]; reflexivity. }
  assert (Hfile : forall root cs,
             Sys.is_file w' root cs = Sys.is_file w root cs).
  { intros root cs. unfold Sys.is_file. rewrite Hres, Hfiles. reflexivity. }
  destruct (Pathlib.parse path) as [root components].
  rewrite !Hdir.
  assert (Hthrough : forall l,
             existsb (fun n => Sys.is_file w' root (firstn n components)) l
             = existsb (fun n => Sys.is_file w root (firstn n components)) l).
  { induction l as [| n l IH]; cbn;
      [reflexivity | rewrite Hfile, IH; reflexivity]. }
  rewrite Hthrough. reflexivity.
Qed.

Lemma open_error_kind path w e :
  Sys.open_error path w = Some e -> is_RequestException e = false.
Proof.
  unfold Sys.open_error. destruct (Pathlib.parse path) as [root cs].
  repeat match goal with
         | |- context [if ?b then _ else _] => destruct b
         end; intros [= <-]; reflexivity.
Qed.

Lemma write_effect_kind E path b w e after_write :
  Sys.write_effect E path b w = (Some e, after_write) ->
  is_RequestException e = false.
Proof.
  unfold Sys.write_effect.
  destruct (Sys.open_error path w) as [e0 |] eqn:Hopen.
  - intros [= <- _]. eapply open_error_kind, Hopen.
  - destruct (open_io E path); [intros [= <- _]; reflexivity |].
    destruct (write_io E path b) as [[msg partial] |];
      [intros [= <- _]; reflexivity | discriminate].
Qed.

Lemma monotone_write_file E path b : monotone (Sys.write_file E path b).
Proof.
  intros w. unfold Sys.write_file.
  pose proof (write_effect_dom E path b w) as Hdom.
  destruct (Sys.write_effect E path b w) as [error after_write].
  split; cbn; try reflexivity. exact Hdom.
Qed.

Lemma monotone_session_get E r : monotone (Sys.session_get E r).
Proof.
  intros w. unfold Sys.session_get.
  destruct (transport E (length (requests w)) r); split; cbn;
    try reflexivity; apply prefix_app_r; reflexivity.
Qed.

Lemma monotone_next_draw E : monotone (Sys.next_draw E).
Proof. intros w. split; reflexivity. Qed.

Create HintDb mono.

#[local] Hint Resolve grows_frame same_api_calls_frame thumbnails_only_frame
  keeps_ret keeps_raise keeps_out_of_fuel keeps_emit keeps_info keeps_warning
  keeps_error keeps_lift keeps_check keeps_records monotone_write_file
  monotone_session_get monotone_next_draw : mono.

(** Decompose a monadic term and close the leaves with the hints. *)
Ltac mono :=
  repeat first
    [ progress intros
    | solve [auto with mono]
    | apply keeps_logged
    | apply keeps_bind
    | apply keeps_try_except
    | match goal with
      | |- keeps _ (match ?x with _ => _ end) => destruct x
      | |- keeps _ (if ?b then _ else _) => destruct b
      end ].

Lemma monotone_choice E {A} (l : list A) : monotone (Sys.choice E l).
Proof. apply keeps_choice; mono. Qed.

#[local] Hint Resolve monotone_choice : mono.

Section KeepsBuiltins.
Context (R : World -> World -> Prop) `{!FrameRel R}.

Lemma keeps_getitem obj key : keeps R (Builtins.getitem obj key).
Proof. unfold Builtins.getitem. mono. Qed.

Lemma keeps_getitem_int obj i : keeps R (Builtins.getitem_int obj i).
Proof. unfold Builtins.getitem_int. mono. Qed.

Lemma keeps_get obj key default : keeps R (Builtins.get obj key default).
Proof. unfold Builtins.get. mono. Qed.

Lemma keeps_raise_for_status r : keeps R (Sys.raise_for_status r).
Proof. unfold Sys.raise_for_status. mono. Qed.

Lemma keeps_exists path : keeps R (Sys.exists_ path).
Proof. intros w. apply frame_refl. Qed.

Lemma keeps_glob_suffix d suffix : keeps R (Sys.glob_suffix d suffix).
Proof. intros w. apply frame_refl. Qed.

End KeepsBuiltins.

Lemma monotone_uniform E a b : monotone (Sys.uniform E a b).
Proof. apply keeps_uniform; mono. Qed.

Lemma monotone_choice_value E v : monotone (Sys.choice_value E v).
Proof. apply keeps_choice_value; mono. Qed.

#[local] Hint Resolve keeps_getitem keeps_getitem_int keeps_get
  keeps_raise_for_status keeps_exists keeps_glob_suffix
  monotone_uniform monotone_choice_value : mono.

Lemma monotone_attempts E range url path :
  monotone (ContentDownloader.attempts E range url path).
Proof.
  induction range as [| attempt rest IH]; cbn [ContentDownloader.attempts];
    mono.
Qed.

Lemma monotone_download_file E url filename :
  monotone (ContentDownloader._download_file E url filename).
Proof. apply monotone_attempts. Qed.

#[local] Hint Resolve monotone_download_file : mono.

Lemma monotone_fetch_candidate E video :
  monotone (ContentDownloader.fetch_candidate E video).
Proof. unfold ContentDownloader.fetch_candidate. mono. Qed.

#[local] Hint Resolve monotone_fetch_candidate : mono.

Lemma monotone_get_pexels_video E config query duration :
  monotone (ContentDownloader.get_pexels_video E config query duration).
Proof. unfold ContentDownloader.get_pexels_video. mono. Qed.

Lemma monotone_VideoFileClip E path : monotone (VideoEditor.VideoFileClip E path).
Proof.
  intros w. unfold VideoEditor.VideoFileClip.
  destruct (decode_video E path (files w !! path)); apply grows_refl.
Qed.

#[local] Hint Resolve monotone_VideoFileClip : mono.

Lemma monotone_add_music E clip : monotone (VideoEditor.add_music E clip).
Proof. unfold VideoEditor.add_music. mono. Qed.

#[local] Hint Resolve monotone_add_music : mono.

Lemma monotone_process_video E input output text :
  monotone (VideoEditor.process_video E input output text).
Proof.
  unfold VideoEditor.process_video, VideoEditor.write_videofile. mono.
Qed.

Lemma monotone_generate E video output text :
  monotone (ThumbnailGenerator.generate E video output text).
Proof.
  unfold ThumbnailGenerator.generate, ThumbnailGenerator.sample_timestamp.
  mono.
Qed.

Section KeepsUpload.
Context (R : World -> World -> Prop) `{!FrameRel R}.

Lemma keeps_join_values parts : forall n,
  keeps R (YouTubeUploader.join_values n parts).
Proof.
  induction parts as [| v rest IH]; intros n; cbn; [mono |].
  destruct v; mono.
Qed.

#[local] Hint Resolve keeps_join_values : mono.

Lemma keeps_build_body config metadata :
  keeps R (YouTubeUploader.build_body config metadata).
Proof.
  unfold YouTubeUploader.build_body, YouTubeUploader._build_description,
    YouTubeUploader.replace_spaces.
  mono.
Qed.

Lemma keeps_MediaFileUpload E path :
  keeps R (YouTubeUploader.MediaFileUpload E path).
Proof.
  intros w. unfold YouTubeUploader.MediaFileUpload.
  destruct (open_media E path (files w !! path)); apply frame_refl.
Qed.

(** The loop keeps whatever one call to [next_chunk] keeps. *)
Lemma keeps_execute_upload E request :
  keeps R (YouTubeUploader.request_next_chunk E request) ->
  forall fuel, keeps R (YouTubeUploader._execute_upload E fuel request).
Proof.
  intros Hchunk.
  induction fuel as [| fuel IH]; cbn [YouTubeUploader._execute_upload]; mono.
Qed.

End KeepsUpload.

Lemma monotone_issue c : monotone (YouTubeUploader.issue c).
Proof.
  intros w. split; cbn; try reflexivity. apply prefix_app_r. reflexivity.
Qed.

Lemma monotone_request_next_chunk E request :
  monotone (YouTubeUploader.request_next_chunk E request).
Proof.
  intros w. unfold YouTubeUploader.request_next_chunk.
  destruct (next_chunk E (chunks w) request); split; reflexivity.
Qed.

Lemma quiet_request_next_chunk E request :
  keeps same_api_calls (YouTubeUploader.request_next_chunk E request).
Proof.
  intros w. unfold YouTubeUploader.request_next_chunk.
  destruct (next_chunk E (chunks w) request); reflexivity.
Qed.

#[local] Hint Resolve keeps_build_body keeps_MediaFileUpload
  monotone_issue monotone_request_next_chunk quiet_request_next_chunk : mono.

Lemma monotone_execute_upload E request fuel :
  monotone (YouTubeUploader._execute_upload E fuel request).
Proof. apply keeps_execute_upload; mono. Qed.

Lemma quiet_execute_upload E request fuel :
  keeps same_api_calls (YouTubeUploader._execute_upload E fuel request).
Proof. apply keeps_execute_upload; mono. Qed.

#[local] Hint Resolve monotone_execute_upload quiet_execute_upload : mono.

Lemma monotone_upload_video E config fuel video metadata thumbnail :
  monotone (YouTubeUploader.upload_video E config fuel video metadata thumbnail).
Proof. unfold YouTubeUploader.upload_video. mono. Qed.

(** ** The retry loop of the downloader *)

Section DownloadRetry.
Context (E : Env) (url : pyval) (path : string).

#[local] Abbreviation req := (ContentDownloader.download_request url).
#[local] Abbreviation answer := (fun n => transport E n req).
#[local] Abbreviation failed o := (is_Some (ContentDownloader.attempt_error o)).

#[local] Abbreviation delivery := (ContentDownloader.delivery E url path).

(** One pass through the loop body, by the transport's answer. *)
Lemma attempts_step attempt rest w :
  ContentDownloader.attempts E (attempt :: rest) url path w =
    let w1 := W.add_request req w in
    let retry msg :=
      ContentDownloader.attempts E rest url path
        (W.add_log
           (WARNING,
            "Download attempt " +:+ pretty (attempt + 1) +:+ " failed: "
            +:+ msg) w1) in
    match answer (length (requests w)) with
    | HttpRaise e =>
        if is_RequestException e then retry (exn_str e) else (Raise e, w1)
    | HttpResponse r =>
        if ContentDownloader.bad_status r then retry (http_error r)
        else delivery r w
    end.
Proof.
  cbn [ContentDownloader.attempts].
  unfold try_except, bind at 1, Sys.session_get.
  destruct (transport E (length (requests w)) req) as [e | r]; cbn.
  - destruct (is_RequestException e); reflexivity.
  - unfold bind at 1, Sys.raise_for_status, ContentDownloader.bad_status.
    destruct ((400 <=? status_code r) && (status_code r <? 600));
      [reflexivity |].
    cbn [ret]. unfold bind, Sys.write_file, ContentDownloader.delivery.
    rewrite (write_effect_same E path _ w (W.add_request req w))
      by reflexivity.
    destruct (Sys.write_effect E path (RawBytes (content r)) w)
      as [[e |] after_write] eqn:Hwrite; cbn; [| reflexivity].
    rewrite (write_effect_kind _ _ _ _ _ _ Hwrite). reflexivity.
Qed.

Lemma attempts_exhausted range : forall w,
  (forall i, (i < length range)%nat ->
             failed (answer (length (requests w) + i)%nat)) ->
  exists w',
    ContentDownloader.attempts E range url path w =
      (Raise (Exn ConnectionError
                ("Failed to download " +:+ Builtins.str E url
                 +:+ " after 3 attempts")), w')
    /\ requests w' = requests w ++ repeat req (length range)
    /\ log w' =
         log w
         ++ ContentDownloader.warning_lines E url (length (requests w)) range
    /\ files w' = files w.
Proof.
  induction range as [| attempt rest IH]; intros w Hfail.
  - exists w. cbn. rewrite !app_nil_r. auto.
  - rewrite attempts_step. cbn zeta.
    pose proof (Hfail 0%nat ltac:(cbn; lia)) as H0.
    rewrite Nat.add_0_r in H0.
    set (line := fun msg : string =>
           (WARNING,
            "Download attempt " +:+ pretty (attempt + 1) +:+ " failed: "
            +:+ msg)).
    assert (Hnext : forall msg,
               let w2 := W.add_log (line msg) (W.add_request req w) in
               forall i, (i < length rest)%nat ->
                 failed (answer (length (requests w2) + i)%nat)).
    { intros msg w2 i Hi. subst w2. cbn. rewrite length_app. cbn.
      replace (length (requests w) + 1 + i)%nat
        with (length (requests w) + S i)%nat by lia.
      apply Hfail. cbn. lia. }
    assert (Hshape : forall msg,
               ContentDownloader.attempt_error (answer (length (requests w)))
                 = Some (Exn RequestException msg)
               \/ (exists e, ContentDownloader.attempt_error
                               (answer (length (requests w))) = Some e
                             /\ exn_str e = msg) ->
               exists w',
                 ContentDownloader.attempts E rest url path
                   (W.add_log (line msg) (W.add_request req w)) =
                   (Raise (Exn ConnectionError
                             ("Failed to download " +:+ Builtins.str E url
                              +:+ " after 3 attempts")), w')
                 /\ requests w' =
                      requests w ++ repeat req (length (attempt :: rest))
                 /\ log w' =
                      log w
                      ++ ContentDownloader.warning_lines E url
                           (length (requests w)) (attempt :: rest)
                 /\ files w' = files w).
    { intros msg Hmsg.
      destruct (IH _ (Hnext msg)) as (w' & Hrun & Hreq & Hlog & Hfiles).
      exists w'. split; [exact Hrun |]. cbn in Hreq, Hlog, Hfiles.
      rewrite length_app in Hlog. cbn in Hlog.
      rewrite Nat.add_1_r in Hlog.
      split; [| split].
      - rewrite Hreq, <- app_assoc. reflexivity.
      - rewrite Hlog, <- app_assoc. cbn. do 3 f_equal.
        destruct Hmsg as [-> | (e & -> & <-)]; reflexivity.
      - exact Hfiles. }
    destruct (transport E (length (requests w)) req) as [e | r] eqn:Hans;
      cbn in H0.
    + destruct (is_RequestException e) eqn:He.
      * apply Hshape. right. exists e. cbn. rewrite He. auto.
      * destruct H0 as [? [=]].
    + destruct (ContentDownloader.bad_status r) eqn:Hr.
      * apply Hshape. left. cbn. rewrite Hr. reflexivity.
      * destruct H0 as [? [=]].
Qed.

Lemma attempts_retry attempt rest w :
  failed (answer (length (requests w))) ->
  ContentDownloader.attempts E (attempt :: rest) url path w =
    ContentDownloader.attempts E rest url path
      (W.add_log
         (hd (WARNING, "")
            (ContentDownloader.warning_lines E url (length (requests w))
               [attempt]))
         (W.add_request req w)).
Proof.
  intros Hfail. rewrite attempts_step. cbn. revert Hfail.
  destruct (transport E (length (requests w)) req) as [e | r]; cbn.
  - destruct (is_RequestException e); [reflexivity | intros [? [=]]].
  - destruct (ContentDownloader.bad_status r); [reflexivity | intros [? [=]]].
Qed.

Lemma attempts_deliver attempt rest resp w :
  ContentDownloader.attempt_success (answer (length (requests w))) = Some resp ->
  ContentDownloader.attempts E (attempt :: rest) url path w =
    delivery resp w.
Proof.
  intros Hok. rewrite attempts_step. cbn zeta. revert Hok.
  destruct (transport E (length (requests w)) req) as [e | r]; cbn.
  - intros [=].
  - destruct (ContentDownloader.bad_status r); [intros [=] |].
    intros [= ->]. reflexivity.
Qed.

(** After [pre] failed passes the next one receives [resp]: the write
    of its content decides how the loop ends. *)
Lemma attempts_succeed pre : forall attempt post resp w,
  (forall i, (i < length pre)%nat ->
             failed (answer (length (requests w) + i)%nat)) ->
  ContentDownloader.attempt_success
    (answer (length (requests w) + length pre)%nat) = Some resp ->
  exists w',
    ContentDownloader.attempts E (pre ++ attempt :: post) url path w =
      (match fst (Sys.write_effect E path (RawBytes (content resp)) w) with
       | Some e => Raise e
       | None => Return path
       end, w')
    /\ requests w' = requests w ++ repeat req (S (length pre))
    /\ log w' =
         log w ++ ContentDownloader.warning_lines E url (length (requests w)) pre
    /\ files w' =
         snd (Sys.write_effect E path (RawBytes (content resp)) w).
Proof.
  induction pre as [| a pre IH]; intros attempt post resp w Hfail Hok.
  - cbn in Hok. rewrite Nat.add_0_r in Hok. cbn [app].
    rewrite (attempts_deliver _ _ resp) by exact Hok.
    unfold ContentDownloader.delivery.
    destruct (Sys.write_effect E path (RawBytes (content resp)) w)
      as [error after_write].
    eexists. split; [reflexivity |]. cbn. rewrite app_nil_r. auto.
  - cbn [app]. rewrite attempts_retry.
    2:{ specialize (Hfail 0%nat ltac:(cbn; lia)).
        rewrite Nat.add_0_r in Hfail. exact Hfail. }
    set (w2 := W.add_log _ _).
    assert (Hlen : length (requests w2) = S (length (requests w))).
    { subst w2. cbn. rewrite length_app. cbn. lia. }
    assert (Hsame : Sys.write_effect E path (RawBytes (content resp)) w2 =
                    Sys.write_effect E path (RawBytes (content resp)) w).
    { apply write_effect_same; reflexivity. }
    destruct (IH attempt post resp w2) as (w' & Hrun & Hreq & Hlog & Hfiles).
    + intros i Hi. rewrite Hlen.
      replace (S (length (requests w)) + i)%nat
        with (length (requests w) + S i)%nat by lia.
      apply Hfail. cbn. lia.
    + rewrite Hlen.
      replace (S (length (requests w)) + length pre)%nat
        with (length (requests w) + length (a :: pre))%nat by (cbn; lia).
      exact Hok.
    + exists w'. rewrite Hsame in Hrun, Hfiles.
      split; [exact Hrun |]. rewrite Hlen in Hlog.
      subst w2. cbn in Hreq, Hlog.
      rewrite Hreq, Hlog, <- !app_assoc. auto.
Qed.

(** The loop issues one GET per pass and never more passes than [range]. *)
Lemma attempts_bounded range : forall w,
  exists k, (k <= length range)%nat
    /\ requests (snd (ContentDownloader.attempts E range url path w)) =
         requests w ++ repeat req k.
Proof.
  induction range as [| attempt rest IH]; intros w.
  - exists 0%nat. cbn. rewrite app_nil_r. auto.
  - rewrite attempts_step. cbn zeta.
    assert (Hretry : forall entry,
      exists k, (k <= length (attempt :: rest))%nat
        /\ requests
             (snd (ContentDownloader.attempts E rest url path
                     (W.add_log entry (W.add_request req w)))) =
             requests w ++ repeat req k).
    { intros entry.
      destruct (IH (W.add_log entry (W.add_request req w))) as (k & Hk & Hreq).
      exists (S k). split; [cbn; lia |].
      rewrite Hreq. cbn. rewrite <- app_assoc. reflexivity. }
    assert (Hone : forall o : outcome string * World,
              requests (snd o) = requests w ++ [req] ->
              exists k, (k <= length (attempt :: rest))%nat
                /\ requests (snd o) = requests w ++ repeat req k).
    { intros o Ho. exists 1%nat. cbn. split; [lia | exact Ho]. }
    destruct (transport E (length (requests w)) req) as [e | r].
    + destruct (is_RequestException e);
        [apply Hretry | apply Hone; reflexivity].
    + destruct (ContentDownloader.bad_status r); [apply Hretry |].
      apply Hone. unfold ContentDownloader.delivery.
      destruct (Sys.write_effect E path (RawBytes (content r)) w).
      reflexivity.
Qed.

End DownloadRetry.

Lemma warnings_app l1 l2 :
  logging.warnings (l1 ++ l2) = (logging.warnings l1 + logging.warnings l2)%nat.
Proof.
  unfold logging.warnings.
  rewrite List.filter_app, length_app. reflexivity.
Qed.

Lemma warnings_warning_lines E url range : forall n,
  logging.warnings (ContentDownloader.warning_lines E url n range) =
    length range.
Proof.
  induction range as [| a rest IH]; intros n; [reflexivity |].
  cbn [ContentDownloader.warning_lines]. unfold logging.warnings in *.
  cbn. f_equal. apply IH.
Qed.

Lemma write_effect_done E path b w :
  fst (Sys.write_effect E path b w) = None ->
  snd (Sys.write_effect E path b w) = <[path := b]> (files w).
Proof.
  unfold Sys.write_effect.
  destruct (Sys.open_error path w); [discriminate |].
  destruct (open_io E path); [discriminate |].
  destruct (write_io E path b) as [[msg partial] |];
    [discriminate | reflexivity].
Qed.

(** C2 (as amended).  [_download_file] issues at most three GETs, each
    of them for [url] with a timeout of 10 and nothing else.  The target
    is [CONTENT_DIR / filename].  When the first [k] attempts fail with a
    RequestException and attempt [k+1 <= 3] receives a good response,
    the content is written to the target and the loop ends there, having
    logged exactly [k] warnings (two for a transport that fails twice
    and then succeeds): it returns the target when the write succeeds,
    and the file then holds the content; when opening or writing the
    target fails it raises that error at once, without another attempt.
    When all three attempts fail it raises the ConnectionError "Failed
    to download <url> after 3 attempts" after exactly three GETs, and no
    file has changed. *)
Theorem download_file_retry (E : Env) (url : pyval) (filename : string)
    (w : World) :
  let req :=
    {| req_url := url; req_headers := []; req_params := [];
       req_timeout := Some 10 |} in
  let path := Sys.path_join (Sys.CONTENT_DIR E) filename in
  let answer i := transport E (length (requests w) + i)%nat req in
  let run := ContentDownloader._download_file E url filename w in
  (exists k, (k <= 3)%nat /\ requests (snd run) = requests w ++ repeat req k)
  /\ (forall k resp,
        (k < 3)%nat ->
        (forall i, (i < k)%nat ->
                   is_Some (ContentDownloader.attempt_error (answer i))) ->
        ContentDownloader.attempt_success (answer k) = Some resp ->
        let written :=
          Sys.write_effect E path (RawBytes (content resp)) w in
        fst run =
          match fst written with
          | None => Return path
          | Some e => Raise e
          end
        /\ files (snd run) = snd written
        /\ (fst written = None ->
            files (snd run) = <[path := RawBytes (content resp)]> (files w))
        /\ requests (snd run) = requests w ++ repeat req (S k)
        /\ logging.warnings (log (snd run)) = (logging.warnings (log w) + k)%nat
        /\ log (snd run) =
             log w
             ++ ContentDownloader.warning_lines E url (length (requests w))
                  (firstn k [0; 1; 2]))
  /\ ((forall i, (i < 3)%nat ->
                 is_Some (ContentDownloader.attempt_error (answer i))) ->
      fst run =
        Raise (Exn ConnectionError
                 ("Failed to download " +:+ Builtins.str E url
                  +:+ " after 3 attempts"))
      /\ requests (snd run) = requests w ++ repeat req 3
      /\ logging.warnings (log (snd run)) = (logging.warnings (log w) + 3)%nat
      /\ files (snd run) = files w).
Proof.
  intros req path answer run. subst run.
  unfold ContentDownloader._download_file. fold path.
  change req with (ContentDownloader.download_request url) in *.
  split; [| split].
  - apply (attempts_bounded E url path [0; 1; 2] w).
  - intros k resp Hk Hfail Hok. cbv zeta.
    set (written := Sys.write_effect E path (RawBytes (content resp)) w).
    assert (Hlen : length (firstn k [0; 1; 2]) = k).
    { rewrite length_firstn. cbn. lia. }
    assert (Hsplit : exists attempt post,
               [0; 1; 2] = firstn k [0; 1; 2] ++ attempt :: post).
    { destruct k as [| [| [| k]]]; [| | | lia]; cbn; eauto. }
    destruct Hsplit as (attempt & post & Hsplit).
    destruct (attempts_succeed E url path (firstn k [0; 1; 2]) attempt post
                resp w) as (w' & Hrun & Hreq & Hlog & Hfiles).
    + rewrite Hlen. exact Hfail.
    + rewrite Hlen. exact Hok.
    + rewrite <- Hsplit in Hrun. rewrite Hrun. cbn [fst snd].
      rewrite Hlen in Hreq. fold written in Hfiles |- *.
      split; [destruct (fst written); reflexivity |].
      split; [exact Hfiles |].
      split; [intros Hdone; rewrite Hfiles; apply write_effect_done, Hdone |].
      split; [exact Hreq |].
      split; [| exact Hlog].
      rewrite Hlog, warnings_app, warnings_warning_lines, Hlen. reflexivity.
  - intros Hfail.
    destruct (attempts_exhausted E url path [0; 1; 2] w Hfail)
      as (w' & Hrun & Hreq & Hlog & Hfiles).
    rewrite Hrun. cbn [fst snd]. repeat split; try assumption.
    rewrite Hlog, warnings_app, warnings_warning_lines. reflexivity.
Qed.

(** A transport that times out, answers 503 and then delivers. *)
Lemma download_file_retry_witness :
  let E :=
    Demo.env [Demo.timeout; Demo.unavailable; Demo.ok "bytes" Demo.not_json]
      0 10 (Demo.one_chunk PNone) in
  let run :=
    ContentDownloader._download_file E (PStr Demo.link) "pexels_857195.mp4"
      Demo.world in
  fst run = Return "/srv/machine/content/pexels_857195.mp4"
  /\ files (snd run) !! "/srv/machine/content/pexels_857195.mp4"
     = Some (RawBytes "bytes")
  /\ logging.warnings (log (snd run)) = 2%nat
  /\ length (requests (snd run)) = 3%nat.
Proof.
  intros E run.
  destruct (download_file_retry E (PStr Demo.link) "pexels_857195.mp4"
              Demo.world) as (_ & Hsucc & _).
  destruct (Hsucc 2%nat
              {| status_code := 200; http_error := ""; content := "bytes";
                 json_body := Demo.not_json |})
    as (Hret & _ & Hfiles & Hreq & Hwarn & _).
  - lia.
  - intros i Hi. destruct i as [| [| i]]; [vm_compute; eauto .. | lia].
  - reflexivity.
  - subst run. rewrite Hret, Hwarn, Hreq, Hfiles by reflexivity.
    repeat split.
Defined.

(** The same transport with a file name in a directory that does not
    exist: the third attempt receives the content, but opening the
    target raises, and that error is what the caller gets; no download
    error is raised and nothing is written. *)
Example download_file_missing_directory :
  let E :=
    Demo.env [Demo.timeout; Demo.unavailable; Demo.ok "bytes" Demo.not_json]
      0 10 (Demo.one_chunk PNone) in
  let run :=
    ContentDownloader._download_file E (PStr Demo.link)
      "clips/pexels_857195.mp4" Demo.world in
  fst run =
    Raise (Exn OSError
             ("[Errno 2] No such file or directory: "
              +:+ "'/srv/machine/content/clips/pexels_857195.mp4'"))
  /\ files (snd run) = ∅
  /\ logging.warnings (log (snd run)) = 2%nat
  /\ length (requests (snd run)) = 3%nat.
Proof. vm_compute. repeat split. Qed.

(** ** The search and the choice of a candidate *)

Lemma logged_bind {A B} label (m : M A) (k : A -> M B) w :
  logged label (bind m k) w =
    match m w with
    | (Return a, w1) => logged label (k a) w1
    | (Raise e, w1) =>
        (Raise e, W.add_log (ERROR, label +:+ ": " +:+ exn_str e) w1)
    | (OutOfFuel, w1) => (OutOfFuel, w1)
    end.
Proof.
  unfold logged, try_except, bind. destruct (m w) as [[a | e |] w1]; reflexivity.
Qed.

Lemma logged_raise {A} label e w :
  @logged A label (raise e) w =
    (Raise e, W.add_log (ERROR, label +:+ ": " +:+ exn_str e) w).
Proof. reflexivity. Qed.

Section Search.
Context (E : Env) (config : Config) (query : string) (duration : Z).

#[local] Abbreviation sreq :=
  (ContentDownloader.search_request config query duration).

(** The run up to the point where the response has been parsed. *)
Lemma get_pexels_video_parsed w resp d :
  transport E (length (requests w)) sreq = HttpResponse resp ->
  ContentDownloader.bad_status resp = false ->
  json_body resp = inr (PDict d) ->
  ContentDownloader.get_pexels_video E config query duration w =
    logged "Pexels video fetch failed"
      (let videos :=
         match Py.assoc "videos" d with Some v => v | None => PList [] end in
       if negb (Py.truthy videos)
       then raise (Exn ValueError "No videos found matching criteria")
       else
         let* video := Sys.choice_value E videos in
         ContentDownloader.fetch_candidate E video)
      (W.add_request sreq w).
Proof.
  intros Hans Hstatus Hjson. unfold ContentDownloader.get_pexels_video.
  rewrite logged_bind. unfold Sys.session_get. rewrite Hans.
  rewrite logged_bind. unfold Sys.raise_for_status.
  unfold ContentDownloader.bad_status in Hstatus. rewrite Hstatus.
  cbn [ret]. rewrite logged_bind, Hjson. cbn [lift ret].
  rewrite logged_bind. cbn [Builtins.get].
  destruct (Py.assoc "videos" d); reflexivity.
Qed.

Lemma get_pexels_video_first_request w :
  exists later,
    requests (snd (ContentDownloader.get_pexels_video E config query duration w))
    = requests w ++ sreq :: later.
Proof.
  unfold ContentDownloader.get_pexels_video. rewrite logged_bind.
  unfold Sys.session_get.
  destruct (transport E (length (requests w)) sreq) as [e | resp].
  - exists []. reflexivity.
  - match goal with
    | |- context [logged ?l ?m ?w1] =>
        assert (Hm : monotone (logged l m)) by mono;
        destruct (grows_requests _ _ (Hm w1)) as [later Hlater]
    end.
    exists later. rewrite Hlater. cbn. rewrite <- app_assoc. reflexivity.
Qed.

End Search.

(** C6. When the search answers with no candidate (the "videos" entry is
    missing or the empty list), [get_pexels_video] raises the ValueError
    "No videos found matching criteria"; the search is the only GET
    issued and no file is written. *)
Theorem no_results_no_download (E : Env) (config : Config) (query : string)
    (duration : Z) (w : World) (resp : response) (d : list (string * pyval)) :
  let sreq := ContentDownloader.search_request config query duration in
  let run := ContentDownloader.get_pexels_video E config query duration w in
  transport E (length (requests w)) sreq = HttpResponse resp ->
  ContentDownloader.bad_status resp = false ->
  json_body resp = inr (PDict d) ->
  Py.assoc "videos" d = None \/ Py.assoc "videos" d = Some (PList []) ->
  fst run = Raise (Exn ValueError "No videos found matching criteria")
  /\ requests (snd run) = requests w ++ [sreq]
  /\ files (snd run) = files w
  /\ log (snd run) =
       log w
       ++ [(ERROR,
            "Pexels video fetch failed: No videos found matching criteria")].
Proof.
  intros sreq run Hans Hstatus Hjson Hnone. subst run.
  rewrite (get_pexels_video_parsed E config query duration w resp d)
    by assumption.
  destruct Hnone as [-> | ->]; cbn; auto.
Qed.

Lemma no_results_no_download_witness :
  let E := Demo.env [Demo.found []] 0 10 (Demo.one_chunk PNone) in
  let run :=
    ContentDownloader.get_pexels_video E Demo.config "exercise motivation" 15
      Demo.world in
  fst run = Raise (Exn ValueError "No videos found matching criteria")
  /\ length (requests (snd run)) = 1%nat
  /\ files (snd run) = ∅.
Proof.
  intros E run.
  destruct (no_results_no_download E Demo.config "exercise motivation" 15
              Demo.world
              {| status_code := 200; http_error := ""; content := "";
                 json_body := inr (PDict [("videos", PList [])]) |}
              [("videos", PList [])])
    as (Hraise & Hreq & Hfiles & _).
  - reflexivity.
  - reflexivity.
  - reflexivity.
  - right. reflexivity.
  - subst run. rewrite Hraise, Hreq, Hfiles. repeat split.
Defined.

(** C9.  The first GET of the call is the search: the Pexels endpoint
    with the API key as Authorization header, no timeout, and the
    parameters query, orientation=portrait, per_page=20 and the window
    [duration - 2, duration + 2].  When the answer lists candidates [l],
    [random.choice] is applied once to the whole list.  Its index is what
    [_randbelow] makes of the generator: with [n] candidates and [k] the
    bit length of [n], each round draws a value of [k] bits; a value
    below [n] is the index, any other is dropped and the next round
    draws again.  For each candidate exactly one of the [2^k] values of
    a round selects it, and a round can take it.  With fewer than 2^32
    candidates the value of a round is the top [k] bits of one word of
    the generator, so that each value is drawn by the same number of
    words, the [2^(32-k)] of one interval: words that are uniform make
    the rounds, and with them the choice, uniform. *)
Theorem search_request_and_choice (E : Env) (config : Config)
    (query : string) (duration : Z) (w : World) :
  let sreq :=
    {| req_url := PStr "https://api.pexels.com/videos/search";
       req_headers := [("Authorization", pexels_api_key config)];
       req_params :=
         [("query", PStr query); ("orientation", PStr "portrait");
          ("per_page", PInt 20); ("min_duration", PInt (duration - 2));
          ("max_duration", PInt (duration + 2))];
       req_timeout := None |} in
  let run := ContentDownloader.get_pexels_video E config query duration w in
  (exists later, requests (snd run) = requests w ++ sreq :: later)
  /\ (forall resp d l,
        transport E (length (requests w)) sreq = HttpResponse resp ->
        ContentDownloader.bad_status resp = false ->
        json_body resp = inr (PDict d) ->
        Py.assoc "videos" d = Some (PList l) ->
        l <> [] ->
        let n := N.of_nat (length l) in
        let drawn := Sys.below n (entropy E (draws w)) in
        (fst drawn < n)%N
        /\ run =
             logged "Pexels video fetch failed"
               (ContentDownloader.fetch_candidate E
                  (nth (N.to_nat (fst drawn)) l PNone))
               (W.draw_words (snd drawn) (W.add_request sreq w)))
  /\ (forall n raw,
        (0 < n)%N ->
        let k := N.size n in
        let v := Sys.getrandbits k raw in
        (v < 2 ^ k)%N
        /\ Sys.below n raw =
             match Sys.kept n v with
             | Some r => (r, Sys.words_for k)
             | None =>
                 let (r, drawn) :=
                   Sys.below n (Sys.after (Sys.words_for k) raw) in
                 (r, (Sys.words_for k + drawn)%nat)
             end)
  /\ (forall n i,
        (i < n)%N ->
        (exists raw, Sys.getrandbits (N.size n) raw = i)
        /\ Sys.kept n i = Some i
        /\ length
             (List.filter
                (fun v => bool_decide (Sys.kept n (N.of_nat v) = Some i))
                (seq 0 (2 ^ N.to_nat (N.size n)))) = 1%nat)
  /\ (forall n raw v,
        (0 < n)%N -> (n < 2 ^ 32)%N ->
        let k := N.size n in
        Sys.getrandbits k raw = v <->
        (v * 2 ^ (32 - k) <= Sys.word raw < (v + 1) * 2 ^ (32 - k))%N).
Proof.
  intros sreq run.
  change sreq with (ContentDownloader.search_request config query duration)
    in *.
  split; [| split; [| split; [| split]]].
  - apply get_pexels_video_first_request.
  - intros resp d l Hans Hstatus Hjson Hvideos Hl n drawn.
    assert (Hn : (0 < n)%N).
    { unfold n. destruct l; [congruence | cbn; lia]. }
    split; [apply below_lt, Hn |]. subst run.
    rewrite (get_pexels_video_parsed E config query duration w resp d)
      by assumption.
    rewrite Hvideos. destruct l as [| x l]; [congruence |].
    cbn [Py.truthy negb]. cbv zeta. rewrite logged_bind.
    cbn [Sys.choice_value]. rewrite choice_run.
    change (draws (W.add_request _ w)) with (draws w). fold n drawn.
    f_equal. f_equal. apply nth_indep.
    pose proof (below_lt n (entropy E (draws w)) Hn) as Hlt.
    fold drawn in Hlt. revert Hlt. unfold n. generalize (fst drawn).
    intros r Hr. lia.
  - intros n raw Hn k v. split.
    + apply getrandbits_range. unfold k.
      rewrite N.size_log2 by lia. lia.
    + apply below_round, Hn.
  - intros n i Hi. split; [| split].
    + apply getrandbits_onto.
      * rewrite N.size_log2 by lia. lia.
      * pose proof (N.size_gt n). lia.
    + unfold Sys.kept. destruct (N.ltb_spec i n); [reflexivity | lia].
    + apply kept_once, Hi.
  - intros n raw v Hn Hmax k. apply getrandbits_word.
    + unfold k. rewrite N.size_log2 by lia. lia.
    + unfold k. rewrite N.size_log2 by lia.
      apply (N.log2_lt_pow2 n 32 Hn) in Hmax. lia.
Qed.

(** Three candidates, so rounds of two bits: the first word gives 3,
    which is dropped, the second gives 1, the second candidate. *)
Lemma search_request_and_choice_witness :
  let E :=
    Demo.env
      [Demo.found [Demo.candidate 1 "https://a"; Demo.candidate 2 "https://b";
                   Demo.candidate 3 "https://c"];
       Demo.ok "bytes" Demo.not_json]
      (3221225472 + 2 ^ 32 * 1073741824) 10 (Demo.one_chunk PNone) in
  ContentDownloader.get_pexels_video E Demo.config "exercise motivation" 15
    Demo.world =
  logged "Pexels video fetch failed"
    (ContentDownloader.fetch_candidate E (Demo.candidate 2 "https://b"))
    (W.draw_words 2
       (W.add_request
          (ContentDownloader.search_request Demo.config "exercise motivation"
             15)
          Demo.world)).
Proof.
  intros E.
  destruct (search_request_and_choice E Demo.config "exercise motivation" 15
              Demo.world) as (_ & Hchoice & _).
  destruct (Hchoice
              {| status_code := 200; http_error := ""; content := "";
                 json_body :=
                   inr (PDict
                          [("videos",
                            PList [Demo.candidate 1 "https://a";
                                   Demo.candidate 2 "https://b";
                                   Demo.candidate 3 "https://c"])]) |}
              [("videos",
                PList [Demo.candidate 1 "https://a";
                       Demo.candidate 2 "https://b";
                       Demo.candidate 3 "https://c"])]
              [Demo.candidate 1 "https://a"; Demo.candidate 2 "https://b";
               Demo.candidate 3 "https://c"])
    as (_ & Hrun).
  - reflexivity.
  - reflexivity.
  - reflexivity.
  - reflexivity.
  - discriminate.
  - exact Hrun.
Defined.

(** ** Background music *)

Section Music.
Context (E : Env).

#[local] Abbreviation music_dir := (Sys.path_join (Sys.CONTENT_DIR E) "music").

(** Without a music directory the clip passes through unchanged. *)
Lemma add_music_absent clip w :
  fst (Sys.exists_ music_dir w) = Return false ->
  VideoEditor.add_music E clip w = (Return clip, w).
Proof.
  unfold VideoEditor.add_music, bind at 1, Sys.exists_. cbn.
  intros [= ->]. reflexivity.
Qed.

(** With tracks in it, one of them is mixed in at volume 0.3. *)
Lemma add_music_present clip w track tracks :
  fst (Sys.exists_ music_dir w) = Return true ->
  fst (Sys.glob_suffix music_dir ".mp3" w) = Return (track :: tracks) ->
  let drawn :=
    Sys.below (N.of_nat (S (length tracks))) (entropy E (draws w)) in
  let chosen := nth (N.to_nat (fst drawn)) (track :: tracks) track in
  decode_audio E chosen = None ->
  VideoEditor.add_music E clip w =
    (Return
       (VideoEditor.set_audio clip
          {| audio_source := chosen; audio_volume := 3 # 10 |}),
     W.draw_words (snd drawn) w).
Proof.
  unfold VideoEditor.add_music, bind at 1, Sys.exists_. cbn [fst].
  intros [= ->]. unfold bind at 1, Sys.glob_suffix. cbn [fst].
  intros [= ->]. cbv zeta. intros Hdecode.
  unfold bind at 1. rewrite choice_run. cbn [length].
  unfold bind at 1. rewrite Hdecode. reflexivity.
Qed.

Lemma add_music_empty clip w :
  fst (Sys.exists_ music_dir w) = Return true ->
  fst (Sys.glob_suffix music_dir ".mp3" w) = Return [] ->
  VideoEditor.add_music E clip w =
    (Raise (Exn IndexError "Cannot choose from an empty sequence"), w).
Proof.
  unfold VideoEditor.add_music, bind at 1, Sys.exists_. cbn [fst].
  intros [= ->]. unfold bind at 1, Sys.glob_suffix. cbn [fst].
  intros [= ->]. reflexivity.
Qed.

End Music.

(** Of the entries "intro.mp3", "notes.txt" and "loop.mp3" only the two
    tracks are candidates, and the one chosen is mixed in at volume 0.3. *)
Example add_music_demo :
  let E := Demo.env [] (2 ^ 30) 10 (Demo.one_chunk PNone) in
  let w := Demo.with_music ["intro.mp3"; "notes.txt"; "loop.mp3"] in
  fst (Sys.glob_suffix "/srv/machine/content/music" ".mp3" w) =
    Return ["/srv/machine/content/music/intro.mp3";
            "/srv/machine/content/music/loop.mp3"]
  /\ fst (VideoEditor.add_music E (Demo.source 10) w) =
       Return
         (VideoEditor.set_audio (Demo.source 10)
            {| audio_source := "/srv/machine/content/music/loop.mp3";
               audio_volume := 3 # 10 |}).
Proof. vm_compute. auto. Qed.

(** C3 (the code departs from it).  When the music directory exists and
    holds no ".mp3" entry, the music step raises the IndexError of
    [random.choice] on an empty list: [process_video] does not complete,
    whatever the collaborators do, and writes no output. *)
Theorem empty_music_directory_raises (E : Env) (input output text : string)
    (w : World) :
  let music_dir := Sys.path_join (Sys.CONTENT_DIR E) "music" in
  let run := VideoEditor.process_video E input output text w in
  fst (Sys.exists_ music_dir w) = Return true ->
  fst (Sys.glob_suffix music_dir ".mp3" w) = Return [] ->
  (forall clip,
     VideoEditor.add_music E clip w =
       (Raise (Exn IndexError "Cannot choose from an empty sequence"), w))
  /\ (exists e, fst run = Raise e)
  /\ files (snd run) = files w
  /\ (forall clip,
        decode_video E input (files w !! input) = inr clip ->
        (forall overlay, render_text E overlay = None) ->
        run =
          (Raise (Exn IndexError "Cannot choose from an empty sequence"),
           W.add_log
             (ERROR,
              "Video processing failed: Cannot choose from an empty sequence")
             w)).
Proof.
  intros music_dir run Hexists Hglob.
  pose proof (fun clip => add_music_empty E clip w Hexists Hglob) as Hmusic.
  split; [exact Hmusic |]. subst run.
  unfold VideoEditor.process_video. rewrite logged_bind.
  unfold VideoEditor.VideoFileClip.
  destruct (decode_video E input (files w !! input)) as [e | clip];
    cbn [lift raise ret].
  - split; [eauto |]. split; [reflexivity |]. intros ? [=].
  - rewrite logged_bind.
    match goal with
    | |- context [check (render_text E ?o)] => destruct (render_text E o) eqn:Hr
    end; cbn [check raise ret].
    + split; [eauto |]. split; [reflexivity |].
      intros ? _ Hrender. rewrite Hrender in Hr. discriminate.
    + rewrite logged_bind, Hmusic.
      split; [eauto |]. split; [reflexivity |]. intros ? _ _. reflexivity.
Qed.

Lemma empty_music_directory_raises_witness :
  let E := Demo.env [] 0 10 (Demo.one_chunk PNone) in
  let w :=
    W.set_files
      (<["/srv/machine/content/pexels_857195.mp4" := RawBytes "bytes"]> ∅)
      (Demo.with_music []) in
  VideoEditor.process_video E "/srv/machine/content/pexels_857195.mp4"
    "/srv/machine/temp/processed.mp4" "5 SECONDS HACKS!" w =
  (Raise (Exn IndexError "Cannot choose from an empty sequence"),
   W.add_log
     (ERROR, "Video processing failed: Cannot choose from an empty sequence")
     w).
Proof.
  intros E w.
  destruct (empty_music_directory_raises E
              "/srv/machine/content/pexels_857195.mp4"
              "/srv/machine/temp/processed.mp4" "5 SECONDS HACKS!" w)
    as (_ & _ & _ & Hrun).
  - vm_compute. reflexivity.
  - vm_compute. reflexivity.
  - apply (Hrun (Demo.source 10)); reflexivity.
Defined.

(** ** The frame timestamp *)

Lemma random_unit E w :
  exists u, (0 <= u)%Q /\ (u < 1)%Q
    /\ Sys.random E w = (Return u, W.draw_words 2 w).
Proof.
  eexists. split; [| split]; [| | apply random_run].
  - unfold Qle. cbn [Qnum Qden]. lia.
  - unfold Qlt. cbn [Qnum Qden]. rewrite Z.mul_1_r, Z.mul_1_l.
    change (Z.pos (2 ^ 53)) with (Z.of_N (2 ^ 53)). apply N2Z.inj_lt.
    set (raw := entropy E (draws w)).
    assert (Ha : (N.shiftr (Sys.word raw) 5 < 2 ^ 27)%N).
    { rewrite N.shiftr_div_pow2. apply N.Div0.div_lt_upper_bound.
      apply (word_lt raw). }
    assert (Hb : (N.shiftr (Sys.word (Sys.after 1 raw)) 6 < 2 ^ 26)%N).
    { rewrite N.shiftr_div_pow2. apply N.Div0.div_lt_upper_bound.
      apply (word_lt (Sys.after 1 raw)). }
    change (2 ^ 53)%N with (2 ^ 27 * 67108864)%N.
    change (2 ^ 26)%N with 67108864%N in Hb. lia.
Qed.

(** C1 (as amended).  [generate] has no check on the duration [d] of the
    clip: sampling never raises and yields, in double arithmetic,
    [1 + ((d - 1) - 1) * u] for the draw [u] of [random()],
    [0 <= u < 1].  For a double [d] with [2 < d < 2^53] this lies in the
    closed interval from 1 to [d - 1].  Whatever [d] is, the timestamp is
    passed to the frame extraction, so that [generate] returns the
    thumbnail path, with the frame of that timestamp saved, whenever
    decoding, frame extraction and saving succeed. *)
Theorem sampled_timestamp_range (E : Env) (video output text : string)
    (clip : Clip) (w : World) :
  let d := clip_duration clip in
  exists u, (0 <= u)%Q /\ (u < 1)%Q /\
    let t := Float.add 1 (Float.mul (Float.sub (Float.sub d 1) 1) u) in
    ThumbnailGenerator.sample_timestamp E clip w
      = (Return t, W.draw_words 2 w)
    /\ (Float.is_double d -> (2 < d)%Q -> (d < 2 ^ 53)%Q ->
        (1 <= t)%Q /\ (t <= d - 1)%Q)
    /\ (decode_video E video (files w !! video) = inr clip ->
        (exists frame, get_frame E clip t = inr frame) ->
        (forall img, save_image E output img = None) ->
        (forall img,
           fst (Sys.write_effect E output (SavedImage img) w) = None) ->
        fst (ThumbnailGenerator.generate E video output text w) = Return output
        /\ exists img,
             files (snd (ThumbnailGenerator.generate E video output text w))
               !! output = Some (SavedImage img)
             /\ img_timestamp img = t).
Proof.
  intros d. destruct (random_unit E w) as (u & Hu0 & Hu1 & Hrandom).
  exists u. split; [exact Hu0 |]. split; [exact Hu1 |]. intros t.
  assert (Hsample :
            ThumbnailGenerator.sample_timestamp E clip w
            = (Return t, W.draw_words 2 w)).
  { unfold ThumbnailGenerator.sample_timestamp, Sys.uniform, bind.
    rewrite Hrandom. reflexivity. }
  split; [exact Hsample |]. split.
  - intros Hd Hlo Hhi. apply uniform_between; assumption.
  - intros Hdecode [frame Hframe] Hsave Hwrite.
    unfold ThumbnailGenerator.generate. rewrite logged_bind.
    unfold VideoEditor.VideoFileClip. rewrite Hdecode. cbn [lift ret].
    rewrite logged_bind, Hsample, logged_bind. fold d. fold t.
    rewrite Hframe.
    cbn [lift ret]. destruct (textbbox E text) as [[[x0 y0] x1] y1].
    rewrite logged_bind, Hsave. cbn [check ret].
    rewrite logged_bind. unfold Sys.write_file.
    match goal with
    | |- context [Sys.write_effect E output (SavedImage ?i) ?w1] =>
        rewrite (write_effect_same E output (SavedImage i) w w1)
          by reflexivity;
        pose proof (Hwrite i) as Hdone;
        pose proof (write_effect_done E output (SavedImage i) w Hdone)
          as Hfiles;
        destruct (Sys.write_effect E output (SavedImage i) w)
          as [error after_write]
    end.
    cbn [fst snd] in Hdone, Hfiles. subst error after_write. cbn.
    split; [reflexivity |]. eexists. rewrite lookup_insert_eq.
    split; reflexivity.
Qed.

(** A clip of a second and a half still yields a thumbnail, and on a
    ten-second clip the timestamp lies between 1 and 9. *)
Lemma sampled_timestamp_range_witness :
  let w :=
    W.set_files (<["/srv/machine/temp/processed.mp4" := RawBytes "bytes"]> ∅)
      Demo.world in
  fst (ThumbnailGenerator.generate
         (Demo.env [] 0 (3 # 2) (Demo.one_chunk PNone))
         "/srv/machine/temp/processed.mp4" "/srv/machine/temp/thumbnail.jpg"
         "WATCH NOW!" w)
  = Return "/srv/machine/temp/thumbnail.jpg"
  /\ (exists t,
        fst (ThumbnailGenerator.sample_timestamp
               (Demo.env [] 12345 10 (Demo.one_chunk PNone)) (Demo.source 10)
               w) = Return t
        /\ (1 <= t)%Q /\ (t <= 9)%Q).
Proof.
  intros w. split.
  - destruct (sampled_timestamp_range
                (Demo.env [] 0 (3 # 2) (Demo.one_chunk PNone))
                "/srv/machine/temp/processed.mp4"
                "/srv/machine/temp/thumbnail.jpg" "WATCH NOW!"
                (Demo.source (3 # 2)) w)
      as (u & _ & _ & _ & _ & Hgen).
    destruct Hgen as (Hret & _).
    + reflexivity.
    + eexists. reflexivity.
    + reflexivity.
    + intros img. vm_compute. reflexivity.
    + exact Hret.
  - destruct (sampled_timestamp_range
                (Demo.env [] 12345 10 (Demo.one_chunk PNone))
                "/srv/machine/temp/processed.mp4"
                "/srv/machine/temp/thumbnail.jpg" "WATCH NOW!"
                (Demo.source 10) w)
      as (u & _ & _ & Hsample & Hlong & _).
    destruct Hlong as [Hlow Hhigh];
      [vm_compute; reflexivity | reflexivity | reflexivity |].
    eexists. rewrite Hsample. split; [reflexivity |].
    split; [exact Hlow |].
    change (10 - 1)%Q with 9%Q in Hhigh. exact Hhigh.
Defined.

(** C1 as the spec states it fails at both ends and below: on a
    ten-second clip the draw 0 gives the timestamp 1 and the largest
    draw, [1 - 2^-53], gives 9 after rounding, neither of which is
    inside the open interval; on a two-second clip [generate] samples
    the timestamp 1 and returns the thumbnail instead of raising. *)
Lemma thumbnail_sampling_counterexample :
  (exists t,
      fst (ThumbnailGenerator.sample_timestamp
             (Demo.env [] 0 10 (Demo.one_chunk PNone)) (Demo.source 10)
             Demo.world) = Return t
      /\ (2 < clip_duration (Demo.source 10))%Q
      /\ ~ (1 < t)%Q)
  /\ (exists t,
        fst (ThumbnailGenerator.sample_timestamp
               (Demo.env [] (2 ^ 64 - 1) 10 (Demo.one_chunk PNone))
               (Demo.source 10) Demo.world) = Return t
        /\ ~ (t < clip_duration (Demo.source 10) - 1)%Q)
  /\ (let w :=
        W.set_files
          (<["/srv/machine/temp/processed.mp4" := RawBytes "bytes"]> ∅)
          Demo.world in
      (clip_duration (Demo.source 2) <= 2)%Q
      /\ fst (ThumbnailGenerator.generate
                (Demo.env [] 0 2 (Demo.one_chunk PNone))
                "/srv/machine/temp/processed.mp4"
                "/srv/machine/temp/thumbnail.jpg" "WATCH NOW!" w)
         = Return "/srv/machine/temp/thumbnail.jpg").
Proof.
  split; [| split].
  - eexists. split; [reflexivity |]. split; [reflexivity |].
    intros H. vm_compute in H. discriminate.
  - eexists. split; [reflexivity |].
    intros H. vm_compute in H. discriminate.
  - split; [intros H; vm_compute in H; discriminate | reflexivity].
Qed.

(** ** Stages that need no fuel *)

Lemma total_ret {A} (a : A) : total (ret a).
Proof. intros w. discriminate. Qed.

Lemma total_raise {A} e : total (@raise A e).
Proof. intros w. discriminate. Qed.

Lemma total_bind {A B} (m : M A) (k : A -> M B) :
  total m -> (forall a, total (k a)) -> total (bind m k).
Proof.
  intros Hm Hk w. unfold bind. specialize (Hm w).
  destruct (m w) as [[a | e |] w1]; cbn in *; first [congruence | apply Hk].
Qed.

Lemma total_try_except {A} (m : M A) handles handler :
  total m -> (forall e, total (handler e)) ->
  total (try_except m handles handler).
Proof.
  intros Hm Hh w. unfold try_except. specialize (Hm w).
  destruct (m w) as [[a | e |] w1]; cbn in *; try congruence.
  all: destruct (handles e); [apply Hh | discriminate].
Qed.

Lemma total_emit lv msg : total (logging.emit lv msg).
Proof. intros w. discriminate. Qed.

Lemma total_warning msg : total (logging.warning msg).
Proof. apply total_emit. Qed.

Lemma total_error msg : total (logging.error msg).
Proof. apply total_emit. Qed.

Lemma total_logged {A} label (m : M A) : total m -> total (logged label m).
Proof.
  intros Hm. apply total_try_except; [exact Hm |].
  intros e. apply total_bind; [apply total_error |].
  intros _. apply total_raise.
Qed.

Lemma total_lift {A} (r : exn + A) : total (lift r).
Proof. destruct r; [apply total_raise | apply total_ret]. Qed.

Lemma total_check r : total (check r).
Proof. destruct r; [apply total_raise | apply total_ret]. Qed.

Lemma total_write_file E path b : total (Sys.write_file E path b).
Proof.
  intros w. unfold Sys.write_file.
  destruct (Sys.write_effect E path b w) as [[e |] after_write];
    discriminate.
Qed.

Lemma total_session_get E r : total (Sys.session_get E r).
Proof.
  intros w. unfold Sys.session_get.
  destruct (transport E (length (requests w)) r); discriminate.
Qed.

Lemma total_next_draw E : total (Sys.next_draw E).
Proof. intros w. discriminate. Qed.

Lemma total_exists path : total (Sys.exists_ path).
Proof. intros w. discriminate. Qed.

Lemma total_glob_suffix d suffix : total (Sys.glob_suffix d suffix).
Proof. intros w. discriminate. Qed.

Lemma total_VideoFileClip E path : total (VideoEditor.VideoFileClip E path).
Proof.
  intros w. unfold VideoEditor.VideoFileClip.
  destruct (decode_video E path (files w !! path)); discriminate.
Qed.

Create HintDb fin.

#[local] Hint Resolve total_ret total_raise total_emit total_warning
  total_error total_lift total_check total_write_file total_session_get
  total_next_draw total_exists total_glob_suffix total_VideoFileClip : fin.

Ltac fin :=
  repeat first
    [ progress intros
    | solve [auto with fin]
    | apply total_logged
    | apply total_bind
    | apply total_try_except
    | match goal with
      | |- total (match ?x with _ => _ end) => destruct x
      | |- total (if ?b then _ else _) => destruct b
      end ].

Lemma total_skip E words : total (Sys.skip E words).
Proof. induction words as [| more IH]; cbn [Sys.skip]; fin. Qed.

#[local] Hint Resolve total_skip : fin.

Lemma total_randbelow E n : total (Sys.randbelow E n).
Proof. unfold Sys.randbelow. fin. Qed.

Lemma total_uniform E a b : total (Sys.uniform E a b).
Proof. unfold Sys.uniform, Sys.random. fin. Qed.

#[local] Hint Resolve total_randbelow total_uniform : fin.

Lemma total_choice E {A} (l : list A) : total (Sys.choice E l).
Proof. unfold Sys.choice. fin. Qed.

#[local] Hint Resolve total_choice : fin.

Lemma total_choice_value E v : total (Sys.choice_value E v).
Proof. unfold Sys.choice_value. fin. Qed.

#[local] Hint Resolve total_choice_value : fin.

Lemma total_attempts E range url path :
  total (ContentDownloader.attempts E range url path).
Proof.
  induction range as [| attempt rest IH]; cbn [ContentDownloader.attempts];
    unfold Sys.raise_for_status; fin.
Qed.

Lemma total_get_pexels_video E config query duration :
  total (ContentDownloader.get_pexels_video E config query duration).
Proof.
  pose proof (total_attempts E).
  unfold ContentDownloader.get_pexels_video, ContentDownloader.fetch_candidate,
    ContentDownloader._download_file, Sys.raise_for_status, Builtins.get,
    Builtins.getitem, Builtins.getitem_int.
  fin.
Qed.

Lemma total_process_video E input output text :
  total (VideoEditor.process_video E input output text).
Proof.
  unfold VideoEditor.process_video, VideoEditor.write_videofile,
    VideoEditor.add_music.
  fin.
Qed.

Lemma total_generate E video output text :
  total (ThumbnailGenerator.generate E video output text).
Proof.
  unfold ThumbnailGenerator.generate, ThumbnailGenerator.sample_timestamp.
  fin.
Qed.

(** ** What a stage has done when it returns *)

Lemma bind_returns {A B} (m : M A) (k : A -> M B) w b w' :
  bind m k w = (Return b, w') ->
  exists a w1, m w = (Return a, w1) /\ k a w1 = (Return b, w').
Proof.
  unfold bind. destruct (m w) as [[a | e |] w1]; try discriminate. eauto.
Qed.

Lemma logged_returns {A} label (m : M A) w a w' :
  logged label m w = (Return a, w') -> m w = (Return a, w').
Proof.
  unfold logged, try_except, bind, logging.error, logging.emit, raise.
  destruct (m w) as [[a0 | e |] w1]; congruence.
Qed.

Lemma ensures_logged {A} label (m : M A) Q :
  ensures m Q -> ensures (logged label m) Q.
Proof. intros Hm w a w' Hrun. eapply Hm, logged_returns, Hrun. Qed.

Lemma ensures_bind_last {A B} (m : M A) (k : A -> M B) Q :
  (forall a, ensures (k a) Q) -> ensures (bind m k) Q.
Proof.
  intros Hk w b w' Hrun.
  apply bind_returns in Hrun as (a & w1 & _ & Hrun). eapply Hk, Hrun.
Qed.

Lemma ensures_raise {A} e (Q : A -> World -> Prop) : ensures (raise e) Q.
Proof. intros w a w' [=]. Qed.

(** Writing a file and returning its path *)
Lemma ensures_written E path b :
  ensures (let* _ := Sys.write_file E path b in ret path)
    (fun p w' => p = path /\ is_Some (files w' !! path)).
Proof.
  intros w p w' Hrun.
  apply bind_returns in Hrun as ([] & w1 & Hwrite & [= <- <-]).
  apply write_file_returns in Hwrite as [-> _].
  split; [reflexivity |]. cbn. rewrite lookup_insert_eq. eauto.
Qed.

Lemma attempts_written E url path range :
  ensures (ContentDownloader.attempts E range url path)
    (fun p w' => p = path /\ is_Some (files w' !! path)).
Proof.
  induction range as [| attempt rest IH]; intros w p w' Hrun.
  - discriminate.
  - rewrite attempts_step in Hrun. cbn zeta in Hrun.
    destruct (transport E (length (requests w))
                (ContentDownloader.download_request url)) as [e | r].
    + destruct (is_RequestException e); [eapply IH, Hrun | discriminate].
    + destruct (ContentDownloader.bad_status r); [eapply IH, Hrun |].
      unfold ContentDownloader.delivery in Hrun.
      pose proof (write_effect_done E path (RawBytes (content r)) w)
        as Hdone.
      destruct (Sys.write_effect E path (RawBytes (content r)) w)
        as [[e |] after_write]; [discriminate |].
      injection Hrun as <- <-. cbn [fst snd] in Hdone.
      rewrite Hdone by reflexivity.
      split; [reflexivity |]. cbn. rewrite lookup_insert_eq. eauto.
Qed.

Lemma get_pexels_video_delivers E config query duration :
  ensures (ContentDownloader.get_pexels_video E config query duration)
    delivered.
Proof.
  unfold ContentDownloader.get_pexels_video. apply ensures_logged.
  do 4 (apply ensures_bind_last; intros ?).
  destruct (negb _); [apply ensures_raise |].
  apply ensures_bind_last; intros video.
  unfold ContentDownloader.fetch_candidate.
  do 4 (apply ensures_bind_last; intros ?).
  intros w p w' Hrun. unfold ContentDownloader._download_file in Hrun.
  apply attempts_written in Hrun as [-> Hfile]. exact Hfile.
Qed.

Lemma process_video_delivers E input output text :
  ensures (VideoEditor.process_video E input output text)
    (fun p w' => p = output /\ delivered p w').
Proof.
  unfold VideoEditor.process_video. apply ensures_logged.
  do 3 (apply ensures_bind_last; intros ?).
  intros w p w' Hrun.
  apply bind_returns in Hrun as ([] & w1 & Hwrite & [= <- <-]).
  apply bind_returns in Hwrite as ([] & w0 & _ & Hwrite).
  apply try_reraise_returns in Hwrite.
  apply write_file_returns in Hwrite as [-> _].
  split; [reflexivity |]. unfold delivered. cbn.
  rewrite lookup_insert_eq. eauto.
Qed.

Lemma generate_delivers E video output text :
  ensures (ThumbnailGenerator.generate E video output text)
    (fun p w' => p = output /\ delivered p w').
Proof.
  unfold ThumbnailGenerator.generate. apply ensures_logged.
  do 3 (apply ensures_bind_last; intros ?).
  destruct (textbbox E text) as [[[x0 y0] x1] y1].
  apply ensures_bind_last; intros ?.
  intros w p w' Hrun. apply ensures_written in Hrun as [-> Hfile].
  split; [reflexivity | exact Hfile].
Qed.

(** ** Cleanup *)

Lemma unlink_missing_not_ok path w :
  files w !! path = None ->
  fst (Sys.unlink path false w) =
    Raise (Exn OSError ("No such file or directory: '" +:+ path +:+ "'")).
Proof. unfold Sys.unlink. intros ->. reflexivity. Qed.

Lemma cleanup_missing paths : forall w,
  (forall p, p ∈ paths -> files w !! p = None) ->
  ContentScheduler.cleanup paths w = (Return tt, w).
Proof.
  induction paths as [| f rest IH]; intros w Hmissing; [reflexivity |].
  cbn [ContentScheduler.cleanup]. unfold bind, Sys.unlink.
  rewrite (Hmissing f) by apply list_elem_of_here.
  apply IH. intros p Hp. apply Hmissing, list_elem_of_further, Hp.
Qed.

Lemma cleanup_returns paths : forall w,
  exists w',
    ContentScheduler.cleanup paths w = (Return tt, w')
    /\ (forall p, files w' !! p =
                  if decide (p ∈ paths) then None else files w !! p)
    /\ dirs w' = dirs w /\ log w' = log w
    /\ requests w' = requests w /\ api_calls w' = api_calls w.
Proof.
  induction paths as [| f rest IH]; intros w.
  - exists w. split; [reflexivity |]. split; [| auto].
    intros p. rewrite decide_False; [reflexivity |]. apply not_elem_of_nil.
  - cbn [ContentScheduler.cleanup]. unfold bind at 1, Sys.unlink.
    destruct (files w !! f) eqn:Hf.
    + destruct (IH (W.set_files (delete f (files w)) w))
        as (w' & Hrun & Hfiles & Hrest).
      exists w'. split; [exact Hrun |]. split; [| exact Hrest].
      intros p. rewrite Hfiles. cbn [files W.set_files].
      destruct (decide (p = f)) as [-> | Hne].
      * rewrite (decide_True (P := f ∈ f :: rest)) by apply list_elem_of_here.
        destruct (decide (f ∈ rest)); [reflexivity | apply lookup_delete_eq].
      * rewrite lookup_delete_ne by congruence.
        destruct (decide (p ∈ rest)) as [Hin | Hout].
        -- rewrite decide_True by (apply list_elem_of_further, Hin).
           reflexivity.
        -- rewrite decide_False; [reflexivity |].
           intros [? | ?]%elem_of_cons; contradiction.
    + destruct (IH w) as (w' & Hrun & Hfiles & Hrest).
      exists w'. split; [exact Hrun |]. split; [| exact Hrest].
      intros p. rewrite Hfiles.
      destruct (decide (p = f)) as [-> | Hne].
      * rewrite (decide_True (P := f ∈ f :: rest)) by apply list_elem_of_here.
        destruct (decide (f ∈ rest)); [reflexivity | exact Hf].
      * destruct (decide (p ∈ rest)) as [Hin | Hout].
        -- rewrite decide_True by (apply list_elem_of_further, Hin).
           reflexivity.
        -- rewrite decide_False; [reflexivity |].
           intros [? | ?]%elem_of_cons; contradiction.
Qed.

(** C7. The cleanup loop always returns, and afterwards none of its
    paths names a file while every other file is as before; run again on
    the state it left (or on any state where the files are already
    missing) it returns again and changes nothing. *)
Theorem cleanup_idempotent (paths : list string) (w : World) :
  exists w',
    ContentScheduler.cleanup paths w = (Return tt, w')
    /\ (forall p, p ∈ paths -> files w' !! p = None)
    /\ (forall p, p ∉ paths -> files w' !! p = files w !! p)
    /\ ContentScheduler.cleanup paths w' = (Return tt, w')
    /\ ((forall p, p ∈ paths -> files w !! p = None) ->
        ContentScheduler.cleanup paths w = (Return tt, w)).
Proof.
  destruct (cleanup_returns paths w) as (w' & Hrun & Hfiles & _).
  assert (Hgone : forall p, p ∈ paths -> files w' !! p = None).
  { intros p Hp. rewrite Hfiles. destruct (decide (p ∈ paths)); tauto. }
  exists w'. split; [exact Hrun |]. split; [exact Hgone |].
  split; [| split].
  - intros p Hp. rewrite Hfiles. destruct (decide (p ∈ paths)); tauto.
  - apply cleanup_missing, Hgone.
  - apply cleanup_missing.
Qed.

Lemma cleanup_idempotent_witness :
  let paths :=
    ["/srv/machine/content/pexels_857195.mp4";
     "/srv/machine/temp/processed.mp4"; "/srv/machine/temp/thumbnail.jpg"] in
  ContentScheduler.cleanup paths Demo.world = (Return tt, Demo.world).
Proof.
  intros paths.
  destruct (cleanup_idempotent paths Demo.world) as (w' & _ & _ & _ & _ & H).
  apply H. intros p Hp. reflexivity.
Defined.

(** ** The pipeline, stage by stage *)

Lemma run_pipeline_trace E config fuel niche query w :
  PipelineRun E config fuel niche query w
    (fst (ContentScheduler.run_pipeline E config fuel niche query w))
    (snd (ContentScheduler.run_pipeline E config fuel niche query w)).
Proof.
  unfold ContentScheduler.run_pipeline. rewrite logged_bind.
  destruct (ContentDownloader.get_pexels_video E config query 15 w)
    as [[video_path | e |] w1] eqn:H1.
  2:{ apply DownloadFailed. exact H1. }
  2:{ exfalso. apply (total_get_pexels_video E config query 15 w).
      rewrite H1. reflexivity. }
  rewrite logged_bind.
  match goal with
  | |- context [VideoEditor.process_video E ?i ?o ?t w1] =>
      destruct (VideoEditor.process_video E i o t w1)
        as [[edited_path | e |] w2] eqn:H2;
      [| eapply ProcessingFailed; eassumption
       | exfalso; apply (total_process_video E i o t w1);
         rewrite H2; reflexivity]
  end.
  rewrite logged_bind.
  match goal with
  | |- context [ThumbnailGenerator.generate E ?i ?o ?t w2] =>
      destruct (ThumbnailGenerator.generate E i o t w2)
        as [[thumbnail_path | e |] w3] eqn:H3;
      [| eapply ThumbnailFailed; eassumption
       | exfalso; apply (total_generate E i o t w2);
         rewrite H3; reflexivity]
  end.
  cbv zeta. rewrite logged_bind.
  destruct (YouTubeUploader.upload_video E config fuel edited_path
              (ContentScheduler.build_metadata E niche) (Some thumbnail_path) w3)
    as [[video_id | e |] w4] eqn:H4.
  - rewrite logged_bind. cbn [logging.info logging.emit].
    rewrite logged_bind.
    match goal with
    | |- context [ContentScheduler.cleanup ?paths ?w0] =>
        destruct (cleanup_returns paths w0) as (w5 & H5 & _)
    end.
    rewrite H5. cbn. eapply Completed; eassumption.
  - eapply UploadFailed; eassumption.
  - eapply UploadUnfinished; eassumption.
Qed.

(** ** The upload loop *)

Section Upload.
Context (E : Env) (request : api_call).

Lemma execute_upload_step fuel w :
  YouTubeUploader._execute_upload E (S fuel) request w =
    match next_chunk E (chunks w) request with
    | inl e => (Raise e, W.tick_chunks w)
    | inr (status, response) =>
        let w1 :=
          match status with
          | Some progress =>
              W.add_log
                (INFO,
                 "Upload progress: "
                 +:+ pretty (YouTubeUploader.percent progress) +:+ "%")
                (W.tick_chunks w)
          | None => W.tick_chunks w
          end in
        if Py.truthy response then (Return response, w1)
        else YouTubeUploader._execute_upload E fuel request w1
    end.
Proof.
  cbn [YouTubeUploader._execute_upload].
  unfold bind at 1, YouTubeUploader.request_next_chunk.
  destruct (next_chunk E (chunks w) request) as [e | [status response]];
    [reflexivity |].
  cbn [lift ret]. unfold bind at 1.
  destruct status; cbn; destruct (Py.truthy response); reflexivity.
Qed.

(** A response that the loop returns is truthy and was sent by the
    provider. *)
Lemma execute_upload_returns fuel : forall w response w',
  YouTubeUploader._execute_upload E fuel request w = (Return response, w') ->
  Py.truthy response = true
  /\ exists k status, next_chunk E k request = inr (status, response).
Proof.
  induction fuel as [| fuel IH]; intros w response w' Hrun; [discriminate |].
  rewrite execute_upload_step in Hrun.
  destruct (next_chunk E (chunks w) request) as [e | [status r]] eqn:Hchunk;
    [discriminate |].
  cbv zeta in Hrun. destruct (Py.truthy r) eqn:Htruthy.
  - injection Hrun as -> _. eauto.
  - eapply IH, Hrun.
Qed.

(** The loop ends as soon as the provider sends a terminal answer. *)
Lemma execute_upload_finishes fuel : forall w,
  (exists i, (i < fuel)%nat
     /\ YouTubeUploader.terminal (next_chunk E (chunks w + i)%nat request)
        = true) ->
  fst (YouTubeUploader._execute_upload E fuel request w) <> OutOfFuel.
Proof.
  induction fuel as [| fuel IH]; intros w (i & Hi & Hterm); [lia |].
  rewrite execute_upload_step.
  destruct (next_chunk E (chunks w) request) as [e | [status r]] eqn:Hchunk;
    [discriminate |].
  cbv zeta. destruct (Py.truthy r) eqn:Htruthy; [discriminate |].
  apply IH. destruct i as [| i].
  - rewrite Nat.add_0_r, Hchunk in Hterm. cbn in Hterm. congruence.
  - exists i. split; [lia |].
    replace (chunks _ + i)%nat with (chunks w + S i)%nat; [exact Hterm |].
    destruct status; cbn; lia.
Qed.

End Upload.

Lemma getitem_returns obj key w v w' :
  Builtins.getitem obj key w = (Return v, w') ->
  exists d, obj = PDict d /\ Py.assoc key d = Some v.
Proof.
  destruct obj as [| b | z | s | l | d]; cbn; try (intros [=]; fail).
  destruct (Py.assoc key d) as [v0 |] eqn:Hassoc; [| intros [=]].
  intros [= <- <-]. eauto.
Qed.

(** The identifier that [upload_video] returns is the "id" entry of the
    truthy response that ended the upload loop. *)
Lemma upload_video_returns E config fuel video metadata thumbnail w v w' :
  YouTubeUploader.upload_video E config fuel video metadata thumbnail w
    = (Return v, w') ->
  exists k request status d,
    next_chunk E k request = inr (status, PDict d)
    /\ Py.assoc "id" d = Some v.
Proof.
  intros Hrun. apply logged_returns in Hrun.
  apply bind_returns in Hrun as (body & w1 & _ & Hrun).
  apply bind_returns in Hrun as (media & w2 & _ & Hrun).
  apply bind_returns in Hrun as ([] & w3 & _ & Hrun).
  apply bind_returns in Hrun as (response & w4 & Hloop & Hrun).
  apply bind_returns in Hrun as ([] & w5 & _ & Hrun).
  apply execute_upload_returns in Hloop as (_ & k & status & Hchunk).
  apply getitem_returns in Hrun as (d & -> & Hid).
  eauto 6.
Qed.

Lemma total_join_values parts : forall n,
  total (YouTubeUploader.join_values n parts).
Proof.
  induction parts as [| v rest IH]; intros n; cbn; [fin |].
  destruct v; fin.
Qed.

Lemma total_MediaFileUpload E path :
  total (YouTubeUploader.MediaFileUpload E path).
Proof.
  intros w. unfold YouTubeUploader.MediaFileUpload, bind.
  destruct (open_media E path (files w !! path)); discriminate.
Qed.

Lemma total_issue c : total (YouTubeUploader.issue c).
Proof. intros w. discriminate. Qed.

Lemma upload_video_finishes E config fuel video metadata thumbnail :
  (forall n request,
     exists i, (i < fuel)%nat
       /\ YouTubeUploader.terminal (next_chunk E (n + i)%nat request) = true) ->
  total (YouTubeUploader.upload_video E config fuel video metadata thumbnail).
Proof.
  intros Hprovider.
  assert (Hloop : forall request,
             total (YouTubeUploader._execute_upload E fuel request)).
  { intros request w. apply execute_upload_finishes, Hprovider. }
  pose proof total_join_values. pose proof (total_MediaFileUpload E).
  pose proof total_issue.
  unfold YouTubeUploader.upload_video, YouTubeUploader.build_body,
    YouTubeUploader._build_description, YouTubeUploader.replace_spaces,
    Builtins.get, Builtins.getitem.
  fin.
Qed.

(** C5 (as amended).  A run of the pipeline ends in one of the ways of
    [PipelineRun]: a stage (download, processing, thumbnail, upload)
    raised and its exception is re-raised unchanged after the ERROR
    record "Pipeline failed: ..." was logged, or every stage returned and
    the run returns the identifier of the upload.  That identifier is the
    "id" entry of the truthy response that ended the upload, returned as
    the provider sent it; the code does not test it.  With a provider
    that ends every upload within [fuel] chunks the run does end. *)
Theorem run_pipeline_outcome (E : Env) (config : Config) (fuel : nat)
    (niche query : string) (w : World) :
  let run := ContentScheduler.run_pipeline E config fuel niche query w in
  PipelineRun E config fuel niche query w (fst run) (snd run)
  /\ (forall v, fst run = Return v ->
        exists k request status d,
          next_chunk E k request = inr (status, PDict d)
          /\ Py.assoc "id" d = Some v)
  /\ (forall e, fst run = Raise e ->
        exists earlier,
          log (snd run) =
            earlier ++ [(ERROR, "Pipeline failed: " +:+ exn_str e)])
  /\ ((forall n request,
         exists i, (i < fuel)%nat
           /\ YouTubeUploader.terminal (next_chunk E (n + i)%nat request)
              = true) ->
      fst run <> OutOfFuel).
Proof.
  intros run. pose proof (run_pipeline_trace E config fuel niche query w)
    as Htrace.
  fold run in Htrace. split; [exact Htrace |]. split; [| split].
  - intros v Hv. rewrite Hv in Htrace. inversion Htrace; subst.
    eapply upload_video_returns; eassumption.
  - intros e He. rewrite He in Htrace.
    inversion Htrace as [? w1 ? | ? ? ? w2 | ? ? ? ? ? w3 | ? ? ? ? ? ? ? w4
                         | |]; subst; cbn [log W.add_log]; eauto.
  - intros Hprovider Hfuel. rewrite Hfuel in Htrace.
    inversion Htrace; subst.
    match goal with
    | H : YouTubeUploader.upload_video _ _ _ ?v ?m ?t ?w3 = (OutOfFuel, _)
      |- _ =>
        apply (upload_video_finishes E config fuel v m t Hprovider w3);
        rewrite H; reflexivity
    end.
Qed.

(** A run that completes: the identifier is the provider's, the three
    intermediate files are gone and the log holds the INFO record. *)
Example run_pipeline_completes :
  let E :=
    Demo.env [Demo.found [Demo.candidate 857195 Demo.link];
              Demo.ok "bytes" Demo.not_json]
      0 10 (Demo.one_chunk (Demo.created "dQw4w9WgXcQ")) in
  let run :=
    ContentScheduler.run_pipeline E Demo.config 1 "fitness"
      "exercise motivation" Demo.world in
  fst run = Return (PStr "dQw4w9WgXcQ")
  /\ files (snd run) = ∅
  /\ log (snd run) = [(INFO, "Successfully uploaded video ID: dQw4w9WgXcQ")]
  /\ length (api_calls (snd run)) = 2%nat.
Proof. vm_compute. auto. Qed.

Lemma run_pipeline_outcome_witness :
  let found :=
    [Demo.found [Demo.candidate 857195 Demo.link];
     Demo.ok "bytes" Demo.not_json] in
  let E := Demo.env found 0 10 (Demo.one_chunk (Demo.created "dQw4w9WgXcQ")) in
  let refused :=
    Demo.env found 0 10 (fun _ => inl (Exn LibraryError "quotaExceeded")) in
  (exists k request status d,
      next_chunk E k request = inr (status, PDict d)
      /\ Py.assoc "id" d = Some (PStr "dQw4w9WgXcQ"))
  /\ fst (ContentScheduler.run_pipeline E Demo.config 1 "fitness"
            "exercise motivation" Demo.world) <> OutOfFuel
  /\ (exists earlier,
        log (snd (ContentScheduler.run_pipeline refused Demo.config 1
                    "fitness" "exercise motivation" Demo.world)) =
          earlier ++ [(ERROR, "Pipeline failed: quotaExceeded")]).
Proof.
  intros found E refused.
  destruct (run_pipeline_outcome E Demo.config 1 "fitness"
              "exercise motivation" Demo.world) as (_ & Hid & _ & Hends).
  destruct (run_pipeline_outcome refused Demo.config 1 "fitness"
              "exercise motivation" Demo.world) as (_ & _ & Hraise & _).
  split; [| split].
  - apply Hid. vm_compute. reflexivity.
  - apply Hends. intros n request. exists 0%nat. split; [lia | reflexivity].
  - apply (Hraise (Exn LibraryError "quotaExceeded")). vm_compute. reflexivity.
Defined.

(** C5 as the spec states it fails: a provider whose terminal response
    carries an empty "id" makes the run return that empty identifier,
    and no ERROR record is logged. *)
Lemma run_pipeline_empty_identifier :
  let E :=
    Demo.env [Demo.found [Demo.candidate 857195 Demo.link];
              Demo.ok "bytes" Demo.not_json]
      0 10 (Demo.one_chunk (Demo.created "")) in
  let run :=
    ContentScheduler.run_pipeline E Demo.config 1 "fitness"
      "exercise motivation" Demo.world in
  fst run = Return (PStr "")
  /\ Py.truthy (PStr "") = false
  /\ log (snd run) = [(INFO, "Successfully uploaded video ID: ")].
Proof. vm_compute. auto. Qed.

(** ** A failed run deletes nothing *)

Lemma stage_grows {A} (m : M A) w o w' :
  monotone m -> m w = (o, w') -> grows w w'.
Proof. intros Hm Hrun. specialize (Hm w). rewrite Hrun in Hm. exact Hm. Qed.

Lemma delivered_grows p w w' : delivered p w -> grows w w' -> delivered p w'.
Proof.
  unfold delivered. intros Hp [Hfiles _ _ _ _].
  apply elem_of_dom, Hfiles, elem_of_dom, Hp.
Qed.

(** C10. When a run raises, no file that existed before it is missing
    afterwards, and the files delivered by the stages that had returned
    (the download, the processed video, the thumbnail) are still there:
    the cleanup is reached only after the upload has returned. *)
Theorem failed_run_keeps_files (E : Env) (config : Config) (fuel : nat)
    (niche query : string) (w : World) (e : exn) :
  let run := ContentScheduler.run_pipeline E config fuel niche query w in
  let processed := Sys.path_join (Sys.TEMP_DIR E) "processed.mp4" in
  let thumbnail := Sys.path_join (Sys.TEMP_DIR E) "thumbnail.jpg" in
  fst run = Raise e ->
  dom (files w) ⊆ dom (files (snd run))
  /\ (forall video_path w1,
        ContentDownloader.get_pexels_video E config query 15 w
          = (Return video_path, w1) ->
        delivered video_path (snd run)
        /\ (forall edited_path w2,
              VideoEditor.process_video E video_path processed
                "5 SECONDS HACKS! ðŸš€" w1 = (Return edited_path, w2) ->
              delivered edited_path (snd run)
              /\ (forall thumbnail_path w3,
                    ThumbnailGenerator.generate E edited_path thumbnail
                      "WATCH NOW!" w2 = (Return thumbnail_path, w3) ->
                    delivered thumbnail_path (snd run)))).
Proof.
  intros run processed thumbnail He.
  pose proof (run_pipeline_trace E config fuel niche query w) as Htrace.
  fold run in Htrace. rewrite He in Htrace.
  pose proof (monotone_get_pexels_video E config query 15) as Mdown.
  pose proof (monotone_process_video E) as Mproc.
  pose proof (monotone_generate E) as Mgen.
  pose proof (monotone_upload_video E config fuel) as Mup.
  pose proof (get_pexels_video_delivers E config query 15) as Ddown.
  pose proof (process_video_delivers E) as Dproc.
  pose proof (generate_delivers E) as Dgen.
  inversion Htrace as
    [e0 w1 H1
    | video0 w1 e0 w2 H1 H2
    | video0 w1 edited0 w2 e0 w3 H1 H2 H3
    | video0 w1 edited0 w2 thumb0 w3 e0 w4 H1 H2 H3 H4
    | |]; subst e0.
  - assert (G : grows w (W.add_log (ERROR, "Pipeline failed: " +:+ exn_str e) w1)).
    { eapply grows_trans; [eapply stage_grows, H1; exact Mdown |].
      apply grows_add_log. }
    split; [apply G |]. intros video_path w1' Hdown. congruence.
  - pose proof (stage_grows _ _ _ _ Mdown H1) as G1.
    pose proof (stage_grows _ _ _ _ (Mproc _ _ _) H2) as G2.
    pose proof (grows_add_log (ERROR, "Pipeline failed: " +:+ exn_str e) w2)
      as G3.
    split; [apply (grows_trans _ _ _ G1 (grows_trans _ _ _ G2 G3)) |].
    intros video_path w1' Hdown.
    rewrite H1 in Hdown. injection Hdown as <- <-.
    split.
    + eapply delivered_grows; [eapply Ddown, H1 |].
      apply (grows_trans _ _ _ G2 G3).
    + intros edited_path w2' Hproc. fold processed in H2. congruence.
  - pose proof (stage_grows _ _ _ _ Mdown H1) as G1.
    pose proof (stage_grows _ _ _ _ (Mproc _ _ _) H2) as G2.
    pose proof (stage_grows _ _ _ _ (Mgen _ _ _) H3) as G3.
    pose proof (grows_add_log (ERROR, "Pipeline failed: " +:+ exn_str e) w3)
      as G4.
    split;
      [apply (grows_trans _ _ _ G1
                (grows_trans _ _ _ G2 (grows_trans _ _ _ G3 G4))) |].
    intros video_path w1' Hdown.
    rewrite H1 in Hdown. injection Hdown as <- <-.
    split.
    + eapply delivered_grows; [eapply Ddown, H1 |].
      apply (grows_trans _ _ _ G2 (grows_trans _ _ _ G3 G4)).
    + intros edited_path w2' Hproc. fold processed in H2.
      rewrite H2 in Hproc. injection Hproc as <- <-.
      split.
      * eapply delivered_grows; [eapply Dproc, H2 |].
        apply (grows_trans _ _ _ G3 G4).
      * intros thumbnail_path w3' Hgen. fold thumbnail in H3. congruence.
  - pose proof (stage_grows _ _ _ _ Mdown H1) as G1.
    pose proof (stage_grows _ _ _ _ (Mproc _ _ _) H2) as G2.
    pose proof (stage_grows _ _ _ _ (Mgen _ _ _) H3) as G3.
    pose proof (stage_grows _ _ _ _ (Mup _ _ _) H4) as G4.
    pose proof (grows_add_log (ERROR, "Pipeline failed: " +:+ exn_str e) w4)
      as G5.
    split;
      [apply (grows_trans _ _ _ G1
                (grows_trans _ _ _ G2
                   (grows_trans _ _ _ G3 (grows_trans _ _ _ G4 G5)))) |].
    intros video_path w1' Hdown.
    rewrite H1 in Hdown. injection Hdown as <- <-.
    split.
    + eapply delivered_grows; [eapply Ddown, H1 |].
      apply (grows_trans _ _ _ G2
               (grows_trans _ _ _ G3 (grows_trans _ _ _ G4 G5))).
    + intros edited_path w2' Hproc. fold processed in H2.
      rewrite H2 in Hproc. injection Hproc as <- <-.
      split.
      * eapply delivered_grows; [eapply Dproc, H2 |].
        apply (grows_trans _ _ _ G3 (grows_trans _ _ _ G4 G5)).
      * intros thumbnail_path w3' Hgen. fold thumbnail in H3.
        rewrite H3 in Hgen. injection Hgen as <- <-.
        eapply delivered_grows; [eapply Dgen, H3 |].
        apply (grows_trans _ _ _ G4 G5).
Qed.

Lemma failed_run_keeps_files_witness :
  let E :=
    Demo.env [Demo.found [Demo.candidate 857195 Demo.link];
              Demo.ok "bytes" Demo.not_json]
      0 10 (fun _ => inl (Exn LibraryError "quotaExceeded")) in
  let run :=
    ContentScheduler.run_pipeline E Demo.config 1 "fitness"
      "exercise motivation" Demo.world in
  delivered "/srv/machine/content/pexels_857195.mp4" (snd run)
  /\ delivered "/srv/machine/temp/processed.mp4" (snd run)
  /\ delivered "/srv/machine/temp/thumbnail.jpg" (snd run).
Proof.
  intros E run.
  destruct (failed_run_keeps_files E Demo.config 1 "fitness"
              "exercise motivation" Demo.world
              (Exn LibraryError "quotaExceeded")) as (_ & Hkept).
  - vm_compute. reflexivity.
  - edestruct Hkept as (Hvideo & Hrest).
    + vm_compute. reflexivity.
    + edestruct Hrest as (Hedited & Hlast).
      * vm_compute. reflexivity.
      * split; [exact Hvideo |]. split; [exact Hedited |].
        eapply Hlast. vm_compute. reflexivity.
Defined.

(** ** The upload request *)

Lemma config_init_hashtags E w config w' :
  Config_.__init__ E w = (Return config, w') ->
  default_hashtags config = ["#Shorts"; "#Viral"; "#Trending"].
Proof.
  intros Hinit. apply bind_returns in Hinit as ([] & w1 & _ & [= <- _]).
  reflexivity.
Qed.

Lemma join_values_returns parts : forall n w strings w',
  YouTubeUploader.join_values n parts w = (Return strings, w') ->
  parts = map PStr strings /\ w' = w.
Proof.
  induction parts as [| v rest IH]; intros n w strings w' Hrun.
  - injection Hrun as <- <-. auto.
  - destruct v; try discriminate. cbn in Hrun.
    apply bind_returns in Hrun as (tail & w1 & Htail & [= <- <-]).
    apply IH in Htail as [-> ->]. auto.
Qed.

(** What [build_body] returns, and that it has no effect. *)
Lemma build_body_returns config metadata w items w' :
  YouTubeUploader.build_body config metadata w = (Return items, w') ->
  w' = w
  /\ exists d title description niche,
       metadata = PDict d
       /\ Py.assoc "title" d = Some title
       /\ match Py.assoc "description" d with
          | Some v => v
          | None => PStr ""
          end = PStr description
       /\ match Py.assoc "niche" d with
          | Some v => v
          | None => PStr "content"
          end = PStr niche
       /\ items =
            [("snippet",
              PDict
                [("title", title);
                 ("description",
                  PStr (description +:+ PyStr.nl +:+ PyStr.nl
                        +:+ PyStr.join " " (default_hashtags config)
                        +:+ PyStr.nl
                        +:+ "#" +:+ PyStr.replace_char " " "" niche));
                 ("categoryId", PStr "24");
                 ("tags",
                  match Py.assoc "tags" d with
                  | Some v => v
                  | None => PList []
                  end)]);
             ("status",
              PDict [("privacyStatus", PStr "public");
                     ("selfDeclaredMadeForKids", PBool false)])].
Proof.
  intros Hrun. unfold YouTubeUploader.build_body in Hrun.
  apply bind_returns in Hrun as (title & w1 & Htitle & Hrun).
  pose proof Htitle as Hw1.
  apply getitem_returns in Htitle as (d & -> & Htitle).
  cbn in Hw1. rewrite Htitle in Hw1. injection Hw1 as <-.
  apply bind_returns in Hrun as (text & w2 & Hdesc & Hrun).
  unfold YouTubeUploader._build_description in Hdesc.
  cbn [Builtins.get] in Hdesc, Hrun.
  apply bind_returns in Hdesc as (desc_v & w3 & Hd & Hdesc).
  assert (w3 = w /\ desc_v = match Py.assoc "description" d with
                             | Some v => v | None => PStr "" end)
    as [-> Hdv].
  { destruct (Py.assoc "description" d); injection Hd as <- <-; auto. }
  apply bind_returns in Hdesc as (niche_v & w4 & Hn & Hdesc).
  assert (w4 = w /\ niche_v = match Py.assoc "niche" d with
                              | Some v => v | None => PStr "content" end)
    as [-> Hnv].
  { destruct (Py.assoc "niche" d); injection Hn as <- <-; auto. }
  apply bind_returns in Hdesc as (stripped & w5 & Hstrip & Hdesc).
  apply bind_returns in Hdesc as (parts & w6 & Hjoin & [= <- <-]).
  apply join_values_returns in Hjoin as [Hparts ->].
  destruct niche_v as [| | | niche | |]; try discriminate.
  injection Hstrip as <- <-.
  destruct parts as [| description [| blank [| tags [| tag [| ? ?]]]]];
    try discriminate.
  injection Hparts as Hdescription <- <- <-.
  apply bind_returns in Hrun as (tags_v & w7 & Htags & [= <- <-]).
  assert (w7 = w /\ tags_v = match Py.assoc "tags" d with
                             | Some v => v | None => PList [] end)
    as [-> ->].
  { destruct (Py.assoc "tags" d); injection Htags as <- <-; auto. }
  split; [reflexivity |].
  exists d, title, description, niche.
  split; [reflexivity |]. split; [exact Htitle |].
  split; [congruence |]. split; [congruence |].
  reflexivity.
Qed.

Lemma same_api_calls_thumbnails_only w w' :
  same_api_calls w w' -> thumbnails_only w w'.
Proof.
  intros Hsame. exists []. rewrite app_nil_r. split; [exact Hsame | constructor].
Qed.

(** After the insert request has been prepared only the thumbnail call
    follows. *)
Lemma upload_tail_thumbnails_only E fuel request thumbnail :
  keeps thumbnails_only
    (let* response := YouTubeUploader._execute_upload E fuel request in
     let* _ :=
       match thumbnail with
       | Some path =>
           let* videoId := Builtins.getitem response "id" in
           let* media_body := YouTubeUploader.MediaFileUpload E path in
           let call := ThumbnailsSet videoId media_body in
           let* _ := YouTubeUploader.issue call in
           check (thumbnails_set E call)
       | None => ret tt
       end in
     Builtins.getitem response "id").
Proof.
  assert (Hissue : forall videoId media,
             keeps thumbnails_only
               (YouTubeUploader.issue (ThumbnailsSet videoId media))).
  { intros videoId media w. exists [ThumbnailsSet videoId media].
    split; [reflexivity |]. repeat constructor. eauto. }
  assert (Hloop : keeps thumbnails_only
                    (YouTubeUploader._execute_upload E fuel request)).
  { intros w. apply same_api_calls_thumbnails_only, quiet_execute_upload. }
  mono.
Qed.

Lemma MediaFileUpload_returns E path w media w' :
  YouTubeUploader.MediaFileUpload E path w = (Return media, w') ->
  media = path /\ w' = w.
Proof.
  unfold YouTubeUploader.MediaFileUpload, bind.
  destruct (open_media E path (files w !! path)); cbn; [intros [=] |].
  intros [= <- <-]. auto.
Qed.

(** The calls that [upload_video] adds: none, or the insert request made
    of [build_body], followed by thumbnail calls only. *)
Lemma upload_video_calls E config fuel video metadata thumbnail w :
  let run :=
    YouTubeUploader.upload_video E config fuel video metadata thumbnail w in
  api_calls (snd run) = api_calls w
  \/ exists items tail,
       YouTubeUploader.build_body config metadata w = (Return items, w)
       /\ api_calls (snd run) =
            api_calls w
            ++ VideosInsert (PyStr.join "," (Py.keys items)) (PDict items)
                 video :: tail
       /\ Forall (fun c => exists videoId media, c = ThumbnailsSet videoId media)
            tail.
Proof.
  intros run. subst run. unfold YouTubeUploader.upload_video.
  rewrite logged_bind.
  pose proof (keeps_build_body same_api_calls config metadata w) as Hbody.
  destruct (YouTubeUploader.build_body config metadata w)
    as [[items | e |] w1] eqn:Hb; cbn in Hbody;
    [| left; exact Hbody | left; exact Hbody].
  apply build_body_returns in Hb as Hpure. destruct Hpure as [-> _].
  rewrite logged_bind.
  pose proof (keeps_MediaFileUpload same_api_calls E video w) as Hmedia.
  destruct (YouTubeUploader.MediaFileUpload E video w)
    as [[media | e |] w2] eqn:Hm; cbn in Hmedia;
    [| left; exact Hmedia | left; exact Hmedia].
  apply MediaFileUpload_returns in Hm as [-> ->].
  rewrite logged_bind. cbn [YouTubeUploader.issue].
  match goal with
  | |- context [logged ?label ?rest (W.add_api_call ?c w)] =>
      pose proof (keeps_logged thumbnails_only label rest
                    (upload_tail_thumbnails_only E fuel c thumbnail)
                    (W.add_api_call c w)) as (tail & Htail & Hthumb)
  end.
  right. exists items, tail. split; [reflexivity |].
  split; [| exact Hthumb].
  rewrite Htail. cbn. rewrite <- app_assoc. reflexivity.
Qed.

(** C8. With the configuration that [Config()] builds, every insert
    request that [upload_video] issues has the parts "snippet,status";
    its status is public and not made for kids, its category is "24",
    its tags are the metadata's (or the empty list), and its description
    is the metadata's description (or the empty string), an empty line,
    the line "#Shorts #Viral #Trending" and the line "#" followed by the
    niche (or "content") with its spaces removed. *)
Theorem upload_request_metadata (E : Env) (config : Config) (fuel : nat)
    (video_path : string) (metadata : pyval) (thumbnail : option string)
    (w0 w0' w : World) (part : string) (body : pyval) (media : string) :
  let run :=
    YouTubeUploader.upload_video E config fuel video_path metadata thumbnail w
  in
  Config_.__init__ E w0 = (Return config, w0') ->
  VideosInsert part body media ∈ api_calls (snd run) ->
  VideosInsert part body media ∉ api_calls w ->
  exists d title description niche,
    metadata = PDict d
    /\ Py.assoc "title" d = Some title
    /\ match Py.assoc "description" d with
       | Some v => v
       | None => PStr ""
       end = PStr description
    /\ match Py.assoc "niche" d with
       | Some v => v
       | None => PStr "content"
       end = PStr niche
    /\ part = "snippet,status"
    /\ media = video_path
    /\ body =
         PDict
           [("snippet",
             PDict
               [("title", title);
                ("description",
                 PStr (description +:+ PyStr.nl +:+ PyStr.nl
                       +:+ "#Shorts #Viral #Trending" +:+ PyStr.nl
                       +:+ "#" +:+ PyStr.replace_char " " "" niche));
                ("categoryId", PStr "24");
                ("tags",
                 match Py.assoc "tags" d with
                 | Some v => v
                 | None => PList []
                 end)]);
            ("status",
             PDict [("privacyStatus", PStr "public");
                    ("selfDeclaredMadeForKids", PBool false)])].
Proof.
  intros run Hconfig Hin Hnew.
  apply config_init_hashtags in Hconfig.
  destruct (upload_video_calls E config fuel video_path metadata thumbnail w)
    as [Hsame | (items & tail & Hbody & Hcalls & Hthumb)]; fold run in Hin.
  - fold run in Hsame. rewrite Hsame in Hin. contradiction.
  - fold run in Hcalls. rewrite Hcalls in Hin.
    apply elem_of_app in Hin as [Hold | Hin]; [contradiction |].
    apply elem_of_cons in Hin as [Hthis | Hlater].
    + injection Hthis as -> -> ->.
      apply build_body_returns in Hbody
        as (_ & d & title & description & niche & -> & Ht & Hd & Hn & ->).
      rewrite Hconfig. exists d, title, description, niche.
      repeat (split; [first [reflexivity | assumption] |]). reflexivity.
    + rewrite Forall_forall in Hthumb.
      destruct (Hthumb _ Hlater) as (videoId & m & [=]).
Qed.

Lemma upload_request_metadata_witness :
  let E := Demo.env [] 0 10 (Demo.one_chunk (Demo.created "dQw4w9WgXcQ")) in
  let w :=
    W.set_files (<["/srv/machine/temp/processed.mp4" := RawBytes "bytes"]> ∅)
      Demo.world in
  exists d title description niche,
    ContentScheduler.build_metadata E "home workout" = PDict d
    /\ Py.assoc "title" d = Some title
    /\ match Py.assoc "description" d with
       | Some v => v
       | None => PStr ""
       end = PStr description
    /\ match Py.assoc "niche" d with
       | Some v => v
       | None => PStr "content"
       end = PStr niche
    /\ "snippet,status" = "snippet,status"
    /\ "/srv/machine/temp/processed.mp4" = "/srv/machine/temp/processed.mp4"
    /\ PDict
         [("snippet",
           PDict
             [("title", PStr "5 Second Home workout Hacks! ðŸš€");
              ("description",
               PStr ("Amazing home workout tips you need to try!"
                     +:+ PyStr.nl +:+ PyStr.nl
                     +:+ "#Shorts #Viral #Trending" +:+ PyStr.nl
                     +:+ "#homeworkout"));
              ("categoryId", PStr "24");
              ("tags", PList [PStr "home workout"; PStr "shorts"; PStr "viral"])]);
          ("status",
           PDict [("privacyStatus", PStr "public");
                  ("selfDeclaredMadeForKids", PBool false)])] =
       PDict
         [("snippet",
           PDict
             [("title", title);
              ("description",
               PStr (description +:+ PyStr.nl +:+ PyStr.nl
                     +:+ "#Shorts #Viral #Trending" +:+ PyStr.nl
                     +:+ "#" +:+ PyStr.replace_char " " "" niche));
              ("categoryId", PStr "24");
              ("tags",
               match Py.assoc "tags" d with
               | Some v => v
               | None => PList []
               end)]);
          ("status",
           PDict [("privacyStatus", PStr "public");
                  ("selfDeclaredMadeForKids", PBool false)])].
Proof.
  intros E w.
  apply (upload_request_metadata E Demo.config 1
           "/srv/machine/temp/processed.mp4"
           (ContentScheduler.build_metadata E "home workout") None
           Demo.world Demo.world w).
  - vm_compute. reflexivity.
  - vm_compute. apply list_elem_of_here.
  - apply not_elem_of_nil.
Defined.

(** ** The metadata of a run *)

(** C4 (the code departs from it).  For the niche "fitness" the metadata
    depend on nothing but the niche and the tags are "fitness", "shorts"
    and "viral"; the title, however, ends with the four characters that
    the UTF-8 bytes of the rocket make when read as Windows-1252, not
    with the rocket itself. *)
Theorem fitness_metadata (E : Env) :
  ContentScheduler.build_metadata E "fitness" =
    PDict
      [("title", PStr "5 Second Fitness Hacks! ðŸš€");
       ("description", PStr "Amazing fitness tips you need to try!");
       ("tags", PList [PStr "fitness"; PStr "shorts"; PStr "viral"]);
       ("niche", PStr "fitness")]
  /\ Py.assoc "title" (match ContentScheduler.build_metadata E "fitness" with
                       | PDict d => d
                       | _ => []
                       end)
     <> Some (PStr "5 Second Fitness Hacks! 🚀")
  /\ String.length "5 Second Fitness Hacks! ðŸš€" = 33%nat   (* in bytes *)
  /\ String.length "5 Second Fitness Hacks! 🚀" = 28%nat.
Proof.
  split; [reflexivity |]. split; [| split; reflexivity].
  cbn. intros [=].
Qed.

(** * Further properties of the code *)

(** ** The downloader *)

Section DownloadMore.
Context (E : Env) (url : pyval) (path : string).

#[local] Abbreviation dreq := (ContentDownloader.download_request url).
#[local] Abbreviation reply := (fun n => transport E n dreq).
#[local] Abbreviation caught o :=
  (is_Some (ContentDownloader.attempt_error o)).

Lemma attempts_abort attempt rest e w :
  reply (length (requests w)) = HttpRaise e ->
  is_RequestException e = false ->
  ContentDownloader.attempts E (attempt :: rest) url path w =
    (Raise e, W.add_request dreq w).
Proof.
  intros Hans He. rewrite attempts_step. cbn zeta. rewrite Hans, He.
  reflexivity.
Qed.

Lemma attempts_propagate pre : forall attempt post e w,
  (forall i, (i < length pre)%nat ->
             caught (reply (length (requests w) + i)%nat)) ->
  reply (length (requests w) + length pre)%nat = HttpRaise e ->
  is_RequestException e = false ->
  exists w',
    ContentDownloader.attempts E (pre ++ attempt :: post) url path w =
      (Raise e, w')
    /\ requests w' = requests w ++ repeat dreq (S (length pre))
    /\ log w' =
         log w ++ ContentDownloader.warning_lines E url (length (requests w)) pre
    /\ files w' = files w.
Proof.
  induction pre as [| a pre IH]; intros attempt post e w Hfail Hans He.
  - cbn in Hans. rewrite Nat.add_0_r in Hans. cbn [app].
    rewrite (attempts_abort _ _ e) by assumption.
    eexists. split; [reflexivity |]. cbn. rewrite app_nil_r. auto.
  - cbn [app]. rewrite attempts_retry.
    2:{ specialize (Hfail 0%nat ltac:(cbn; lia)).
        rewrite Nat.add_0_r in Hfail. exact Hfail. }
    set (w2 := W.add_log _ _).
    assert (Hlen : length (requests w2) = S (length (requests w))).
    { subst w2. cbn. rewrite length_app. cbn. lia. }
    destruct (IH attempt post e w2) as (w' & Hrun & Hreq & Hlog & Hfiles).
    + intros i Hi. rewrite Hlen.
      replace (S (length (requests w)) + i)%nat
        with (length (requests w) + S i)%nat by lia.
      apply Hfail. cbn. lia.
    + rewrite Hlen.
      replace (S (length (requests w)) + length pre)%nat
        with (length (requests w) + length (a :: pre))%nat by (cbn; lia).
      exact Hans.
    + exact He.
    + exists w'. split; [exact Hrun |]. rewrite Hlen in Hlog.
      subst w2. cbn in Hreq, Hlog, Hfiles.
      rewrite Hreq, Hlog, <- !app_assoc. auto.
Qed.

(** What the loop leaves alone, however it ends. *)
Lemma attempts_frame range : forall w,
  let run := ContentDownloader.attempts E range url path w in
  (forall p, p <> path -> files (snd run) !! p = files w !! p)
  /\ (files (snd run) = files w
      \/ exists r,
           files (snd run) =
             snd (Sys.write_effect E path (RawBytes (content r)) w))
  /\ dirs (snd run) = dirs w
  /\ api_calls (snd run) = api_calls w
  /\ exists lines,
       log (snd run) = log w ++ lines
       /\ Forall (fun entry => fst entry = WARNING) lines.
Proof.
  induction range as [| attempt rest IH]; intros w run; subst run.
  - cbn. repeat split; auto. exists []. rewrite app_nil_r. auto.
  - rewrite attempts_step. cbn zeta.
    assert (Hretry : forall msg,
      let w2 :=
        W.add_log
          (WARNING,
           "Download attempt " +:+ pretty (attempt + 1) +:+ " failed: "
           +:+ msg) (W.add_request dreq w) in
      let run := ContentDownloader.attempts E rest url path w2 in
      (forall p, p <> path -> files (snd run) !! p = files w !! p)
      /\ (files (snd run) = files w
          \/ exists r,
               files (snd run) =
                 snd (Sys.write_effect E path (RawBytes (content r)) w))
      /\ dirs (snd run) = dirs w
      /\ api_calls (snd run) = api_calls w
      /\ exists lines,
           log (snd run) = log w ++ lines
           /\ Forall (fun entry => fst entry = WARNING) lines).
    { intros msg w2 run.
      destruct (IH w2) as (Hother & Hfiles & Hdirs & Hapi & lines & Hlog & Hall).
      fold run in Hother, Hfiles, Hdirs, Hapi, Hlog.
      split; [exact Hother |]. split; [| split; [exact Hdirs |]].
      { destruct Hfiles as [Hsame | (r & Hr)]; [left; exact Hsame |].
        right. exists r. rewrite Hr. f_equal.
        apply write_effect_same; reflexivity. }
      split; [exact Hapi |].
      eexists (_ :: lines). split.
      - rewrite Hlog. subst w2. cbn. rewrite <- app_assoc. reflexivity.
      - constructor; [reflexivity | exact Hall]. }
    destruct (transport E (length (requests w)) dreq) as [e | r].
    + destruct (is_RequestException e); [apply Hretry |].
      cbn. repeat split; auto. exists []. rewrite app_nil_r. auto.
    + destruct (ContentDownloader.bad_status r); [apply Hretry |].
      unfold ContentDownloader.delivery.
      pose proof (write_effect_files E path (RawBytes (content r)) w)
        as Hother.
      destruct (Sys.write_effect E path (RawBytes (content r)) w)
        as [error after_write] eqn:Hwrite.
      cbn [fst snd files dirs api_calls log W.set_files W.add_request] in *.
      split; [exact Hother |].
      split; [right; exists r; rewrite Hwrite; reflexivity |].
      repeat split. exists []. rewrite app_nil_r. auto.
Qed.

End DownloadMore.

(** X1. An exception of the transport that is not a RequestException
    ends [_download_file] at once: it is re-raised unchanged after the
    GET that met it, with one warning for each earlier failed attempt
    and none for this one, and no file is written. *)
Theorem download_file_other_error_not_retried (E : Env) (url : pyval)
    (filename : string) (w : World) (k : nat) (e : exn) :
  let req := ContentDownloader.download_request url in
  let answer i := transport E (length (requests w) + i)%nat req in
  let run := ContentDownloader._download_file E url filename w in
  (k < 3)%nat ->
  (forall i, (i < k)%nat ->
             is_Some (ContentDownloader.attempt_error (answer i))) ->
  answer k = HttpRaise e ->
  is_RequestException e = false ->
  fst run = Raise e
  /\ requests (snd run) = requests w ++ repeat req (S k)
  /\ logging.warnings (log (snd run)) = (logging.warnings (log w) + k)%nat
  /\ files (snd run) = files w.
Proof.
  intros req answer run Hk Hfail Hans He. subst run.
  unfold ContentDownloader._download_file.
  assert (Hlen : length (firstn k [0; 1; 2]) = k).
  { rewrite length_firstn. cbn. lia. }
  assert (Hsplit : exists attempt post,
             [0; 1; 2] = firstn k [0; 1; 2] ++ attempt :: post).
  { destruct k as [| [| [| k]]]; [| | | lia]; cbn; eauto. }
  destruct Hsplit as (attempt & post & Hsplit).
  destruct (attempts_propagate E url
              (Sys.path_join (Sys.CONTENT_DIR E) filename)
              (firstn k [0; 1; 2]) attempt post e w)
    as (w' & Hrun & Hreq & Hlog & Hfiles).
  - rewrite Hlen. exact Hfail.
  - rewrite Hlen. exact Hans.
  - exact He.
  - rewrite <- Hsplit in Hrun. rewrite Hrun. cbn [fst snd].
    rewrite Hlen in Hreq. repeat split; try assumption.
    rewrite Hlog, warnings_app, warnings_warning_lines, Hlen. reflexivity.
Qed.

Lemma download_file_other_error_not_retried_witness :
  let boom := Exn LibraryError "SSL context is broken" in
  let E :=
    Demo.env [Demo.timeout; HttpRaise boom; Demo.ok "bytes" Demo.not_json]
      0 10 (Demo.one_chunk PNone) in
  let run :=
    ContentDownloader._download_file E (PStr Demo.link) "pexels_857195.mp4"
      Demo.world in
  fst run = Raise boom
  /\ length (requests (snd run)) = 2%nat
  /\ logging.warnings (log (snd run)) = 1%nat
  /\ files (snd run) = ∅.
Proof.
  intros boom E run.
  destruct (download_file_other_error_not_retried E (PStr Demo.link)
              "pexels_857195.mp4" Demo.world 1 boom)
    as (Hraise & Hreq & Hwarn & Hfiles).
  - lia.
  - intros i Hi. destruct i as [| i]; [vm_compute; eauto | lia].
  - reflexivity.
  - reflexivity.
  - subst run. rewrite Hraise, Hreq, Hwarn, Hfiles. repeat split.
Defined.

(** X2. [_download_file] touches no file but its target
    [CONTENT_DIR / filename], and changes the files only by writing the
    content of a response there; it makes no directory and no API call,
    and adds only WARNING records to the log. *)
Theorem download_file_frame (E : Env) (url : pyval) (filename : string)
    (w : World) :
  let path := Sys.path_join (Sys.CONTENT_DIR E) filename in
  let run := ContentDownloader._download_file E url filename w in
  (forall p, p <> path -> files (snd run) !! p = files w !! p)
  /\ (files (snd run) = files w
      \/ exists r,
           files (snd run) =
             snd (Sys.write_effect E path (RawBytes (content r)) w))
  /\ dirs (snd run) = dirs w
  /\ api_calls (snd run) = api_calls w
  /\ exists lines,
       log (snd run) = log w ++ lines
       /\ Forall (fun entry => fst entry = WARNING) lines.
Proof.
  intros path run.
  apply (attempts_frame E url path [0; 1; 2] w).
Qed.

(** An absolute file name is the target itself: the file is made in
    the temp directory, and the file kept in the content directory is
    as it was. *)
Lemma download_file_frame_witness :
  let E :=
    Demo.env [Demo.ok "bytes" Demo.not_json] 0 10 (Demo.one_chunk PNone) in
  let w :=
    W.set_files (<["/srv/machine/content/keep.mp4" := RawBytes "old"]> ∅)
      Demo.world in
  let run :=
    ContentDownloader._download_file E (PStr Demo.link) "/srv/machine/temp/clip.mp4" w in
  files (snd run) !! "/srv/machine/content/keep.mp4" = Some (RawBytes "old")
  /\ files (snd run) !! "/srv/machine/temp/clip.mp4" = Some (RawBytes "bytes").
Proof.
  intros E w run.
  destruct (download_file_frame E (PStr Demo.link) "/srv/machine/temp/clip.mp4" w)
    as (Hother & _).
  split.
  - subst run. rewrite Hother; [reflexivity |].
    vm_compute. discriminate.
  - vm_compute. reflexivity.
Defined.

(** ** The search *)

#[local] Instance same_requests_frame : FrameRel same_requests.
Proof.
  split; unfold same_requests; [reflexivity | congruence | reflexivity].
Qed.

Lemma quiet_next_draw E : keeps same_requests (Sys.next_draw E).
Proof. intros w. reflexivity. Qed.

Lemma quiet_write_file E path b :
  keeps same_requests (Sys.write_file E path b).
Proof.
  intros w. unfold Sys.write_file.
  destruct (Sys.write_effect E path b w). reflexivity.
Qed.

#[local] Hint Resolve same_requests_frame quiet_next_draw quiet_write_file
  : mono.

Lemma quiet_choice E {A} (l : list A) : keeps same_requests (Sys.choice E l).
Proof. apply keeps_choice; mono. Qed.

#[local] Hint Resolve quiet_choice : mono.

Lemma quiet_choice_value E v : keeps same_requests (Sys.choice_value E v).
Proof. apply keeps_choice_value; mono. Qed.

#[local] Hint Resolve quiet_choice_value : mono.

Lemma within_budget_quiet {A} (m : M A) :
  keeps same_requests m -> within_budget m.
Proof.
  intros Hm w. exists PNone, 0%nat. split; [lia |].
  rewrite (Hm w). cbn. rewrite app_nil_r. reflexivity.
Qed.

Lemma within_budget_bind {A B} (m : M A) (k : A -> M B) :
  keeps same_requests m -> (forall a, within_budget (k a)) ->
  within_budget (bind m k).
Proof.
  intros Hm Hk w. unfold bind. specialize (Hm w). unfold same_requests in Hm.
  destruct (m w) as [[a | e |] w1]; cbn in *.
  - destruct (Hk a w1) as (url & n & Hn & Hreq).
    exists url, n. rewrite Hreq, Hm. auto.
  - exists PNone, 0%nat. rewrite Hm, app_nil_r. split; [lia | reflexivity].
  - exists PNone, 0%nat. rewrite Hm, app_nil_r. split; [lia | reflexivity].
Qed.

Lemma within_budget_logged {A} label (m : M A) :
  within_budget m -> within_budget (logged label m).
Proof.
  intros Hm w. unfold logged, try_except. specialize (Hm w).
  destruct (m w) as [[a | e |] w1]; exact Hm.
Qed.

Lemma within_budget_download_file E url filename :
  within_budget (ContentDownloader._download_file E url filename).
Proof.
  intros w. destruct (attempts_bounded E url
                        (Sys.path_join (Sys.CONTENT_DIR E) filename)
                        [0; 1; 2] w) as (k & Hk & Hreq).
  exists url, k. split; [exact Hk | exact Hreq].
Qed.

Lemma within_budget_fetch_candidate E video :
  within_budget (ContentDownloader.fetch_candidate E video).
Proof.
  unfold ContentDownloader.fetch_candidate.
  repeat (apply within_budget_bind; [mono | intros ?]).
  apply within_budget_download_file.
Qed.

(** The candidate is either read in full and downloaded, or the reading
    raises and nothing has happened. *)
Lemma fetch_candidate_shape E video w :
  match candidate_parts video with
  | Some (link, id) =>
      ContentDownloader.fetch_candidate E video w =
        ContentDownloader._download_file E link
          ("pexels_" +:+ Builtins.str E id +:+ ".mp4") w
  | None =>
      exists e, ContentDownloader.fetch_candidate E video w = (Raise e, w)
  end.
Proof.
  unfold candidate_parts, ContentDownloader.fetch_candidate.
  destruct video as [| b | z | s | l | v]; try (eexists; reflexivity).
  cbv [bind ret raise Builtins.getitem Builtins.getitem_int].
  destruct (Py.assoc "video_files" v) as [[| b | z | s | l | d] |];
    try (eexists; reflexivity).
  - destruct (Py.index (PyStr.chars s) 0); eexists; reflexivity.
  - destruct l as [| first rest]; [eexists; reflexivity |].
    change (Py.index (first :: rest) 0) with (Some first). cbv iota beta.
    destruct first as [| b | z | s | l | f]; try (eexists; reflexivity).
    destruct (Py.assoc "link" f) as [link |]; [| eexists; reflexivity].
    destruct (Py.assoc "id" v) as [id |]; [| eexists; reflexivity].
    reflexivity.
Qed.

Section SearchMore.
Context (E : Env) (config : Config) (query : string) (duration : Z).

#[local] Abbreviation search :=
  (ContentDownloader.search_request config query duration).

(** The run from the point where a candidate has been chosen. *)
Lemma get_pexels_video_chosen w resp d l :
  transport E (length (requests w)) search = HttpResponse resp ->
  ContentDownloader.bad_status resp = false ->
  json_body resp = inr (PDict d) ->
  Py.assoc "videos" d = Some (PList l) ->
  l <> [] ->
  let drawn := Sys.below (N.of_nat (length l)) (entropy E (draws w)) in
  ContentDownloader.get_pexels_video E config query duration w =
    logged "Pexels video fetch failed"
      (ContentDownloader.fetch_candidate E
         (nth (N.to_nat (fst drawn)) l PNone))
      (W.draw_words (snd drawn) (W.add_request search w)).
Proof.
  intros Hans Hstatus Hjson Hvideos Hl drawn.
  rewrite (get_pexels_video_parsed E config query duration w resp d)
    by assumption.
  rewrite Hvideos. destruct l as [| x l]; [congruence |].
  cbn [Py.truthy negb]. cbv zeta. rewrite logged_bind.
  cbn [Sys.choice_value]. rewrite choice_run.
  change (draws (W.add_request _ w)) with (draws w). fold drawn.
  f_equal. f_equal. apply nth_indep.
  pose proof (below_lt (N.of_nat (length (x :: l))) (entropy E (draws w))
                ltac:(cbn; lia)) as Hlt.
  fold drawn in Hlt. revert Hlt. generalize (fst drawn). intros r Hr. lia.
Qed.

Lemma get_pexels_video_budget w :
  exists url k,
    (k <= 3)%nat
    /\ requests
         (snd (ContentDownloader.get_pexels_video E config query duration w))
       = requests w
         ++ search :: repeat (ContentDownloader.download_request url) k.
Proof.
  unfold ContentDownloader.get_pexels_video. rewrite logged_bind.
  unfold Sys.session_get.
  destruct (transport E (length (requests w)) search) as [e | resp].
  - exists PNone, 0%nat. split; [lia | reflexivity].
  - match goal with
    | |- context [logged ?l ?m ?w1] =>
        assert (Hm : within_budget (logged l m))
    end.
    { pose proof (within_budget_fetch_candidate E) as Hfetch.
      apply within_budget_logged.
      repeat (apply within_budget_bind; [mono | intros ?]).
      destruct (negb _); [apply within_budget_quiet; mono |].
      apply within_budget_bind; [mono | intros video]. apply Hfetch. }
    destruct (Hm (W.add_request search w)) as (url & k & Hk & Hreq).
    exists url, k. split; [exact Hk |].
    rewrite Hreq. cbn. rewrite <- app_assoc. reflexivity.
Qed.

End SearchMore.

(** X3. When the search lists candidates, the chosen one is well formed,
    its download succeeds at the first attempt and the target can be
    written, [get_pexels_video] returns [CONTENT_DIR / pexels_<id>.mp4]
    holding the bytes received, after exactly two GETs (the search, then
    the candidate's link) and the words that [random.choice] draws, and
    logs nothing. *)
Theorem get_pexels_video_success (E : Env) (config : Config) (query : string)
    (duration : Z) (w : World) (resp : response) (d : list (string * pyval))
    (l : list pyval) (link id : pyval) (delivered_resp : response) :
  let sreq := ContentDownloader.search_request config query duration in
  let dreq := ContentDownloader.download_request link in
  let path :=
    Sys.path_join (Sys.CONTENT_DIR E)
      ("pexels_" +:+ Builtins.str E id +:+ ".mp4") in
  let drawn := Sys.below (N.of_nat (length l)) (entropy E (draws w)) in
  transport E (length (requests w)) sreq = HttpResponse resp ->
  ContentDownloader.bad_status resp = false ->
  json_body resp = inr (PDict d) ->
  Py.assoc "videos" d = Some (PList l) ->
  candidate_parts (nth (N.to_nat (fst drawn)) l PNone) = Some (link, id) ->
  ContentDownloader.attempt_success
    (transport E (S (length (requests w))) dreq) = Some delivered_resp ->
  fst (Sys.write_effect E path (RawBytes (content delivered_resp)) w)
    = None ->
  ContentDownloader.get_pexels_video E config query duration w =
    (Return path,
     W.set_files (<[path := RawBytes (content delivered_resp)]> (files w))
       (W.add_request dreq
          (W.draw_words (snd drawn) (W.add_request sreq w)))).
Proof.
  intros sreq dreq path drawn Hans Hstatus Hjson Hvideos Hparts Hok Hwrite.
  subst sreq dreq path.
  assert (Hl : l <> []).
  { intros ->. destruct (N.to_nat (fst drawn)); discriminate. }
  rewrite (get_pexels_video_chosen E config query duration w resp d l)
    by assumption.
  fold drawn.
  pose proof (fetch_candidate_shape E
                (nth (N.to_nat (fst drawn)) l PNone)
                (W.draw_words (snd drawn)
                   (W.add_request
                      (ContentDownloader.search_request config query duration)
                      w))) as Hshape.
  rewrite Hparts in Hshape.
  unfold logged, try_except. rewrite Hshape.
  unfold ContentDownloader._download_file.
  rewrite (attempts_deliver E link _ 0 [1; 2] delivered_resp).
  2:{ cbn. rewrite length_app, Nat.add_1_r. exact Hok. }
  unfold ContentDownloader.delivery.
  match goal with
  | |- context [Sys.write_effect E ?p ?b ?w1] =>
      rewrite (write_effect_same E p b w w1) by reflexivity;
      pose proof (write_effect_done E p b w Hwrite) as Hfiles;
      destruct (Sys.write_effect E p b w) as [error after_write]
  end.
  cbn [fst snd] in Hwrite, Hfiles. subst error after_write. reflexivity.
Qed.

Lemma get_pexels_video_success_witness :
  let E :=
    Demo.env [Demo.found [Demo.candidate 857195 Demo.link];
              Demo.ok "bytes" Demo.not_json]
      0 10 (Demo.one_chunk PNone) in
  let run :=
    ContentDownloader.get_pexels_video E Demo.config "exercise motivation"
      15 Demo.world in
  fst run = Return "/srv/machine/content/pexels_857195.mp4"
  /\ draws (snd run) = 1%nat.
Proof.
  intros E run. subst run.
  rewrite (get_pexels_video_success E Demo.config "exercise motivation" 15
             Demo.world
             {| status_code := 200; http_error := ""; content := "";
                json_body :=
                  inr (PDict
                         [("videos",
                           PList [Demo.candidate 857195 Demo.link])]) |}
             [("videos", PList [Demo.candidate 857195 Demo.link])]
             [Demo.candidate 857195 Demo.link] (PStr Demo.link) (PInt 857195)
             {| status_code := 200; http_error := ""; content := "bytes";
                json_body := Demo.not_json |});
    try reflexivity.
  split; vm_compute; reflexivity.
Defined.

(** X4. When the chosen candidate is malformed (it is no dict, or lacks
    "video_files", a first file with a "link", or an "id"),
    [get_pexels_video] raises after the search alone: no download is
    attempted and no file written, the generator has moved by the words
    of the choice, and the error is logged once. *)
Theorem malformed_candidate_not_downloaded (E : Env) (config : Config)
    (query : string) (duration : Z) (w : World) (resp : response)
    (d : list (string * pyval)) (l : list pyval) :
  let sreq := ContentDownloader.search_request config query duration in
  let drawn := Sys.below (N.of_nat (length l)) (entropy E (draws w)) in
  transport E (length (requests w)) sreq = HttpResponse resp ->
  ContentDownloader.bad_status resp = false ->
  json_body resp = inr (PDict d) ->
  Py.assoc "videos" d = Some (PList l) ->
  l <> [] ->
  candidate_parts (nth (N.to_nat (fst drawn)) l PNone) = None ->
  exists e,
    ContentDownloader.get_pexels_video E config query duration w =
      (Raise e,
       W.add_log (ERROR, "Pexels video fetch failed: " +:+ exn_str e)
         (W.draw_words (snd drawn) (W.add_request sreq w))).
Proof.
  intros sreq drawn Hans Hstatus Hjson Hvideos Hl Hparts. subst sreq.
  rewrite (get_pexels_video_chosen E config query duration w resp d l)
    by assumption.
  fold drawn.
  pose proof (fetch_candidate_shape E
                (nth (N.to_nat (fst drawn)) l PNone)
                (W.draw_words (snd drawn)
                   (W.add_request
                      (ContentDownloader.search_request config query duration)
                      w))) as Hshape.
  rewrite Hparts in Hshape. destruct Hshape as [e Hraise].
  exists e. unfold logged, try_except. rewrite Hraise. reflexivity.
Qed.

(** Of two candidates the generator's first word, [2^31], selects the
    second (rounds of two bits: the value is 2, dropped, and the next
    word gives 1), which has no "id". *)
Lemma malformed_candidate_not_downloaded_witness :
  let no_id := PDict [("video_files", PList [PDict [("link", PStr "https://a")]])] in
  let E :=
    Demo.env [Demo.found [Demo.candidate 1 "https://a"; no_id]]
      (2 ^ 31 + 2 ^ 32 * 2 ^ 30) 10 (Demo.one_chunk PNone) in
  let run :=
    ContentDownloader.get_pexels_video E Demo.config "exercise motivation" 15
      Demo.world in
  fst run = Raise (Exn KeyError "'id'")
  /\ length (requests (snd run)) = 1%nat
  /\ draws (snd run) = 2%nat.
Proof.
  intros no_id E run.
  destruct (malformed_candidate_not_downloaded E Demo.config
              "exercise motivation" 15 Demo.world
              {| status_code := 200; http_error := ""; content := "";
                 json_body :=
                   inr (PDict
                          [("videos",
                            PList [Demo.candidate 1 "https://a"; no_id])]) |}
              [("videos", PList [Demo.candidate 1 "https://a"; no_id])]
              [Demo.candidate 1 "https://a"; no_id]) as [e Hrun];
    try reflexivity; [discriminate |].
  subst run. split; [| rewrite Hrun; split; reflexivity].
  vm_compute. reflexivity.
Defined.

(** X5. The search is never retried: when its GET raises, answers with
    an error status, or carries a body that is not JSON,
    [get_pexels_video] raises that exception after this one GET, writes
    no file and logs it once. *)
Theorem search_failure_not_retried (E : Env) (config : Config)
    (query : string) (duration : Z) (w : World) (e : exn) :
  let sreq := ContentDownloader.search_request config query duration in
  let answer := transport E (length (requests w)) sreq in
  (answer = HttpRaise e
   \/ (exists resp,
         answer = HttpResponse resp
         /\ ContentDownloader.bad_status resp = true
         /\ e = Exn RequestException (http_error resp))
   \/ (exists resp,
         answer = HttpResponse resp
         /\ ContentDownloader.bad_status resp = false
         /\ json_body resp = inl e)) ->
  ContentDownloader.get_pexels_video E config query duration w =
    (Raise e,
     W.add_log (ERROR, "Pexels video fetch failed: " +:+ exn_str e)
       (W.add_request sreq w)).
Proof.
  intros sreq answer Hcases. subst answer sreq.
  unfold ContentDownloader.get_pexels_video. rewrite logged_bind.
  unfold Sys.session_get.
  destruct Hcases as [-> | [(resp & -> & Hbad & ->) | (resp & -> & Hok & Hjson)]].
  - reflexivity.
  - rewrite logged_bind. unfold Sys.raise_for_status.
    unfold ContentDownloader.bad_status in Hbad. rewrite Hbad. reflexivity.
  - rewrite logged_bind. unfold Sys.raise_for_status.
    unfold ContentDownloader.bad_status in Hok. rewrite Hok. cbn [ret].
    rewrite logged_bind, Hjson. reflexivity.
Qed.

Lemma search_failure_not_retried_witness :
  let E :=
    Demo.env [Demo.unavailable; Demo.found [Demo.candidate 1 Demo.link]]
      0 10 (Demo.one_chunk PNone) in
  let run :=
    ContentDownloader.get_pexels_video E Demo.config "exercise motivation" 15
      Demo.world in
  fst run = Raise (Exn RequestException "503 Server Error: Service Unavailable")
  /\ length (requests (snd run)) = 1%nat.
Proof.
  intros E run. subst run.
  rewrite (search_failure_not_retried E Demo.config "exercise motivation" 15
             Demo.world
             (Exn RequestException "503 Server Error: Service Unavailable")).
  - split; reflexivity.
  - right. left. eexists. split; [reflexivity |]. split; reflexivity.
Defined.

(** X6. Whatever the transport and the answers, one call of
    [get_pexels_video] issues the search GET first and after it at most
    three GETs, all for one and the same download url. *)
Theorem get_pexels_video_request_budget (E : Env) (config : Config)
    (query : string) (duration : Z) (w : World) :
  exists url k,
    (k <= 3)%nat
    /\ requests
         (snd (ContentDownloader.get_pexels_video E config query duration w))
       = requests w
         ++ ContentDownloader.search_request config query duration
            :: repeat (ContentDownloader.download_request url) k.
Proof. apply get_pexels_video_budget. Qed.

(** ** The thumbnail *)

Lemma draw_stroke_painted offsets : forall img position text,
  ThumbnailGenerator.draw_stroke img position text offsets =
    {| img_frame := img_frame img;
       img_timestamp := img_timestamp img;
       img_painted :=
         img_painted img
         ++ map (fun offset =>
                   {| draw_xy :=
                        (fst position + fst offset, snd position + snd offset);
                      draw_string := text;
                      draw_fill := ThumbnailGenerator.stroke_color |})
              offsets |}.
Proof.
  induction offsets as [| offset rest IH]; intros img position text.
  - cbn. rewrite app_nil_r. destruct img; reflexivity.
  - cbn [ThumbnailGenerator.draw_stroke]. rewrite IH. cbn.
    rewrite <- app_assoc. reflexivity.
Qed.

(** The image that a returning [generate] has saved. *)
Lemma generate_returns E video output text w p w' :
  ThumbnailGenerator.generate E video output text w = (Return p, w') ->
  exists clip timestamp frame,
    decode_video E video (files w !! video) = inr clip
    /\ get_frame E clip timestamp = inr frame
    /\ p = output
    /\ files w' !! output =
         Some
           (SavedImage
              (let '(x0, y0, x1, y1) := textbbox E text in
               let position :=
                 ((frame_width frame - (x1 - x0)) / 2,
                  (frame_height frame - (y1 - y0)) / 2) in
               ThumbnailGenerator.draw_text
                 (ThumbnailGenerator.draw_stroke
                    {| img_frame := frame; img_timestamp := timestamp;
                       img_painted := [] |}
                    position text [(-2, -2); (-2, 2); (2, -2); (2, 2)])
                 position text ThumbnailGenerator.text_color)).
Proof.
  intros Hrun. apply logged_returns in Hrun.
  apply bind_returns in Hrun as (clip & w1 & Hclip & Hrun).
  apply bind_returns in Hrun as (timestamp & w2 & _ & Hrun).
  apply bind_returns in Hrun as (frame & w3 & Hframe & Hrun).
  unfold VideoEditor.VideoFileClip in Hclip.
  destruct (decode_video E video (files w !! video)) as [e | c] eqn:Hdecode;
    [discriminate |].
  injection Hclip as -> _.
  destruct (get_frame E clip timestamp) as [e | f] eqn:Hget; [discriminate |].
  injection Hframe as -> _.
  exists clip, timestamp, frame.
  split; [reflexivity |]. split; [exact Hget |].
  destruct (textbbox E text) as [[[x0 y0] x1] y1].
  apply bind_returns in Hrun as ([] & w4 & _ & Hrun).
  apply bind_returns in Hrun as ([] & w5 & Hwrite & [= <- <-]).
  apply write_file_returns in Hwrite as [-> _].
  split; [reflexivity |]. cbn. apply lookup_insert_eq.
Qed.

(** X7. The thumbnail that [generate] saves carries exactly five
    paintings of the title: first the four in the stroke colour, at the
    diagonal offsets (-2,-2), (-2,2), (2,-2), (2,2) from the text
    position, and last, on top of them, the one in the text colour at
    the position itself. *)
Theorem thumbnail_stroke_under_fill (E : Env) (video output text : string)
    (w w' : World) (p : string) :
  ThumbnailGenerator.generate E video output text w = (Return p, w') ->
  exists img x y,
    files w' !! output = Some (SavedImage img)
    /\ img_painted img =
         [{| draw_xy := (x + -2, y + -2); draw_string := text;
             draw_fill := (0, 0, 0) |};
          {| draw_xy := (x + -2, y + 2); draw_string := text;
             draw_fill := (0, 0, 0) |};
          {| draw_xy := (x + 2, y + -2); draw_string := text;
             draw_fill := (0, 0, 0) |};
          {| draw_xy := (x + 2, y + 2); draw_string := text;
             draw_fill := (0, 0, 0) |};
          {| draw_xy := (x, y); draw_string := text;
             draw_fill := (255, 255, 255) |}].
Proof.
  intros Hrun.
  apply generate_returns in Hrun
    as (clip & timestamp & frame & _ & _ & _ & Hfile).
  destruct (textbbox E text) as [[[x0 y0] x1] y1].
  eexists _, ((frame_width frame - (x1 - x0)) / 2),
    ((frame_height frame - (y1 - y0)) / 2).
  split; [exact Hfile |].
  unfold ThumbnailGenerator.draw_text. rewrite draw_stroke_painted.
  reflexivity.
Qed.

Lemma thumbnail_stroke_under_fill_witness :
  let E := Demo.env [] 0 10 (Demo.one_chunk PNone) in
  let w :=
    W.set_files (<["/srv/machine/temp/processed.mp4" := RawBytes "bytes"]> ∅)
      Demo.world in
  exists img x y,
    files (snd (ThumbnailGenerator.generate E "/srv/machine/temp/processed.mp4"
                  "/srv/machine/temp/thumbnail.jpg" "WATCH NOW!" w))
      !! "/srv/machine/temp/thumbnail.jpg" = Some (SavedImage img)
    /\ img_painted img =
         [{| draw_xy := (x + -2, y + -2); draw_string := "WATCH NOW!";
             draw_fill := (0, 0, 0) |};
          {| draw_xy := (x + -2, y + 2); draw_string := "WATCH NOW!";
             draw_fill := (0, 0, 0) |};
          {| draw_xy := (x + 2, y + -2); draw_string := "WATCH NOW!";
             draw_fill := (0, 0, 0) |};
          {| draw_xy := (x + 2, y + 2); draw_string := "WATCH NOW!";
             draw_fill := (0, 0, 0) |};
          {| draw_xy := (x, y); draw_string := "WATCH NOW!";
             draw_fill := (255, 255, 255) |}].
Proof.
  intros E w.
  eapply (thumbnail_stroke_under_fill E "/srv/machine/temp/processed.mp4"
            "/srv/machine/temp/thumbnail.jpg" "WATCH NOW!" w).
  vm_compute. reflexivity.
Defined.

(** X8. The title is painted off the centre by the origin of its
    bounding box.  The position handed to [draw.text] centres a box of
    the text's width and height, but the text is painted from that
    position plus the origin [(x0, y0)] of the box measured at (0, 0):
    in the saved thumbnail the margin right of the painted box exceeds
    the margin left of it by the parity of the free width less twice
    [x0], and the margin below exceeds the margin above by the parity of
    the free height less twice [y0]. *)
Theorem thumbnail_text_margins (E : Env) (video output text : string)
    (w w' : World) (p : string) :
  ThumbnailGenerator.generate E video output text w = (Return p, w') ->
  exists img fill,
    files w' !! output = Some (SavedImage img)
    /\ last (img_painted img) = Some fill
    /\ draw_fill fill = ThumbnailGenerator.text_color
    /\ let '(x0, y0, x1, y1) := textbbox E text in
       let '(box_left, box_top, box_right, box_bottom) :=
         painted_box (draw_xy fill) (textbbox E text) in
       let width := frame_width (img_frame img) in
       let height := frame_height (img_frame img) in
       (width - box_right) - box_left
         = (width - (x1 - x0)) mod 2 - 2 * x0
       /\ (height - box_bottom) - box_top
          = (height - (y1 - y0)) mod 2 - 2 * y0.
Proof.
  intros Hrun.
  apply generate_returns in Hrun
    as (clip & timestamp & frame & _ & _ & _ & Hfile).
  destruct (textbbox E text) as [[[x0 y0] x1] y1].
  eexists _, _. split; [exact Hfile |].
  unfold ThumbnailGenerator.draw_text. rewrite draw_stroke_painted.
  cbn [img_painted img_frame]. split; [apply last_snoc |].
  split; [reflexivity |]. cbn [draw_xy fst snd painted_box].
  pose proof (Z.div_mod (frame_width frame - (x1 - x0)) 2 ltac:(lia)).
  pose proof (Z.div_mod (frame_height frame - (y1 - y0)) 2 ltac:(lia)).
  lia.
Qed.

(** A frame of 1080 by 1920 and a text whose box at the origin is
    (0, 20, 600, 120): the text is drawn at (240, 910) and painted from
    (240, 930), forty pixels lower than centred. *)
Lemma thumbnail_text_margins_witness :
  let E := Demo.env [] 0 10 (Demo.one_chunk PNone) in
  let w :=
    W.set_files (<["/srv/machine/temp/processed.mp4" := RawBytes "bytes"]> ∅)
      Demo.world in
  exists img fill,
    files (snd (ThumbnailGenerator.generate E "/srv/machine/temp/processed.mp4"
                  "/srv/machine/temp/thumbnail.jpg" "WATCH NOW!" w))
      !! "/srv/machine/temp/thumbnail.jpg" = Some (SavedImage img)
    /\ last (img_painted img) = Some fill
    /\ draw_fill fill = (255, 255, 255)
    /\ draw_xy fill = (240, 910)
    /\ painted_box (draw_xy fill) (textbbox E "WATCH NOW!")
       = (240, 930, 840, 1030).
Proof.
  intros E w.
  destruct (thumbnail_text_margins E "/srv/machine/temp/processed.mp4"
              "/srv/machine/temp/thumbnail.jpg" "WATCH NOW!" w
              (snd (ThumbnailGenerator.generate E
                      "/srv/machine/temp/processed.mp4"
                      "/srv/machine/temp/thumbnail.jpg" "WATCH NOW!" w))
              "/srv/machine/temp/thumbnail.jpg")
    as (img & fill & Hfile & Hlast & Hfill & _).
  - vm_compute. reflexivity.
  - exists img, fill. split; [exact Hfile |]. split; [exact Hlast |].
    split; [exact Hfill |].
    vm_compute in Hfile. injection Hfile as <-.
    vm_compute in Hlast. injection Hlast as <-. split; reflexivity.
Defined.

(** ** The upload *)

Section UploadMore.
Context (E : Env) (request : api_call).


End UploadMore.



Lemma getitem_pure obj key w o w' :
  Builtins.getitem obj key w = (o, w') -> w' = w.
Proof.
  destruct obj as [| b | z | s | l | d]; cbn; try (intros [= _ <-]; reflexivity).
  destruct (Py.assoc key d); intros [= _ <-]; reflexivity.
Qed.

Lemma execute_upload_quiet E fuel request w o w' :
  YouTubeUploader._execute_upload E fuel request w = (o, w') ->
  api_calls w' = api_calls w.
Proof.
  intros Hrun. pose proof (quiet_execute_upload E request fuel w) as Hquiet.
  rewrite Hrun in Hquiet. exact Hquiet.
Qed.

Lemma MediaFileUpload_opens E path w :
  open_media E path (files w !! path) = None ->
  YouTubeUploader.MediaFileUpload E path w = (Return path, w).
Proof.
  intros Hopen. unfold YouTubeUploader.MediaFileUpload, bind.
  rewrite Hopen. reflexivity.
Qed.

(** X10. When [upload_video] returns an identifier it has added to the
    API calls the insert request with the parts "snippet,status" for the
    video file and, if a thumbnail path was given, after it one thumbnail
    call for that path whose videoId is the identifier returned; without
    a thumbnail path the insert request is the only call. *)
Theorem upload_video_call_sequence (E : Env) (config : Config) (fuel : nat)
    (video : string) (metadata : pyval) (thumbnail : option string)
    (w w' : World) (v : pyval) :
  YouTubeUploader.upload_video E config fuel video metadata thumbnail w
    = (Return v, w') ->
  exists items,
    YouTubeUploader.build_body config metadata w = (Return items, w)
    /\ Py.keys items = ["snippet"; "status"]
    /\ api_calls w' =
         api_calls w
         ++ VideosInsert "snippet,status" (PDict items) video
            :: match thumbnail with
               | Some path => [ThumbnailsSet v path]
               | None => []
               end.
Proof.
  intros Hrun. apply logged_returns in Hrun.
  apply bind_returns in Hrun as (items & w1 & Hbody & Hrun).
  apply build_body_returns in Hbody as Hshape.
  destruct Hshape as (-> & d & title & description & niche & _ & _ & _ & _
                      & Hitems).
  apply bind_returns in Hrun as (media & w2 & Hmedia & Hrun).
  apply MediaFileUpload_returns in Hmedia as [-> ->].
  apply bind_returns in Hrun as ([] & w3 & [= <-] & Hrun).
  apply bind_returns in Hrun as (response & w4 & Hloop & Hrun).
  apply execute_upload_quiet in Hloop. cbn in Hloop.
  apply bind_returns in Hrun as ([] & w5 & Hthumb & Hrun).
  apply getitem_pure in Hrun as Hw'. subst w'.
  exists items. split; [exact Hbody |].
  split; [rewrite Hitems; reflexivity |].
  assert (Hpart : PyStr.join "," (Py.keys items) = "snippet,status")
    by (rewrite Hitems; reflexivity).
  rewrite Hpart in Hloop.
  destruct thumbnail as [path |].
  - apply bind_returns in Hthumb as (videoId & w6 & Hid & Hthumb).
    apply getitem_pure in Hid as Hw6. subst w6.
    assert (videoId = v) as ->.
    { apply getitem_returns in Hid as (d1 & -> & Hid).
      apply getitem_returns in Hrun as (d2 & [= <-] & Hv). congruence. }
    apply bind_returns in Hthumb as (media_body & w7 & Hmedia & Hthumb).
    apply MediaFileUpload_returns in Hmedia as [-> ->].
    apply bind_returns in Hthumb as ([] & w8 & [= <-] & Hthumb).
    destruct (thumbnails_set E (ThumbnailsSet v path)); [discriminate |].
    injection Hthumb as <-. cbn. rewrite Hloop, <- app_assoc. reflexivity.
  - injection Hthumb as <-. exact Hloop.
Qed.

Lemma upload_video_call_sequence_witness :
  let E := Demo.env [] 0 10 (Demo.one_chunk (Demo.created "dQw4w9WgXcQ")) in
  let w :=
    W.set_files
      (<["/srv/machine/temp/processed.mp4" := RawBytes "video"]>
         (<["/srv/machine/temp/thumbnail.jpg" := RawBytes "image"]> ∅))
      Demo.world in
  let run :=
    YouTubeUploader.upload_video E Demo.config 1
      "/srv/machine/temp/processed.mp4"
      (ContentScheduler.build_metadata E "fitness")
      (Some "/srv/machine/temp/thumbnail.jpg") w in
  exists items,
    api_calls (snd run) =
      [VideosInsert "snippet,status" (PDict items)
         "/srv/machine/temp/processed.mp4";
       ThumbnailsSet (PStr "dQw4w9WgXcQ") "/srv/machine/temp/thumbnail.jpg"].
Proof.
  intros E w run.
  destruct (upload_video_call_sequence E Demo.config 1
              "/srv/machine/temp/processed.mp4"
              (ContentScheduler.build_metadata E "fitness")
              (Some "/srv/machine/temp/thumbnail.jpg") w (snd run)
              (PStr "dQw4w9WgXcQ")) as (items & _ & _ & Hcalls).
  - vm_compute. reflexivity.
  - exists items. exact Hcalls.
Defined.

(** X11. A failure of the thumbnail call comes after the video has been
    inserted and is not compensated: [upload_video] re-raises it, the
    API calls made are the insert request and the failed thumbnail call,
    and no further call follows. *)
Theorem thumbnail_failure_leaves_video (E : Env) (config : Config)
    (fuel : nat) (video thumbnail : string) (metadata : pyval)
    (w w4 : World) (items : list (string * pyval))
    (answer : list (string * pyval)) (v : pyval) (e : exn) :
  let request :=
    VideosInsert (PyStr.join "," (Py.keys items)) (PDict items) video in
  let run :=
    YouTubeUploader.upload_video E config fuel video metadata
      (Some thumbnail) w in
  YouTubeUploader.build_body config metadata w = (Return items, w) ->
  open_media E video (files w !! video) = None ->
  YouTubeUploader._execute_upload E fuel request (W.add_api_call request w)
    = (Return (PDict answer), w4) ->
  Py.assoc "id" answer = Some v ->
  open_media E thumbnail (files w4 !! thumbnail) = None ->
  thumbnails_set E (ThumbnailsSet v thumbnail) = Some e ->
  fst run = Raise e
  /\ api_calls (snd run) =
       api_calls w ++ [request; ThumbnailsSet v thumbnail]
  /\ exists earlier,
       log (snd run) = earlier ++ [(ERROR, "Upload failed: " +:+ exn_str e)].
Proof.
  intros request run Hbody Hvideo Hloop Hid Hthumb Hset.
  assert (Hrun :
    run =
      (Raise e,
       W.add_log (ERROR, "Upload failed: " +:+ exn_str e)
         (W.add_api_call (ThumbnailsSet v thumbnail) w4))).
  { subst run. unfold YouTubeUploader.upload_video.
    rewrite logged_bind, Hbody, logged_bind.
    rewrite (MediaFileUpload_opens E video w Hvideo), logged_bind.
    cbn [YouTubeUploader.issue]. fold request.
    rewrite logged_bind, Hloop, logged_bind.
    unfold bind at 1. cbn [Builtins.getitem]. rewrite Hid. cbn [ret].
    unfold bind at 1. rewrite (MediaFileUpload_opens E thumbnail w4 Hthumb).
    unfold bind at 1. cbn [YouTubeUploader.issue]. rewrite Hset.
    reflexivity. }
  rewrite Hrun. cbn.
  apply execute_upload_quiet in Hloop. cbn in Hloop.
  rewrite Hloop, <- app_assoc. repeat split. eauto.
Qed.

Lemma thumbnail_failure_leaves_video_witness :
  let refuse (c : api_call) :=
    Some (Exn LibraryError "The thumbnail can't be set for the video") in
  let base := Demo.env [] 0 10 (Demo.one_chunk (Demo.created "dQw4w9WgXcQ")) in
  let E :=
    {| BASE_DIR := BASE_DIR base; environ := environ base;
       transport := transport base; entropy := entropy base;
       container_repr := container_repr base;
       capitalize_tables := capitalize_tables base;
       open_io := open_io base; write_io := write_io base;
       decode_video := decode_video base; render_text := render_text base;
       decode_audio := decode_audio base; encode_video := encode_video base;
       writer_error := writer_error base;
       get_frame := get_frame base; textbbox := textbbox base;
       save_image := save_image base; open_media := open_media base;
       next_chunk := next_chunk base; thumbnails_set := refuse |} in
  let w :=
    W.set_files
      (<["/srv/machine/temp/processed.mp4" := RawBytes "video"]>
         (<["/srv/machine/temp/thumbnail.jpg" := RawBytes "image"]> ∅))
      Demo.world in
  let run :=
    YouTubeUploader.upload_video E Demo.config 1
      "/srv/machine/temp/processed.mp4"
      (ContentScheduler.build_metadata E "fitness")
      (Some "/srv/machine/temp/thumbnail.jpg") w in
  fst run = Raise (Exn LibraryError "The thumbnail can't be set for the video")
  /\ length (api_calls (snd run)) = 2%nat.
Proof.
  intros refuse base E w run.
  edestruct (thumbnail_failure_leaves_video E Demo.config 1
               "/srv/machine/temp/processed.mp4"
               "/srv/machine/temp/thumbnail.jpg"
               (ContentScheduler.build_metadata E "fitness") w)
    as (Hraise & Hcalls & _).
  - vm_compute. reflexivity.
  - reflexivity.
  - vm_compute. reflexivity.
  - reflexivity.
  - reflexivity.
  - reflexivity.
  - subst run. rewrite Hraise, Hcalls. split; reflexivity.
Defined.

(** X12. [upload_video] makes no API call and asks for no chunk when the
    metadata cannot be turned into a request body or the video file
    cannot be opened: it logs "Upload failed" once and re-raises, leaving
    everything else as it was. *)
Theorem upload_video_preflight_failure (E : Env) (config : Config)
    (fuel : nat) (video : string) (metadata : pyval)
    (thumbnail : option string) (w : World) (e : exn) :
  (YouTubeUploader.build_body config metadata w = (Raise e, w)
   \/ (exists items,
         YouTubeUploader.build_body config metadata w = (Return items, w)
         /\ open_media E video (files w !! video) = Some e)) ->
  YouTubeUploader.upload_video E config fuel video metadata thumbnail w =
    (Raise e, W.add_log (ERROR, "Upload failed: " +:+ exn_str e) w).
Proof.
  intros [Hbody | (items & Hbody & Hmedia)];
    unfold YouTubeUploader.upload_video; rewrite logged_bind, Hbody;
    [reflexivity |].
  rewrite logged_bind. unfold YouTubeUploader.MediaFileUpload, bind.
  rewrite Hmedia. reflexivity.
Qed.

Lemma upload_video_preflight_failure_witness :
  let E := Demo.env [] 0 10 (Demo.one_chunk (Demo.created "dQw4w9WgXcQ")) in
  let untitled := PDict [("description", PStr "no title"); ("niche", PStr "x")] in
  let run :=
    YouTubeUploader.upload_video E Demo.config 1
      "/srv/machine/temp/processed.mp4" untitled None Demo.world in
  fst run = Raise (Exn KeyError "'title'")
  /\ api_calls (snd run) = []
  /\ chunks (snd run) = 0%nat.
Proof.
  intros E untitled run. subst run.
  rewrite (upload_video_preflight_failure E Demo.config 1
             "/srv/machine/temp/processed.mp4" untitled None Demo.world
             (Exn KeyError "'title'")).
  - repeat split.
  - left. reflexivity.
Defined.

(** ** The configuration *)

(** X13. [Config()] succeeds exactly when the four settings
    PEXELS_API_KEY, YOUTUBE_CLIENT_ID, YOUTUBE_CLIENT_SECRET and
    YOUTUBE_REFRESH_TOKEN are all present and non-empty in the
    environment, and then holds their values and the three default
    hashtags; if one of them is absent or empty it raises
    "Missing required environment variables".  Either way nothing else
    changes. *)
Theorem config_validation (E : Env) (w : World) :
  let names :=
    ["PEXELS_API_KEY"; "YOUTUBE_CLIENT_ID"; "YOUTUBE_CLIENT_SECRET";
     "YOUTUBE_REFRESH_TOKEN"] in
  ((forall k, In k names -> exists s, environ E !! k = Some s /\ s <> "") ->
   Config_.__init__ E w =
     (Return
        {| pexels_api_key := environ E !! "PEXELS_API_KEY";
           youtube_client_secret := environ E !! "YOUTUBE_CLIENT_SECRET";
           youtube_client_id := environ E !! "YOUTUBE_CLIENT_ID";
           youtube_refresh_token := environ E !! "YOUTUBE_REFRESH_TOKEN";
           default_hashtags := ["#Shorts"; "#Viral"; "#Trending"] |}, w))
  /\ ((exists k, In k names
                 /\ (environ E !! k = None \/ environ E !! k = Some "")) ->
      Config_.__init__ E w =
        (Raise (Exn OSError "Missing required environment variables"), w)).
Proof.
  intros names.
  assert (Hset : forall k,
            Config_.set (environ E !! k) = true
            <-> exists s, environ E !! k = Some s /\ s <> "").
  { intros k. unfold Config_.set. destruct (environ E !! k) as [s |].
    - destruct (String.eqb_spec s ""); cbn; split.
      + discriminate.
      + intros (s' & [= <-] & Hne). contradiction.
      + eauto.
      + reflexivity.
    - split; [discriminate | intros (s & [=] & _)]. }
  unfold Config_.__init__, Config_._validate, bind. cbn [forallb].
  cbn [pexels_api_key youtube_client_id youtube_client_secret
       youtube_refresh_token].
  split.
  - intros Hall.
    rewrite !(proj2 (Hset _)) by (apply Hall; cbn; auto).
    reflexivity.
  - intros (k & Hk & Hmissing).
    assert (Hno : Config_.set (environ E !! k) = false).
    { destruct (Config_.set (environ E !! k)) eqn:Hyes; [| reflexivity].
      apply Hset in Hyes as (s & Hs & Hne).
      destruct Hmissing as [Hnone | Hempty]; congruence. }
    cbn in Hk.
    destruct Hk as [<- | [<- | [<- | [<- | []]]]]; rewrite Hno;
      rewrite ?andb_false_r; reflexivity.
Qed.

Lemma config_validation_witness :
  fst (Config_.__init__ (Demo.env [] 0 10 (Demo.one_chunk PNone)) Demo.world)
  = Return Demo.config
  /\ (let bare :=
        {| BASE_DIR := "/srv/machine";
           environ := <["PEXELS_API_KEY" := "px-key"]>
                        (<["YOUTUBE_CLIENT_ID" := ""]> ∅);
           transport := Demo.scripted []; entropy := fun _ => 0%N;
           container_repr := fun _ => "";
           capitalize_tables := fun s => s;
           open_io := fun _ => None; write_io := fun _ _ => None;
           decode_video := fun _ _ => inl (Exn OSError "");
           render_text := fun _ => None;
           decode_audio := fun _ => None; encode_video := fun _ _ => None;
           writer_error := fun _ _ => "";
           get_frame := fun _ _ => inl (Exn OSError "");
           textbbox := fun _ => (0, 0, 0, 0); save_image := fun _ _ => None;
           open_media := fun _ _ => None;
           next_chunk := fun _ _ => inl (Exn OSError "");
           thumbnails_set := fun _ => None |} in
      fst (Config_.__init__ bare Demo.world)
      = Raise (Exn OSError "Missing required environment variables")).
Proof.
  split.
  - destruct (config_validation (Demo.env [] 0 10 (Demo.one_chunk PNone))
                Demo.world) as [Hok _].
    rewrite Hok; [reflexivity |].
    intros k [<- | [<- | [<- | [<- | []]]]]; eexists;
      (split; [reflexivity | discriminate]).
  - intros bare.
    destruct (config_validation bare Demo.world) as [_ Hmissing].
    rewrite Hmissing; [reflexivity |].
    exists "YOUTUBE_CLIENT_ID". split; [cbn; auto | right; reflexivity].
Defined.

(** ** The description *)

Lemma append_associative (a b c : string) :
  a +:+ (b +:+ c) = (a +:+ b) +:+ c.
Proof.
  induction a as [| x a IH]; [reflexivity |].
  change (String x (a +:+ (b +:+ c)) = String x ((a +:+ b) +:+ c)).
  rewrite IH. reflexivity.
Qed.

Lemma replace_char_removes c s :
  PyStr.contains_char c (PyStr.replace_char c "" s) = false.
Proof.
  induction s as [| a s IH]; [reflexivity |]. cbn.
  destruct (Ascii.eqb a c) eqn:Hac; cbn; [exact IH |].
  rewrite Ascii.eqb_sym, Hac. exact IH.
Qed.

Lemma build_description_returns config d w text w' :
  YouTubeUploader._build_description config (PDict d) w = (Return text, w') ->
  w' = w
  /\ exists description niche,
       match Py.assoc "description" d with
       | Some v => v
       | None => PStr ""
       end = PStr description
       /\ match Py.assoc "niche" d with
          | Some v => v
          | None => PStr "content"
          end = PStr niche
       /\ text =
            description +:+ PyStr.nl +:+ PyStr.nl
            +:+ PyStr.join " " (default_hashtags config) +:+ PyStr.nl
            +:+ "#" +:+ PyStr.replace_char " " "" niche.
Proof.
  unfold YouTubeUploader._build_description. cbn [Builtins.get].
  intros Hdesc.
  apply bind_returns in Hdesc as (desc_v & w3 & Hd & Hdesc).
  assert (w3 = w /\ desc_v = match Py.assoc "description" d with
                             | Some v => v | None => PStr "" end)
    as [-> Hdv].
  { destruct (Py.assoc "description" d); injection Hd as <- <-; auto. }
  apply bind_returns in Hdesc as (niche_v & w4 & Hn & Hdesc).
  assert (w4 = w /\ niche_v = match Py.assoc "niche" d with
                              | Some v => v | None => PStr "content" end)
    as [-> Hnv].
  { destruct (Py.assoc "niche" d); injection Hn as <- <-; auto. }
  apply bind_returns in Hdesc as (stripped & w5 & Hstrip & Hdesc).
  apply bind_returns in Hdesc as (parts & w6 & Hjoin & [= <- <-]).
  apply join_values_returns in Hjoin as [Hparts ->].
  destruct niche_v as [| | | niche | |]; try discriminate.
  injection Hstrip as <- <-.
  destruct parts as [| description [| blank [| tags [| tag [| ? ?]]]]];
    try discriminate.
  injection Hparts as Hdescription <- <- <-.
  split; [reflexivity |]. exists description, niche.
  split; [congruence |]. split; [congruence |]. reflexivity.
Qed.

(** X14. [_build_description] fails on values that are not strings, in
    the order of the source: a "niche" that is no [str] raises the
    AttributeError of its missing [replace] (also when the description is
    no string either); with a string niche, a "description" that is no
    [str] raises the TypeError of [join] for item 0.  Nothing is changed. *)
Theorem build_description_type_errors (config : Config)
    (d : list (string * pyval)) (w : World) :
  let description :=
    match Py.assoc "description" d with Some v => v | None => PStr "" end in
  let niche :=
    match Py.assoc "niche" d with Some v => v | None => PStr "content" end in
  ((forall n, niche <> PStr n) ->
   YouTubeUploader._build_description config (PDict d) w =
     (Raise (Exn AttributeError
               ("'" +:+ Py.type_name niche
                +:+ "' object has no attribute 'replace'")), w))
  /\ ((exists n, niche = PStr n) ->
      (forall s, description <> PStr s) ->
      YouTubeUploader._build_description config (PDict d) w =
        (Raise (Exn TypeError
                  ("sequence item 0: expected str instance, "
                   +:+ Py.type_name description +:+ " found")), w)).
Proof.
  intros description niche.
  assert (Hget : forall key default,
            Builtins.get (PDict d) key default w =
              (Return match Py.assoc key d with
                      | Some v => v
                      | None => default
                      end, w)).
  { intros key default. cbn. destruct (Py.assoc key d); reflexivity. }
  unfold YouTubeUploader._build_description. split.
  - intros Hniche. unfold bind at 1. rewrite Hget.
    unfold bind at 1. rewrite Hget. fold niche.
    destruct niche as [| b | z | n | l | d']; try reflexivity.
    exfalso. apply (Hniche n). reflexivity.
  - intros [n Hn] Hdesc. unfold bind at 1. rewrite Hget.
    unfold bind at 1. rewrite Hget. fold niche description. rewrite Hn.
    destruct description as [| b | z | s | l | d']; try reflexivity.
    exfalso. apply (Hdesc s). reflexivity.
Qed.

Lemma build_description_type_errors_witness :
  YouTubeUploader._build_description Demo.config
    (PDict [("description", PInt 7); ("niche", PList [PStr "fitness"])])
    Demo.world =
    (Raise (Exn AttributeError "'list' object has no attribute 'replace'"),
     Demo.world)
  /\ YouTubeUploader._build_description Demo.config
       (PDict [("description", PInt 7)]) Demo.world =
       (Raise (Exn TypeError
                 "sequence item 0: expected str instance, int found"),
        Demo.world).
Proof.
  split.
  - destruct (build_description_type_errors Demo.config
                [("description", PInt 7); ("niche", PList [PStr "fitness"])]
                Demo.world) as [Hniche _].
    apply Hniche. intros n. discriminate.
  - destruct (build_description_type_errors Demo.config
                [("description", PInt 7)] Demo.world) as [_ Hdesc].
    apply Hdesc; [eexists; reflexivity | intros s; discriminate].
Defined.

(** X15. A description that [_build_description] returns ends with a
    line of its own made of "#" and the niche (or "content") with every
    space removed: the hashtag contains no space, whatever the niche. *)
Theorem description_hashtag_has_no_space (config : Config)
    (d : list (string * pyval)) (w w' : World) (text : string) :
  YouTubeUploader._build_description config (PDict d) w = (Return text, w') ->
  exists head tag,
    text = head +:+ PyStr.nl +:+ "#" +:+ tag
    /\ PyStr.contains_char " " tag = false
    /\ exists niche,
         match Py.assoc "niche" d with
         | Some v => v
         | None => PStr "content"
         end = PStr niche
         /\ tag = PyStr.replace_char " " "" niche.
Proof.
  intros Hrun.
  apply build_description_returns in Hrun
    as (_ & description & niche & _ & Hniche & ->).
  exists (description +:+ PyStr.nl +:+ PyStr.nl
          +:+ PyStr.join " " (default_hashtags config)),
    (PyStr.replace_char " " "" niche).
  split.
  - rewrite <- !append_associative. reflexivity.
  - split; [apply replace_char_removes |]. eauto.
Qed.

Lemma description_hashtag_has_no_space_witness :
  exists head,
    fst (YouTubeUploader._build_description Demo.config
           (PDict [("niche", PStr "home  workout tips")]) Demo.world)
    = Return (head +:+ PyStr.nl +:+ "#homeworkouttips").
Proof.
  destruct (description_hashtag_has_no_space Demo.config
              [("niche", PStr "home  workout tips")] Demo.world Demo.world
              (PyStr.nl +:+ PyStr.nl +:+ "#Shorts #Viral #Trending"
               +:+ PyStr.nl +:+ "#homeworkouttips"))
    as (head & tag & Htext & _ & niche & Hniche & Htag).
  - reflexivity.
  - injection Hniche as <-. vm_compute in Htag. subst tag.
    exists head.
    change (head +:+ PyStr.nl +:+ "#homeworkouttips")
      with (head +:+ PyStr.nl +:+ "#" +:+ "homeworkouttips").
    rewrite <- Htext. reflexivity.
Defined.

(** ** The edited video *)

Lemma choice_returns E {A} (l : list A) w a w' :
  Sys.choice E l w = (Return a, w') -> In a l.
Proof.
  destruct l as [| x l]; [discriminate |].
  rewrite choice_run. intros Hrun.
  set (r := fst (Sys.below (N.of_nat (length (x :: l)))
                   (entropy E (draws w)))) in *.
  replace a with (nth (N.to_nat r) (x :: l) x) by congruence.
  apply nth_In.
  pose proof (below_lt (N.of_nat (length (x :: l))) (entropy E (draws w))
                ltac:(cbn; lia)) as Hlt.
  fold r in Hlt. clearbody r. lia.
Qed.

Lemma add_music_returns E clip w clip' w' :
  VideoEditor.add_music E clip w = (Return clip', w') ->
  let music_dir := Sys.path_join (Sys.CONTENT_DIR E) "music" in
  (fst (Sys.exists_ music_dir w) = Return false /\ clip' = clip)
  \/ (fst (Sys.exists_ music_dir w) = Return true
      /\ exists tracks track,
           fst (Sys.glob_suffix music_dir ".mp3" w) = Return tracks
           /\ In track tracks
           /\ clip' =
                VideoEditor.set_audio clip
                  {| audio_source := track; audio_volume := 3 # 10 |}).
Proof.
  intros Hrun music_dir. unfold VideoEditor.add_music in Hrun.
  fold music_dir in Hrun.
  apply bind_returns in Hrun as (present & w1 & Hpresent & Hrun).
  unfold Sys.exists_ in Hpresent. injection Hpresent as Hpresent <-.
  unfold Sys.exists_. cbn [fst]. fold music_dir. rewrite Hpresent.
  destruct present.
  - right. split; [reflexivity |].
    apply bind_returns in Hrun as (tracks & w2 & Htracks & Hrun).
    unfold Sys.glob_suffix in Htracks. injection Htracks as Htracks <-.
    apply bind_returns in Hrun as (track & w3 & Hchoice & Hrun).
    apply choice_returns in Hchoice.
    apply bind_returns in Hrun as ([] & w4 & _ & [= <- _]).
    exists tracks, track. unfold Sys.glob_suffix. cbn [fst].
    fold music_dir. rewrite Htracks. auto.
  - left. injection Hrun as <- _. auto.
Qed.

(** X16. When [process_video] returns, it returns the output path, and
    the file there is the encoding, with the profile libx264 / aac / 4
    threads / fast, of a clip as long as the source that carries, on top
    of the source's overlays, the one caption (size 60, white, black
    stroke of width 2, centred, for the whole duration); its sound is
    the source's when there is no music directory, and otherwise one of
    the ".mp3" entries of that directory at volume 0.3. *)
Theorem process_video_output (E : Env) (input output text : string)
    (w w' : World) (p : string) :
  VideoEditor.process_video E input output text w = (Return p, w') ->
  let music_dir := Sys.path_join (Sys.CONTENT_DIR E) "music" in
  exists source final,
    decode_video E input (files w !! input) = inr source
    /\ p = output
    /\ files w' !! output =
         Some
           (EncodedVideo final
              {| codec := "libx264"; audio_codec := "aac"; threads := 4;
                 preset := "fast" |})
    /\ clip_duration final = clip_duration source
    /\ clip_overlays final =
         clip_overlays source
         ++ [{| overlay_text := text; overlay_fontsize := 60;
                overlay_color := "white";
                overlay_font := VideoEditor.font E;
                overlay_stroke_color := "black"; overlay_stroke_width := 2;
                overlay_position := "center";
                overlay_duration := clip_duration source |}]
    /\ ((fst (Sys.exists_ music_dir w) = Return false
         /\ clip_audio final = clip_audio source)
        \/ (fst (Sys.exists_ music_dir w) = Return true
            /\ exists tracks track,
                 fst (Sys.glob_suffix music_dir ".mp3" w) = Return tracks
                 /\ In track tracks
                 /\ clip_audio final =
                      Some {| audio_source := track;
                              audio_volume := 3 # 10 |})).
Proof.
  intros Hrun music_dir. apply logged_returns in Hrun.
  apply bind_returns in Hrun as (source & w1 & Hclip & Hrun).
  unfold VideoEditor.VideoFileClip in Hclip.
  destruct (decode_video E input (files w !! input)) as [e | c] eqn:Hdecode;
    [discriminate |].
  injection Hclip as -> <-.
  apply bind_returns in Hrun as ([] & w2 & Hrender & Hrun).
  assert (w2 = w) as ->.
  { destruct (render_text E _); [discriminate |]. injection Hrender as <-.
    reflexivity. }
  apply bind_returns in Hrun as (final & w3 & Hmusic & Hrun).
  apply add_music_returns in Hmusic. fold music_dir in Hmusic.
  apply bind_returns in Hrun as ([] & w4 & Hwrite & [= <- <-]).
  unfold VideoEditor.write_videofile in Hwrite.
  apply bind_returns in Hwrite as ([] & w5 & _ & Hwrite).
  apply try_reraise_returns in Hwrite.
  apply write_file_returns in Hwrite as [-> _].
  exists source, final. split; [reflexivity |]. split; [reflexivity |].
  split; [cbn; apply lookup_insert_eq |].
  destruct Hmusic as [[Habsent ->] | (Hpresent & tracks & track & Hglob & Hin
                                      & ->)].
  - split; [reflexivity |]. split; [reflexivity |]. left. auto.
  - split; [reflexivity |]. split; [reflexivity |]. right.
    split; [exact Hpresent |]. exists tracks, track. auto.
Qed.

Lemma process_video_output_witness :
  let E := Demo.env [] 1 10 (Demo.one_chunk PNone) in
  let w :=
    W.set_files
      (<["/srv/machine/content/pexels_857195.mp4" := RawBytes "bytes"]>
         (files (Demo.with_music ["intro.mp3"; "notes.txt"; "loop.mp3"])))
      (Demo.with_music []) in
  let run :=
    VideoEditor.process_video E "/srv/machine/content/pexels_857195.mp4"
      "/srv/machine/temp/processed.mp4" "5 SECONDS HACKS!" w in
  exists final profile,
    files (snd run) !! "/srv/machine/temp/processed.mp4"
      = Some (EncodedVideo final profile)
    /\ clip_duration final = 10%Q
    /\ length (clip_overlays final) = 1%nat.
Proof.
  intros E w run.
  destruct (process_video_output E "/srv/machine/content/pexels_857195.mp4"
              "/srv/machine/temp/processed.mp4" "5 SECONDS HACKS!" w
              (snd run) "/srv/machine/temp/processed.mp4")
    as (source & final & Hdecode & _ & Hfile & Hduration & Hoverlays & _).
  - vm_compute. reflexivity.
  - injection Hdecode as <-.
    exists final, {| codec := "libx264"; audio_codec := "aac"; threads := 4;
                     preset := "fast" |}.
    split; [exact Hfile |]. split; [exact Hduration |].
    rewrite Hoverlays. reflexivity.
Defined.

(** ** The whole run *)

(** The stages keep any frame relation that their primitive effects
    keep. *)
Section KeepsStages.
Context (R : World -> World -> Prop) `{!FrameRel R} (E : Env).
Hypothesis R_write : forall path b, keeps R (Sys.write_file E path b).
Hypothesis R_draw : keeps R (Sys.next_draw E).
Hypothesis R_get : forall r, keeps R (Sys.session_get E r).
Hypothesis R_issue : forall c, keeps R (YouTubeUploader.issue c).
Hypothesis R_chunk :
  forall request, keeps R (YouTubeUploader.request_next_chunk E request).

Lemma stage_keeps_VideoFileClip path :
  keeps R (VideoEditor.VideoFileClip E path).
Proof.
  intros w. unfold VideoEditor.VideoFileClip.
  destruct (decode_video E path (files w !! path)); apply frame_refl.
Qed.

Lemma stage_keeps_choice {A} (l : list A) : keeps R (Sys.choice E l).
Proof. apply keeps_choice; assumption. Qed.

Lemma stage_keeps_choice_value v : keeps R (Sys.choice_value E v).
Proof. apply keeps_choice_value; assumption. Qed.

Lemma stage_keeps_attempts range url path :
  keeps R (ContentDownloader.attempts E range url path).
Proof.
  induction range as [| attempt rest IH]; cbn [ContentDownloader.attempts];
    mono.
Qed.

Lemma stage_keeps_get_pexels_video config query duration :
  keeps R (ContentDownloader.get_pexels_video E config query duration).
Proof.
  pose proof stage_keeps_attempts. pose proof stage_keeps_choice_value.
  unfold ContentDownloader.get_pexels_video, ContentDownloader.fetch_candidate,
    ContentDownloader._download_file.
  mono.
Qed.

Lemma stage_keeps_process_video input output text :
  keeps R (VideoEditor.process_video E input output text).
Proof.
  pose proof stage_keeps_VideoFileClip. pose proof @stage_keeps_choice.
  unfold VideoEditor.process_video, VideoEditor.write_videofile,
    VideoEditor.add_music.
  mono.
Qed.

Lemma stage_keeps_generate video output text :
  keeps R (ThumbnailGenerator.generate E video output text).
Proof.
  pose proof stage_keeps_VideoFileClip.
  pose proof (keeps_uniform R E R_draw).
  unfold ThumbnailGenerator.generate, ThumbnailGenerator.sample_timestamp.
  mono.
Qed.

Lemma stage_keeps_upload_video config fuel video metadata thumbnail :
  keeps R
    (YouTubeUploader.upload_video E config fuel video metadata thumbnail).
Proof.
  pose proof (fun request => keeps_execute_upload R E request (R_chunk request))
    as Hloop.
  unfold YouTubeUploader.upload_video. mono.
Qed.

End KeepsStages.

Lemma logged_raises {A} label (m : M A) w e w' :
  logged label m w = (Raise e, w') ->
  exists w1,
    m w = (Raise e, w1)
    /\ w' = W.add_log (ERROR, label +:+ ": " +:+ exn_str e) w1.
Proof.
  unfold logged, try_except.
  destruct (m w) as [[a | e0 |] w1]; try discriminate.
  cbn. intros [= -> <-]. eauto.
Qed.

Lemma calm_write_file E path b :
  keeps same_api_calls (Sys.write_file E path b).
Proof.
  intros w. unfold Sys.write_file.
  destruct (Sys.write_effect E path b w). reflexivity.
Qed.

Lemma calm_next_draw E : keeps same_api_calls (Sys.next_draw E).
Proof. intros w. reflexivity. Qed.

Lemma calm_session_get E r : keeps same_api_calls (Sys.session_get E r).
Proof.
  intros w. unfold Sys.session_get.
  destruct (transport E (length (requests w)) r); reflexivity.
Qed.

Lemma quiet_issue c : keeps same_requests (YouTubeUploader.issue c).
Proof. intros w. reflexivity. Qed.

Lemma quiet_chunk E request :
  keeps same_requests (YouTubeUploader.request_next_chunk E request).
Proof.
  intros w. unfold YouTubeUploader.request_next_chunk.
  destruct (next_chunk E (chunks w) request); reflexivity.
Qed.

(** X17. A run that returns has cleaned up: every stage had returned,
    the downloaded file, the processed video and the thumbnail are gone,
    every other file is as the upload left it, and the last record of
    the log is the INFO record with the identifier returned. *)
Theorem completed_run_cleans_up (E : Env) (config : Config) (fuel : nat)
    (niche query : string) (w : World) (v : pyval) :
  let run := ContentScheduler.run_pipeline E config fuel niche query w in
  let processed := Sys.path_join (Sys.TEMP_DIR E) "processed.mp4" in
  let thumbnail := Sys.path_join (Sys.TEMP_DIR E) "thumbnail.jpg" in
  fst run = Return v ->
  exists video_path w1 w2 w3 w4,
    ContentDownloader.get_pexels_video E config query 15 w
      = (Return video_path, w1)
    /\ VideoEditor.process_video E video_path processed
         "5 SECONDS HACKS! ðŸš€" w1 = (Return processed, w2)
    /\ ThumbnailGenerator.generate E processed thumbnail "WATCH NOW!" w2
       = (Return thumbnail, w3)
    /\ YouTubeUploader.upload_video E config fuel processed
         (ContentScheduler.build_metadata E niche) (Some thumbnail) w3
       = (Return v, w4)
    /\ files (snd run) !! video_path = None
    /\ files (snd run) !! processed = None
    /\ files (snd run) !! thumbnail = None
    /\ (forall p, p <> video_path -> p <> processed -> p <> thumbnail ->
                  files (snd run) !! p = files w4 !! p)
    /\ last (log (snd run)) =
         Some (INFO, "Successfully uploaded video ID: " +:+ Builtins.str E v).
Proof.
  intros run processed thumbnail Hv.
  pose proof (run_pipeline_trace E config fuel niche query w) as Htrace.
  fold run in Htrace. rewrite Hv in Htrace.
  inversion Htrace
    as [| | | | | video_path w1 edited_path w2 thumbnail_path w3 video_id w4
                w5 H1 H2 H3 H4 H5]; subst video_id.
  fold processed in H2. fold thumbnail in H3.
  apply process_video_delivers in H2 as Hedited. destruct Hedited as [-> _].
  apply generate_delivers in H3 as Hthumb. destruct Hthumb as [-> _].
  destruct (cleanup_returns [video_path; processed; thumbnail]
              (W.add_log
                 (INFO,
                  "Successfully uploaded video ID: " +:+ Builtins.str E v) w4))
    as (w5' & Hclean & Hfiles & _ & Hlog & _).
  rewrite H5 in Hclean. injection Hclean as <-.
  exists video_path, w1, w2, w3, w4.
  repeat (split; [assumption |]).
  split; [| split; [| split; [| split]]].
  - rewrite Hfiles. apply decide_True, list_elem_of_here.
  - rewrite Hfiles.
    apply decide_True, list_elem_of_further, list_elem_of_here.
  - rewrite Hfiles. apply decide_True.
    do 2 apply list_elem_of_further. apply list_elem_of_here.
  - intros p Hp1 Hp2 Hp3. rewrite Hfiles. rewrite decide_False; [reflexivity |].
    intros Hin. repeat (apply elem_of_cons in Hin as [-> | Hin]; [congruence |]).
    apply not_elem_of_nil in Hin. exact Hin.
  - rewrite Hlog. cbn. apply last_snoc.
Qed.

Lemma completed_run_cleans_up_witness :
  let E :=
    Demo.env [Demo.found [Demo.candidate 857195 Demo.link];
              Demo.ok "bytes" Demo.not_json]
      0 10 (Demo.one_chunk (Demo.created "dQw4w9WgXcQ")) in
  let w :=
    W.set_files (<["/srv/machine/content/keep.mp4" := RawBytes "old"]> ∅)
      Demo.world in
  let run :=
    ContentScheduler.run_pipeline E Demo.config 1 "fitness"
      "exercise motivation" w in
  files (snd run) !! "/srv/machine/temp/processed.mp4" = None
  /\ files (snd run) !! "/srv/machine/temp/thumbnail.jpg" = None
  /\ last (log (snd run)) =
       Some (INFO, "Successfully uploaded video ID: dQw4w9WgXcQ").
Proof.
  intros E w run.
  destruct (completed_run_cleans_up E Demo.config 1 "fitness"
              "exercise motivation" w (PStr "dQw4w9WgXcQ"))
    as (video_path & w1 & w2 & w3 & w4 & _ & _ & _ & _ & _ & Hp & Ht & _
        & Hlog).
  - vm_compute. reflexivity.
  - split; [exact Hp |]. split; [exact Ht | exact Hlog].
Defined.

(** X18. No call reaches the platform API before the download, the
    editing and the thumbnail have all returned: a run whose API calls
    differ from those before it has been through all three stages. *)
Theorem no_upload_before_thumbnail (E : Env) (config : Config) (fuel : nat)
    (niche query : string) (w : World) :
  let run := ContentScheduler.run_pipeline E config fuel niche query w in
  let processed := Sys.path_join (Sys.TEMP_DIR E) "processed.mp4" in
  let thumbnail := Sys.path_join (Sys.TEMP_DIR E) "thumbnail.jpg" in
  api_calls (snd run) <> api_calls w ->
  exists video_path w1 edited_path w2 thumbnail_path w3,
    ContentDownloader.get_pexels_video E config query 15 w
      = (Return video_path, w1)
    /\ VideoEditor.process_video E video_path processed
         "5 SECONDS HACKS! ðŸš€" w1 = (Return edited_path, w2)
    /\ ThumbnailGenerator.generate E edited_path thumbnail "WATCH NOW!" w2
       = (Return thumbnail_path, w3)
    /\ api_calls w3 = api_calls w.
Proof.
  intros run processed thumbnail Hcalls.
  pose proof (run_pipeline_trace E config fuel niche query w) as Htrace.
  fold run in Htrace.
  assert (Hdown : forall o w1,
            ContentDownloader.get_pexels_video E config query 15 w = (o, w1) ->
            api_calls w1 = api_calls w).
  { intros o w1 H.
    pose proof (stage_keeps_get_pexels_video same_api_calls E (calm_write_file E)
                  (calm_next_draw E) (calm_session_get E) config query 15 w)
      as Hk.
    rewrite H in Hk. exact Hk. }
  assert (Hproc : forall i o t w1 r w2,
            VideoEditor.process_video E i o t w1 = (r, w2) ->
            api_calls w2 = api_calls w1).
  { intros i o t w1 r w2 H.
    pose proof (stage_keeps_process_video same_api_calls E (calm_write_file E)
                  (calm_next_draw E) i o t w1) as Hk.
    rewrite H in Hk. exact Hk. }
  assert (Hgen : forall i o t w2 r w3,
            ThumbnailGenerator.generate E i o t w2 = (r, w3) ->
            api_calls w3 = api_calls w2).
  { intros i o t w2 r w3 H.
    pose proof (stage_keeps_generate same_api_calls E (calm_write_file E)
                  (calm_next_draw E) i o t w2) as Hk.
    rewrite H in Hk. exact Hk. }
  inversion Htrace
    as [e w1 H1 Ho Hw
       | video_path w1 e w2 H1 H2 Ho Hw
       | video_path w1 edited_path w2 e w3 H1 H2 H3 Ho Hw
       | video_path w1 edited_path w2 thumbnail_path w3 e w4 H1 H2 H3 H4 Ho Hw
       | video_path w1 edited_path w2 thumbnail_path w3 w4 H1 H2 H3 H4 Ho Hw
       | video_path w1 edited_path w2 thumbnail_path w3 video_id w4 w5
           H1 H2 H3 H4 H5 Ho Hw].
  - exfalso. apply Hcalls. rewrite <- Hw. cbn. eapply Hdown, H1.
  - exfalso. apply Hcalls. rewrite <- Hw. cbn.
    rewrite (Hproc _ _ _ _ _ _ H2). eapply Hdown, H1.
  - exfalso. apply Hcalls. rewrite <- Hw. cbn.
    rewrite (Hgen _ _ _ _ _ _ H3), (Hproc _ _ _ _ _ _ H2). eapply Hdown, H1.
  - exists video_path, w1, edited_path, w2, thumbnail_path, w3.
    repeat (split; [assumption |]).
    rewrite (Hgen _ _ _ _ _ _ H3), (Hproc _ _ _ _ _ _ H2). eapply Hdown, H1.
  - exists video_path, w1, edited_path, w2, thumbnail_path, w3.
    repeat (split; [assumption |]).
    rewrite (Hgen _ _ _ _ _ _ H3), (Hproc _ _ _ _ _ _ H2). eapply Hdown, H1.
  - exists video_path, w1, edited_path, w2, thumbnail_path, w3.
    repeat (split; [assumption |]).
    rewrite (Hgen _ _ _ _ _ _ H3), (Hproc _ _ _ _ _ _ H2). eapply Hdown, H1.
Qed.

Lemma no_upload_before_thumbnail_witness :
  let E :=
    Demo.env [Demo.found [Demo.candidate 857195 Demo.link];
              Demo.ok "bytes" Demo.not_json]
      0 10 (fun _ => inl (Exn LibraryError "quotaExceeded")) in
  exists video_path w1 edited_path w2 thumbnail_path w3,
    ContentDownloader.get_pexels_video E Demo.config "exercise motivation" 15
      Demo.world = (Return video_path, w1)
    /\ VideoEditor.process_video E video_path
         "/srv/machine/temp/processed.mp4" "5 SECONDS HACKS! ðŸš€" w1
       = (Return edited_path, w2)
    /\ ThumbnailGenerator.generate E edited_path
         "/srv/machine/temp/thumbnail.jpg" "WATCH NOW!" w2
       = (Return thumbnail_path, w3)
    /\ api_calls w3 = [].
Proof.
  intros E.
  apply (no_upload_before_thumbnail E Demo.config 1 "fitness"
           "exercise motivation" Demo.world).
  vm_compute. discriminate.
Defined.

(** X19. A whole run of the pipeline issues between one and four GETs:
    the search for the query with the default duration 15, then at most
    three GETs of one download url; editing, thumbnail, upload and
    cleanup go through the session not at all. *)
Theorem run_pipeline_request_budget (E : Env) (config : Config) (fuel : nat)
    (niche query : string) (w : World) :
  let run := ContentScheduler.run_pipeline E config fuel niche query w in
  exists url k,
    (k <= 3)%nat
    /\ requests (snd run) =
         requests w
         ++ ContentDownloader.search_request config query 15
            :: repeat (ContentDownloader.download_request url) k.
Proof.
  intros run.
  pose proof (run_pipeline_trace E config fuel niche query w) as Htrace.
  fold run in Htrace.
  destruct (get_pexels_video_budget E config query 15 w)
    as (url & k & Hk & Hbudget).
  exists url, k. split; [exact Hk |]. rewrite <- Hbudget. clear Hbudget.
  assert (Hproc : forall i o t w1 r w2,
            VideoEditor.process_video E i o t w1 = (r, w2) ->
            requests w2 = requests w1).
  { intros i o t w1 r w2 H.
    pose proof (stage_keeps_process_video same_requests E (quiet_write_file E)
                  (quiet_next_draw E) i o t w1) as Hk'.
    rewrite H in Hk'. exact Hk'. }
  assert (Hgen : forall i o t w2 r w3,
            ThumbnailGenerator.generate E i o t w2 = (r, w3) ->
            requests w3 = requests w2).
  { intros i o t w2 r w3 H.
    pose proof (stage_keeps_generate same_requests E (quiet_write_file E)
                  (quiet_next_draw E) i o t w2) as Hk'.
    rewrite H in Hk'. exact Hk'. }
  assert (Hup : forall v m t w3 r w4,
            YouTubeUploader.upload_video E config fuel v m t w3 = (r, w4) ->
            requests w4 = requests w3).
  { intros v m t w3 r w4 H.
    pose proof (stage_keeps_upload_video same_requests E quiet_issue
                  (quiet_chunk E) config fuel v m t w3) as Hk'.
    rewrite H in Hk'. exact Hk'. }
  inversion Htrace
    as [e w1 H1 Ho Hw
       | video_path w1 e w2 H1 H2 Ho Hw
       | video_path w1 edited_path w2 e w3 H1 H2 H3 Ho Hw
       | video_path w1 edited_path w2 thumbnail_path w3 e w4 H1 H2 H3 H4 Ho Hw
       | video_path w1 edited_path w2 thumbnail_path w3 w4 H1 H2 H3 H4 Ho Hw
       | video_path w1 edited_path w2 thumbnail_path w3 video_id w4 w5
           H1 H2 H3 H4 H5 Ho Hw];
    rewrite H1; cbn [snd W.add_log requests].
  - reflexivity.
  - apply (Hproc _ _ _ _ _ _ H2).
  - rewrite (Hgen _ _ _ _ _ _ H3). apply (Hproc _ _ _ _ _ _ H2).
  - rewrite (Hup _ _ _ _ _ _ H4), (Hgen _ _ _ _ _ _ H3).
    apply (Hproc _ _ _ _ _ _ H2).
  - rewrite (Hup _ _ _ _ _ _ H4), (Hgen _ _ _ _ _ _ H3).
    apply (Hproc _ _ _ _ _ _ H2).
  - destruct (cleanup_returns [video_path; edited_path; thumbnail_path]
                (W.add_log
                   (INFO,
                    "Successfully uploaded video ID: "
                    +:+ Builtins.str E video_id) w4))
      as (w5' & Hclean & _ & _ & _ & Hreq & _).
    rewrite H5 in Hclean. injection Hclean as <-.
    rewrite Hreq. cbn.
    rewrite (Hup _ _ _ _ _ _ H4), (Hgen _ _ _ _ _ _ H3).
    apply (Hproc _ _ _ _ _ _ H2).
Qed.

(** X20. A failure is logged twice, innermost first: when a run raises
    [e], the last two records of the log are the ERROR record of the
    stage that failed ("Pexels video fetch failed", "Video processing
    failed", "Thumbnail generation failed" or "Upload failed", followed
    by the text of [e]) and then "Pipeline failed" with the same text. *)
Theorem stage_failure_logged_twice (E : Env) (config : Config) (fuel : nat)
    (niche query : string) (w : World) (e : exn) :
  let run := ContentScheduler.run_pipeline E config fuel niche query w in
  fst run = Raise e ->
  exists earlier label,
    In label
      ["Pexels video fetch failed"; "Video processing failed";
       "Thumbnail generation failed"; "Upload failed"]
    /\ log (snd run) =
         earlier
         ++ [(ERROR, label +:+ ": " +:+ exn_str e);
             (ERROR, "Pipeline failed: " +:+ exn_str e)].
Proof.
  intros run He.
  pose proof (run_pipeline_trace E config fuel niche query w) as Htrace.
  fold run in Htrace. rewrite He in Htrace.
  assert (Hshape : forall label w1,
            log (W.add_log (ERROR, "Pipeline failed: " +:+ exn_str e)
                   (W.add_log (ERROR, label +:+ ": " +:+ exn_str e) w1)) =
              log w1
              ++ [(ERROR, label +:+ ": " +:+ exn_str e);
                  (ERROR, "Pipeline failed: " +:+ exn_str e)]).
  { intros label w1. cbn. rewrite <- app_assoc. reflexivity. }
  inversion Htrace
    as [e0 w1 H1
       | video_path w1 e0 w2 H1 H2
       | video_path w1 edited_path w2 e0 w3 H1 H2 H3
       | video_path w1 edited_path w2 thumbnail_path w3 e0 w4 H1 H2 H3 H4
       | |]; subst e0.
  - apply logged_raises in H1 as (w0 & _ & ->).
    exists (log w0), "Pexels video fetch failed".
    split; [cbn; auto | apply Hshape].
  - apply logged_raises in H2 as (w0 & _ & ->).
    exists (log w0), "Video processing failed".
    split; [cbn; auto | apply Hshape].
  - apply logged_raises in H3 as (w0 & _ & ->).
    exists (log w0), "Thumbnail generation failed".
    split; [cbn; auto | apply Hshape].
  - apply logged_raises in H4 as (w0 & _ & ->).
    exists (log w0), "Upload failed".
    split; [cbn; auto 6 | apply Hshape].
Qed.

Lemma stage_failure_logged_twice_witness :
  let E := Demo.env [Demo.found []] 0 10 (Demo.one_chunk PNone) in
  let run :=
    ContentScheduler.run_pipeline E Demo.config 1 "fitness"
      "exercise motivation" Demo.world in
  exists earlier label,
    In label
      ["Pexels video fetch failed"; "Video processing failed";
       "Thumbnail generation failed"; "Upload failed"]
    /\ log (snd run) =
         earlier
         ++ [(ERROR, label +:+ ": " +:+ "No videos found matching criteria");
             (ERROR, "Pipeline failed: "
                     +:+ "No videos found matching criteria")].
Proof.
  intros E run.
  apply (stage_failure_logged_twice E Demo.config 1 "fitness"
           "exercise motivation" Demo.world
           (Exn ValueError "No videos found matching criteria")).
  vm_compute. reflexivity.
Defined.

(** ** Start-up *)

Lemma config_init_cases (E : Env) (w : World) :
  Config_.__init__ E w =
    if configured E
    then (Return (config_of E), w)
    else (Raise (Exn OSError "Missing required environment variables"), w).
Proof.
  unfold Config_.__init__, Config_._validate, bind, configured, config_of.
  cbn [pexels_api_key youtube_client_id youtube_client_secret
       youtube_refresh_token].
  destruct (forallb _ _); reflexivity.
Qed.

Lemma records_run (entries : list (level * string)) (w : World) :
  logging.records entries w = (Return tt, W.add_logs entries w).
Proof.
  revert w. induction entries as [| [lv msg] rest IH]; intros w.
  - destruct w. unfold W.add_logs. cbn. rewrite app_nil_r. reflexivity.
  - cbn. unfold bind, logging.emit. rewrite IH.
    unfold W.add_logs, W.add_log. cbn. rewrite <- app_assoc. reflexivity.
Qed.

Lemma add_logs_nil (w : World) : W.add_logs [] w = w.
Proof. destruct w. unfold W.add_logs. cbn. rewrite app_nil_r. reflexivity. Qed.

Lemma add_logs_app (l1 l2 : list (level * string)) (w : World) :
  W.add_logs l2 (W.add_logs l1 w) = W.add_logs (l1 ++ l2) w.
Proof. unfold W.add_logs. cbn. rewrite app_assoc. reflexivity. Qed.

Lemma startup_steps (L : Libs) (E : Env) (w : World) :
  ContentScheduler.__init__ L E w =
    if configured E
    then match truetype L (VideoEditor.font E) 100 with
         | Some e => (Raise e, w)
         | None =>
             let w' :=
               W.add_logs (build_log L "youtube" "v3" (credentials_of E))
                 w in
             match build_service L "youtube" "v3" (credentials_of E) with
             | Some e => (Raise e, w')
             | None => (Return (components_of E), w')
             end
         end
    else (Raise (Exn OSError "Missing required environment variables"), w).
Proof.
  unfold ContentScheduler.__init__, ContentDownloader.__init__,
    VideoEditor.__init__, ThumbnailGenerator.__init__,
    YouTubeUploader.__init__, YouTubeUploader._authenticate, bind, check.
  rewrite !config_init_cases.
  destruct (configured E) eqn:Hset; [| reflexivity].
  unfold ret at 1 2. rewrite !config_init_cases, Hset.
  unfold ret at 1.
  destruct (truetype L (VideoEditor.font E) 100); [reflexivity |].
  unfold ret at 1 2. rewrite !config_init_cases, Hset.
  change {| token := None;
            refresh_token := youtube_refresh_token (config_of E);
            token_uri := "https://oauth2.googleapis.com/token";
            client_id := youtube_client_id (config_of E);
            client_secret := youtube_client_secret (config_of E) |}
    with (credentials_of E).
  rewrite records_run. cbv zeta.
  destruct (build_service L "youtube" "v3" (credentials_of E));
    reflexivity.
Qed.

(** X21. [ContentScheduler()] fails with "Missing required environment
    variables" as soon as one of the four settings is absent or empty,
    whatever the font loader and the API client would do: the first
    component's [Config()] raises before any library is called, and
    nothing is changed. *)
Theorem startup_requires_configuration (L : Libs) (E : Env) (w : World) :
  configured E = false ->
  ContentScheduler.__init__ L E w =
    (Raise (Exn OSError "Missing required environment variables"), w).
Proof.
  intros Hmissing. rewrite startup_steps, Hmissing. reflexivity.
Qed.

Lemma startup_requires_configuration_witness :
  ContentScheduler.__init__ Demo.no_font Demo.bare Demo.world =
    (Raise (Exn OSError "Missing required environment variables"),
     Demo.world).
Proof.
  apply (startup_requires_configuration Demo.no_font Demo.bare Demo.world).
  vm_compute. reflexivity.
Defined.

(** X22. With the settings present, a failure of a library at start-up
    propagates unchanged, in source order: if the font cannot be loaded
    the constructor raises that error and the API client is never
    built, so that nothing is written; if the font loads and building
    the client fails, it raises the client's error, and the records
    that the client library has logged meanwhile are on the log. *)
Theorem startup_library_failures (L : Libs) (E : Env) (w : World)
    (e : exn) :
  configured E = true ->
  (truetype L (VideoEditor.font E) 100 = Some e
   \/ (truetype L (VideoEditor.font E) 100 = None
       /\ build_service L "youtube" "v3" (credentials_of E) = Some e)) ->
  ContentScheduler.__init__ L E w =
    (Raise e,
     match truetype L (VideoEditor.font E) 100 with
     | Some _ => w
     | None =>
         W.add_logs (build_log L "youtube" "v3" (credentials_of E)) w
     end).
Proof.
  intros Hset Hfail. rewrite startup_steps, Hset.
  destruct Hfail as [-> | [-> ->]]; reflexivity.
Qed.

Lemma startup_library_failures_witness :
  let E := Demo.env [] 0 10 (Demo.one_chunk PNone) in
  ContentScheduler.__init__ Demo.no_font E Demo.world =
    (Raise (Exn OSError "cannot open resource"), Demo.world)
  /\ ContentScheduler.__init__ Demo.no_client E Demo.world =
       (Raise (Exn LibraryError "name: youtube  version: v3"),
        W.add_logs
          [(INFO, "file_cache is only supported with oauth2client<4.0.0")]
          Demo.world).
Proof.
  intros E. split.
  - apply (startup_library_failures Demo.no_font E Demo.world).
    + vm_compute. reflexivity.
    + left. vm_compute. reflexivity.
  - apply (startup_library_failures Demo.no_client E Demo.world).
    + vm_compute. reflexivity.
    + right. split; vm_compute; reflexivity.
Defined.

(** X23. With the settings present, the font loaded and the client
    built, [ContentScheduler()] returns its five components: downloader,
    editor and uploader each hold the configuration read from the
    environment, the session announces "Youtube Automation Machine/1.0",
    the thumbnailer holds the font at size 100 with white text and black
    stroke, the client is built on credentials with no access token, the
    refresh token, client id and client secret of the environment and
    Google's token address, and the scheduler has no job and is not
    running.  Nothing is written but the records that the client
    library logs while the client is built. *)
Theorem startup_builds_components (L : Libs) (E : Env) (w : World) :
  configured E = true ->
  truetype L (VideoEditor.font E) 100 = None ->
  build_service L "youtube" "v3" (credentials_of E) = None ->
  ContentScheduler.__init__ L E w =
    (Return
       {| ContentScheduler.downloader :=
            {| ContentDownloader.downloader_config := config_of E;
               ContentDownloader.user_agent :=
                 "Youtube Automation Machine/1.0" |};
          ContentScheduler.editor :=
            {| VideoEditor.editor_config := config_of E;
               VideoEditor.editor_font := VideoEditor.font E |};
          ContentScheduler.thumbnailer :=
            {| ThumbnailGenerator.self_font := (VideoEditor.font E, 100);
               ThumbnailGenerator.self_text_color := (255, 255, 255);
               ThumbnailGenerator.self_stroke_color := (0, 0, 0) |};
          ContentScheduler.uploader :=
            {| YouTubeUploader.uploader_config := config_of E;
               YouTubeUploader.service := credentials_of E |};
          ContentScheduler.scheduler := {| jobs := []; running := false |} |},
     W.add_logs (build_log L "youtube" "v3" (credentials_of E)) w).
Proof.
  intros Hset Hfont Hbuild.
  rewrite startup_steps, Hset, Hfont, Hbuild. reflexivity.
Qed.

Lemma startup_builds_components_witness :
  let E := Demo.env [] 0 10 (Demo.one_chunk PNone) in
  exists self,
    ContentScheduler.__init__ Demo.libs E Demo.world =
      (Return self,
       W.add_logs
         [(INFO, "file_cache is only supported with oauth2client<4.0.0")]
         Demo.world)
    /\ YouTubeUploader.service (ContentScheduler.uploader self) =
         {| token := None; refresh_token := Some "refresh";
            token_uri := "https://oauth2.googleapis.com/token";
            client_id := Some "client"; client_secret := Some "secret" |}
    /\ ThumbnailGenerator.self_font (ContentScheduler.thumbnailer self) =
         ("/srv/machine/assets/Roboto-Bold.ttf", 100).
Proof.
  intros E. eexists. split.
  - apply (startup_builds_components Demo.libs E Demo.world);
      vm_compute; reflexivity.
  - split; vm_compute; reflexivity.
Defined.

(** ** Scheduling *)

Lemma getitem_subscript (obj : pyval) (key : string) (w : World) :
  Builtins.getitem obj key w =
    (match ContentScheduler.subscript obj key with
     | inl e => Raise e
     | inr v => Return v
     end, w).
Proof.
  unfold Builtins.getitem, ContentScheduler.subscript.
  destruct obj; try reflexivity.
  destruct (Py.assoc key items); reflexivity.
Qed.

Lemma describes_job_of (c : pyval) (j : Job) :
  describes c j <-> ContentScheduler.job_of c = inr j.
Proof.
  unfold describes, ContentScheduler.job_of, ContentScheduler.subscript.
  split.
  - intros (d & fields & niche & query & -> & Hs & Hn & Hq & ->).
    rewrite Hs, Hn, Hq. reflexivity.
  - destruct c as [| | | | | d]; try discriminate.
    destruct (Py.assoc "schedule" d) as [[| | | | | fields] |] eqn:Hs;
      try discriminate.
    destruct (Py.assoc "niche" d) as [niche |] eqn:Hn; try discriminate.
    destruct (Py.assoc "query" d) as [query |] eqn:Hq; try discriminate.
    intros [= <-]. exists d, fields, niche, query. auto.
Qed.

Lemma add_jobs_accepted (L : Libs) (good : list pyval) (js : list Job) :
  Forall2 (accepted L) good js ->
  forall rest s,
    ContentScheduler.add_jobs L (good ++ rest) s =
      ContentScheduler.add_jobs L rest
        {| jobs := jobs s ++ js; running := running s |}.
Proof.
  induction 1 as [| c j good js [Hc Hj] _ IH]; intros rest s.
  - rewrite app_nil_r. destruct s. reflexivity.
  - apply describes_job_of in Hc. cbn. rewrite Hc, Hj, IH. cbn.
    rewrite <- app_assoc. reflexivity.
Qed.

Lemma add_jobs_running (L : Libs) (niches : list pyval) (s : Scheduler) :
  running (snd (ContentScheduler.add_jobs L niches s)) = running s.
Proof.
  revert s. induction niches as [| c rest IH]; intros s; cbn.
  - reflexivity.
  - destruct (ContentScheduler.job_of c) as [e | j]; [reflexivity |].
    destruct (add_job L j); [reflexivity |]. rewrite IH. reflexivity.
Qed.

(** X24. Given well-formed niche descriptions that the library accepts,
    [schedule_daily_uploads] on a scheduler that is not running adds one
    cron job per description, after the jobs already there and in the
    order of the list, each with the fields of its "schedule" as trigger
    arguments and [niche, query] as arguments of the job, and then
    starts the scheduler. *)
Theorem schedule_registers_in_order (L : Libs) (niches : list pyval)
    (js : list Job) (s : Scheduler) :
  Forall2 (accepted L) niches js ->
  running s = false ->
  ContentScheduler.schedule_daily_uploads L niches s =
    (None, {| jobs := jobs s ++ js; running := true |}).
Proof.
  intros Hall Hidle.
  unfold ContentScheduler.schedule_daily_uploads.
  rewrite <- (app_nil_r niches), (add_jobs_accepted L niches js Hall).
  cbn. unfold ContentScheduler.start. cbn. rewrite Hidle. reflexivity.
Qed.

Lemma schedule_registers_in_order_witness :
  ContentScheduler.schedule_daily_uploads Demo.libs Script.niches
    {| jobs := []; running := false |} =
    (None,
     {| jobs := [daily 17 0 "fitness" "exercise motivation";
                 daily 9 30 "cooking" "kitchen hacks"];
        running := true |}).
Proof.
  apply (schedule_registers_in_order Demo.libs Script.niches
           [daily 17 0 "fitness" "exercise motivation";
            daily 9 30 "cooking" "kitchen hacks"]
           {| jobs := []; running := false |}).
  - repeat constructor.
    + eexists _, _, _, _. repeat split; reflexivity.
    + eexists _, _, _, _. repeat split; reflexivity.
  - reflexivity.
Defined.

(** X25. The loop stops at the first description that is not
    well-formed or that the library refuses: the call raises, the jobs
    of the descriptions before it stay registered, the descriptions
    after it are not looked at, and the scheduler is not started. *)
Theorem schedule_stops_at_first_failure (L : Libs)
    (good rest : list pyval) (bad : pyval) (js : list Job)
    (s : Scheduler) :
  Forall2 (accepted L) good js ->
  ((forall j, ~ describes bad j)
   \/ exists j, describes bad j /\ add_job L j <> None) ->
  exists e,
    ContentScheduler.schedule_daily_uploads L (good ++ bad :: rest) s =
      (Some e, {| jobs := jobs s ++ js; running := running s |}).
Proof.
  intros Hall Hbad.
  unfold ContentScheduler.schedule_daily_uploads.
  rewrite (add_jobs_accepted L good js Hall). cbn.
  destruct Hbad as [Hno | (j & Hj & Hrefused)].
  - destruct (ContentScheduler.job_of bad) as [e | j] eqn:Hjob.
    + exists e. reflexivity.
    + apply describes_job_of in Hjob. destruct (Hno j Hjob).
  - apply describes_job_of in Hj. rewrite Hj.
    destruct (add_job L j) as [e |]; [| congruence].
    exists e. reflexivity.
Qed.

Lemma schedule_stops_at_first_failure_witness :
  let bad := PDict [("niche", PStr "travel"); ("query", PStr "beaches")] in
  exists e,
    ContentScheduler.schedule_daily_uploads Demo.libs
      (Script.niches ++ bad :: Script.niches)
      {| jobs := []; running := false |} =
      (Some e,
       {| jobs := [] ++ [daily 17 0 "fitness" "exercise motivation";
                         daily 9 30 "cooking" "kitchen hacks"];
          running := false |}).
Proof.
  intros bad.
  apply (schedule_stops_at_first_failure Demo.libs Script.niches
           Script.niches bad
           [daily 17 0 "fitness" "exercise motivation";
            daily 9 30 "cooking" "kitchen hacks"]
           {| jobs := []; running := false |}).
  - repeat constructor.
    + eexists _, _, _, _. repeat split; reflexivity.
    + eexists _, _, _, _. repeat split; reflexivity.
  - left. intros j (d & fields & niche & query & Hd & Hs & _).
    injection Hd as <-. discriminate Hs.
Defined.

(** X26. A description without "schedule" fails with KeyError
    'schedule' also when "niche" and "query" are missing too, and a
    description whose "schedule" is not a dict fails with a TypeError
    before "niche" and "query" are looked up: the arguments of
    [add_job] are evaluated in source order. *)
Theorem schedule_evaluated_first (d : list (string * pyval)) :
  (Py.assoc "schedule" d = None ->
   ContentScheduler.job_of (PDict d) = inl (Exn KeyError "'schedule'"))
  /\ (forall v,
        Py.assoc "schedule" d = Some v ->
        (forall fields, v <> PDict fields) ->
        exists text,
          ContentScheduler.job_of (PDict d) = inl (Exn TypeError text)).
Proof.
  unfold ContentScheduler.job_of, ContentScheduler.subscript. split.
  - intros ->. reflexivity.
  - intros v -> Hv. destruct v; try (eexists; reflexivity).
    destruct (Hv items eq_refl).
Qed.

Lemma schedule_evaluated_first_witness :
  ContentScheduler.job_of (PDict [("niche", PStr "travel")]) =
    inl (Exn KeyError "'schedule'").
Proof.
  apply (proj1 (schedule_evaluated_first [("niche", PStr "travel")])).
  reflexivity.
Defined.

(** X27. Calling [schedule_daily_uploads] again on the scheduler it has
    started registers every job a second time and then raises
    "Scheduler is already running". *)
Theorem schedule_twice_duplicates (L : Libs) (niches : list pyval)
    (js : list Job) (s : Scheduler) :
  Forall2 (accepted L) niches js ->
  running s = false ->
  let first := ContentScheduler.schedule_daily_uploads L niches s in
  ContentScheduler.schedule_daily_uploads L niches (snd first) =
    (Some (Exn LibraryError "Scheduler is already running"),
     {| jobs := jobs s ++ js ++ js; running := true |}).
Proof.
  intros Hall Hidle first.
  assert (Hfirst : first = (None, {| jobs := jobs s ++ js; running := true |})).
  { unfold first, ContentScheduler.schedule_daily_uploads.
    rewrite <- (app_nil_r niches), (add_jobs_accepted L niches js Hall).
    cbn. unfold ContentScheduler.start. cbn. rewrite Hidle. reflexivity. }
  rewrite Hfirst. cbn [snd].
  unfold ContentScheduler.schedule_daily_uploads.
  rewrite <- (app_nil_r niches), (add_jobs_accepted L niches js Hall).
  cbn. rewrite <- app_assoc. reflexivity.
Qed.

Lemma schedule_twice_duplicates_witness :
  let s := {| jobs := []; running := false |} in
  let first :=
    ContentScheduler.schedule_daily_uploads Demo.libs Script.niches s in
  ContentScheduler.schedule_daily_uploads Demo.libs Script.niches
    (snd first) =
    (Some (Exn LibraryError "Scheduler is already running"),
     {| jobs := [] ++ [daily 17 0 "fitness" "exercise motivation";
                       daily 9 30 "cooking" "kitchen hacks"]
                ++ [daily 17 0 "fitness" "exercise motivation";
                    daily 9 30 "cooking" "kitchen hacks"];
        running := true |}).
Proof.
  intros s first.
  apply (schedule_twice_duplicates Demo.libs Script.niches
           [daily 17 0 "fitness" "exercise motivation";
            daily 9 30 "cooking" "kitchen hacks"] s).
  - repeat constructor.
    + eexists _, _, _, _. repeat split; reflexivity.
    + eexists _, _, _, _. repeat split; reflexivity.
  - reflexivity.
Defined.

(** ** The script *)

(** X28. When start-up succeeds and the library takes both jobs, the
    script registers the fitness job for 17:00 and the cooking job for
    9:30, starts the scheduler, and then ends with a NameError for
    [time], which the module never imports; the scheduler is left
    running.  The log has received the records of the libraries and no
    other: those of building the client, of the two [add_job] calls
    and of [start], in this order. *)
Theorem script_ends_with_name_error (L : Libs) (E : Env) (w : World) :
  configured E = true ->
  truetype L (VideoEditor.font E) 100 = None ->
  build_service L "youtube" "v3" (credentials_of E) = None ->
  add_job L (daily 17 0 "fitness" "exercise motivation") = None ->
  add_job L (daily 9 30 "cooking" "kitchen hacks") = None ->
  let fitness := daily 17 0 "fitness" "exercise motivation" in
  let cooking := daily 9 30 "cooking" "kitchen hacks" in
  Script.main L E w =
    (Script.NameError "time",
     W.add_logs
       (build_log L "youtube" "v3" (credentials_of E)
        ++ add_job_log L {| jobs := []; running := false |} fitness
        ++ add_job_log L {| jobs := [fitness]; running := false |} cooking
        ++ start_log L {| jobs := [fitness; cooking]; running := false |})
       w,
     {| jobs := [fitness; cooking]; running := true |}).
Proof.
  intros Hset Hfont Hbuild Hfitness Hcooking fitness cooking.
  unfold Script.main.
  rewrite startup_steps, Hset, Hfont, Hbuild. cbv zeta.
  unfold ContentScheduler.schedule_log,
    ContentScheduler.schedule_daily_uploads, Script.niches.
  cbn. unfold daily in Hfitness, Hcooking.
  rewrite Hfitness. cbn. rewrite Hcooking. cbn.
  rewrite add_logs_app, <- !app_assoc. reflexivity.
Qed.

Lemma script_ends_with_name_error_witness :
  let E := Demo.env [] 0 10 (Demo.one_chunk PNone) in
  let result := Script.main Demo.libs E Demo.world in
  fst (fst result) = Script.NameError "time"
  /\ log (snd (fst result)) =
       [(INFO, "file_cache is only supported with oauth2client<4.0.0");
        (INFO, "Adding job tentatively");
        (INFO, "Adding job tentatively");
        (INFO, "Added job run_pipeline to job store default");
        (INFO, "Added job run_pipeline to job store default");
        (INFO, "Scheduler started")]
  /\ files (snd (fst result)) = files Demo.world.
Proof.
  intros E result. unfold result.
  rewrite (script_ends_with_name_error Demo.libs E Demo.world);
    [| vm_compute; reflexivity ..].
  repeat split; vm_compute; reflexivity.
Defined.

(** X29. Whatever the environment and the libraries do, the script
    never reaches [scheduler.shutdown()]: it ends with the error of
    start-up, with the error of scheduling, or with the NameError.  It
    writes nothing itself: at the end the world is the initial one with
    the records of the libraries added to the log, those of building
    the client once the font is loaded, then those of scheduling once
    the client is built.  The scheduler is running at the end exactly
    when the script ended with the NameError. *)
Theorem script_never_shuts_down (L : Libs) (E : Env) (w : World) :
  let result := Script.main L E w in
  let idle := {| jobs := []; running := false |} in
  let written :=
    if configured E
    then match truetype L (VideoEditor.font E) 100 with
         | Some _ => []
         | None =>
             build_log L "youtube" "v3" (credentials_of E)
             ++ match build_service L "youtube" "v3" (credentials_of E) with
                | Some _ => []
                | None =>
                    ContentScheduler.schedule_log L Script.niches idle
                end
         end
    else [] in
  (forall e, fst (fst result) <> Script.ShutDown e)
  /\ snd (fst result) = W.add_logs written w
  /\ (running (snd result) = true
      <-> fst (fst result) = Script.NameError "time").
Proof.
  intros result idle written. unfold result, written, Script.main.
  rewrite startup_steps.
  destruct (configured E);
    [| cbn; rewrite add_logs_nil; repeat split; discriminate].
  destruct (truetype L _ _);
    [cbn; rewrite add_logs_nil; repeat split; discriminate |].
  cbv zeta.
  destruct (build_service L _ _ _);
    [cbn; rewrite app_nil_r; repeat split; discriminate |].
  rewrite add_logs_app.
  change (ContentScheduler.scheduler (components_of E)) with idle.
  unfold ContentScheduler.schedule_daily_uploads.
  pose proof (add_jobs_running L Script.niches idle) as Hrun.
  destruct (ContentScheduler.add_jobs L Script.niches idle) as [[e |] s].
  - cbn in *. repeat split; try discriminate.
    intros Hs. congruence.
  - cbn in Hrun. unfold ContentScheduler.start. rewrite Hrun.
    change (Script.bound "time") with false. cbn.
    repeat split; discriminate.
Qed.
